(** * Week realignment content script: DOM model and realigner

    Shallow embedding of [extension/content.js] (and of the variant of the
    same script that keeps an [activeObserver] handle) together with the
    properties stated for it.

    JavaScript strings are sequences of 16-bit code units, the DOM is a
    tree of element and text nodes, and the body of the [try] block is a
    program in a small state-and-exception monad. *)

From Stdlib Require Import String Ascii NArith Arith Bool List Lia.
Import ListNotations.
Open Scope string_scope.
Open Scope list_scope.

(** ** JavaScript strings *)

Module JsString.

Definition t := list N.

(** An ASCII literal as code units. *)
Definition lit (s : string) : t :=
  map N_of_ascii (list_ascii_of_string s).

Fixpoint eqb (a b : t) : bool :=
  match a, b with
  | [], [] => true
  | x :: a', y :: b' => N.eqb x y && eqb a' b'
  | _, _ => false
  end.

(** [WhiteSpace] and [LineTerminator] code units of ECMAScript, the ones
    [String.prototype.trim] strips. *)
Definition is_space (c : N) : bool :=
  (N.eqb c 9 || N.eqb c 10 || N.eqb c 11 || N.eqb c 12 || N.eqb c 13 ||
   N.eqb c 32 || N.eqb c 160 || N.eqb c 5760 ||
   (N.leb 8192 c && N.leb c 8202) ||
   N.eqb c 8232 || N.eqb c 8233 || N.eqb c 8239 || N.eqb c 8287 ||
   N.eqb c 12288 || N.eqb c 65279)%N.

Fixpoint trim_start (s : t) : t :=
  match s with
  | [] => []
  | c :: s' => if is_space c then trim_start s' else s
  end.

Definition trim_end (s : t) : t := rev (trim_start (rev s)).

Definition trim (s : t) : t := trim_end (trim_start s).

Fixpoint starts_with (pat s : t) : bool :=
  match pat, s with
  | [], _ => true
  | p :: pat', c :: s' => N.eqb p c && starts_with pat' s'
  | _ :: _, [] => false
  end.

(** [s.includes(pat)] *)
Fixpoint includes (s pat : t) : bool :=
  starts_with pat s ||
  match s with
  | [] => false
  | _ :: s' => includes s' pat
  end.

(** [s.replace(pat, rep)] for a string pattern and a replacement without
    [$] patterns: only the first occurrence is replaced. *)
Fixpoint replace (s pat rep : t) : t :=
  if starts_with pat s then rep ++ skipn (length pat) s
  else match s with
       | [] => []
       | c :: s' => c :: replace s' pat rep
       end.

(** Index of the first occurrence, [s.indexOf(pat)] with [None] for -1. *)
Fixpoint index_of (s pat : t) : option nat :=
  if starts_with pat s then Some 0
  else match s with
       | [] => None
       | _ :: s' => option_map S (index_of s' pat)
       end.

End JsString.

Definition jsstring : Type := JsString.t.

(** ** DOM trees *)

Module Dom.

(** Elements carry a lower-case local name, their attributes in order of
    creation and their child nodes; text nodes carry their data. *)
#[warnings="-register-all"]
Inductive node : Type :=
| Elem (tag : string) (attrs : list (string * jsstring)) (kids : list node)
| Text (data : jsstring).

Section NodeInduction.
Variable P : node -> Prop.
Hypothesis HElem : forall tag attrs kids,
    Forall P kids -> P (Elem tag attrs kids).
Hypothesis HText : forall data, P (Text data).

Fixpoint node_forall_ind (n : node) : P n :=
  match n with
  | Elem tag attrs kids =>
      HElem tag attrs kids
        ((fix all (l : list node) : Forall P l :=
            match l with
            | [] => Forall_nil P
            | k :: l' => Forall_cons k (node_forall_ind k) (all l')
            end) kids)
  | Text data => HText data
  end.
End NodeInduction.

Definition tag_of (n : node) : option string :=
  match n with Elem tag _ _ => Some tag | Text _ => None end.

Definition has_tag (name : string) (n : node) : bool :=
  match n with
  | Elem tag _ _ => String.eqb tag name
  | Text _ => false
  end.

Definition children (n : node) : list node :=
  match n with Elem _ _ kids => kids | Text _ => [] end.

Definition attributes (n : node) : list (string * jsstring) :=
  match n with Elem _ attrs _ => attrs | Text _ => [] end.

Definition with_children (n : node) (kids : list node) : node :=
  match n with
  | Elem tag attrs _ => Elem tag attrs kids
  | Text data => Text data
  end.

(** *** Attributes *)

Fixpoint lookup (name : string) (attrs : list (string * jsstring))
  : option jsstring :=
  match attrs with
  | [] => None
  | (k, v) :: rest => if String.eqb k name then Some v else lookup name rest
  end.

Fixpoint update (name : string) (v : jsstring)
         (attrs : list (string * jsstring)) : list (string * jsstring) :=
  match attrs with
  | [] => [(name, v)]
  | (k, w) :: rest =>
      if String.eqb k name then (k, v) :: rest
      else (k, w) :: update name v rest
  end.

Definition getAttribute (name : string) (n : node) : option jsstring :=
  lookup name (attributes n).

Definition hasAttribute (name : string) (n : node) : bool :=
  match getAttribute name n with Some _ => true | None => false end.

Definition setAttribute (name : string) (v : jsstring) (n : node) : node :=
  match n with
  | Elem tag attrs kids => Elem tag (update name v attrs) kids
  | Text data => Text data
  end.

(** *** Text content: the data of all text descendants, in tree order *)

Fixpoint textContent (n : node) : jsstring :=
  match n with
  | Text data => data
  | Elem _ _ kids =>
      (fix cat (l : list node) : jsstring :=
         match l with
         | [] => []
         | k :: l' => textContent k ++ cat l'
         end) kids
  end.

(** *** Selectors: first match in tree order *)

Section Select.
Variable p : node -> bool.

Fixpoint find_first (n : node) {struct n} : option node :=
  if p n then Some n
  else match n with
       | Text _ => None
       | Elem _ _ kids =>
           (fix find_in (l : list node) : option node :=
              match l with
              | [] => None
              | k :: l' =>
                  match find_first k with
                  | Some m => Some m
                  | None => find_in l'
                  end
              end) kids
       end.

Fixpoint find_in (l : list node) : option node :=
  match l with
  | [] => None
  | k :: l' =>
      match find_first k with
      | Some m => Some m
      | None => find_in l'
      end
  end.

(** [e.querySelector(sel)]: the first descendant of [e] matching
    [sel]. *)
Definition querySelector (e : node) : option node :=
  find_in (children e).

Variable f : node -> node.

(** The node obtained when the object that [find_first n] returns has
    been changed into [f] of itself. *)
Fixpoint change_first (n : node) {struct n} : node :=
  if p n then f n
  else match n with
       | Text data => Text data
       | Elem tag attrs kids =>
           Elem tag attrs
             ((fix change_in (l : list node) : list node :=
                 match l with
                 | [] => []
                 | k :: l' =>
                     match find_first k with
                     | Some _ => change_first k :: l'
                     | None => k :: change_in l'
                     end
                 end) kids)
       end.

Fixpoint change_in (l : list node) : list node :=
  match l with
  | [] => []
  | k :: l' =>
      match find_first k with
      | Some _ => change_first k :: l'
      | None => k :: change_in l'
      end
  end.

(** The element [e] after the object that [querySelector e] returns
    has been changed into [f] of itself. *)
Definition change_selected (e : node) : node :=
  with_children e (change_in (children e)).

End Select.

(** *** Lists of children seen through a filter ([rows], [cells]) *)

(** The list without its first element satisfying [p]. *)
Fixpoint remove_first (p : node -> bool) (l : list node) : list node :=
  match l with
  | [] => []
  | x :: l' => if p x then l' else x :: remove_first p l'
  end.

(** The list without the element that is number [i] among those
    satisfying [p]. *)
Fixpoint remove_nth (p : node -> bool) (i : nat) (l : list node)
  : list node :=
  match l with
  | [] => []
  | x :: l' =>
      if p x then
        match i with
        | O => l'
        | S j => x :: remove_nth p j l'
        end
      else x :: remove_nth p i l'
  end.

(** [f] applied to the first element satisfying [p]. *)
Fixpoint map_first (p : node -> bool) (f : node -> node) (l : list node)
  : list node :=
  match l with
  | [] => []
  | x :: l' => if p x then f x :: l' else x :: map_first p f l'
  end.

(** [f] applied to the last element satisfying [p]. *)
Fixpoint map_last (p : node -> bool) (f : node -> node) (l : list node)
  : list node :=
  match l with
  | [] => []
  | x :: l' =>
      if existsb p l' then x :: map_last p f l'
      else if p x then f x :: l' else x :: l'
  end.

(** The list without its element number [i]. *)
Definition without (i : nat) (l : list node) : list node :=
  firstn i l ++ skipn (S i) l.

(** Selectors that look at the element's name and attributes only. *)
Definition shallow (p : node -> bool) : Prop :=
  forall tag attrs kids kids',
    p (Elem tag attrs kids) = p (Elem tag attrs kids').

(** *** Table interfaces *)

Definition is_tbody : node -> bool := has_tag "tbody".
Definition is_tr : node -> bool := has_tag "tr".
Definition is_cell (n : node) : bool := has_tag "td" n || has_tag "th" n.

(** [span[aria-hidden="true"]] *)
Definition is_hidden_span (n : node) : bool :=
  has_tag "span" n &&
  match getAttribute "aria-hidden" n with
  | Some v => JsString.eqb v (JsString.lit "true")
  | None => false
  end.

(** [tbody.rows] of an HTML table section: the [tr] children. Other
    elements have no such property, see [Candidate]. *)
Definition rows (tbody : node) : list node := filter is_tr (children tbody).

(** [tr.cells]: the [td] and [th] children. *)
Definition cells (tr : node) : list node := filter is_cell (children tr).

End Dom.

(** ** The realigner *)

Module Realigner.
Import Dom.

Inductive exn : Type := TypeError | DOMException.

(** The DOM calls of the [try] block that change the page. [DeleteCell]
    records the number of cells of the row it is called on. *)
Inductive domcall : Type :=
| AppendChild
| DeleteCell (ncells : nat)
| SetAttribute
| SetDataset.

(** The host decides which DOM calls raise; a call that raises has no
    effect on the page. *)
Definition host : Type := domcall -> bool.

Definition faultless : host := fun _ => false.

(** The candidate table, what [console.error] has printed, and the DOM
    calls made so far, each with whether it completed. *)
Record state : Type := mkState {
  table : node;
  console : list (jsstring * exn);
  calls : list (domcall * bool)
}.

(** *** Programs: state and exceptions *)

Inductive result (A : Type) : Type :=
| Ok (a : A)
| Thrown (e : exn).
Arguments Ok {A} a.
Arguments Thrown {A} e.

Definition M (A : Type) : Type := state -> result A * state.

Definition ret {A} (a : A) : M A := fun s => (Ok a, s).

Definition bind {A B} (m : M A) (k : A -> M B) : M B :=
  fun s =>
    match m s with
    | (Ok a, s') => k a s'
    | (Thrown e, s') => (Thrown e, s')
    end.

Definition throw {A} (e : exn) : M A := fun s => (Thrown e, s).

Definition try_catch (body : M unit) (handler : exn -> M unit) : M unit :=
  fun s =>
    match body s with
    | (Ok a, s') => (Ok a, s')
    | (Thrown e, s') => handler e s'
    end.

Declare Scope js_scope.
Delimit Scope js_scope with js.
Notation "x <- m ;; k" := (bind m (fun x => k))
  (at level 61, m at next level, right associativity) : js_scope.
Notation "m ;; k" := (bind m (fun _ => k))
  (at level 61, right associativity) : js_scope.
Open Scope js_scope.

Definition get_table : M node := fun s => (Ok (table s), s).

(** Reading a property of [undefined] or [null] raises a [TypeError]. *)
Definition defined {A} (o : option A) : M A :=
  match o with
  | Some a => ret a
  | None => throw TypeError
  end.

(** A DOM call that changes the page. *)
Definition call (h : host) (c : domcall) (effect : node -> node) : M unit :=
  fun s =>
    if h c
    then (Thrown DOMException,
          mkState (table s) (console s) (calls s ++ [(c, false)]))
    else (Ok tt,
          mkState (effect (table s)) (console s) (calls s ++ [(c, true)])).

Definition console_error (prefix : jsstring) (e : exn) : M unit :=
  fun s => (Ok tt, mkState (table s) (console s ++ [(prefix, e)]) (calls s)).

(** *** The objects the script holds references to *)

Definition marker : string := "data-week-monday-corrected".

(** [table.dataset.weekMondayCorrected === 'true'] *)
Definition corrected (t : node) : bool :=
  match getAttribute marker t with
  | Some v => JsString.eqb v (JsString.lit "true")
  | None => false
  end.

(** [tbody]: what [table.querySelector('tbody')] returned. *)
Definition tbody_of (t : node) : option node := querySelector is_tbody t.

Definition on_tbody (f : node -> node) (t : node) : node :=
  change_selected is_tbody f t.

(** [tbody.rows[tbody.rows.length - 1]] *)
Definition last_row (tbody : node) : option node :=
  nth_error (rows tbody) (List.length (rows tbody) - 1).

Definition on_last_row (f : node -> node) (tbody : node) : node :=
  with_children tbody (map_last is_tr f (children tbody)).

Definition on_first_cell (f : node -> node) (tr : node) : node :=
  with_children tr (map_first is_cell f (children tr)).

(** [tbody.appendChild(tbody.rows[0])]: the row leaves its place and
    becomes the last child. *)
Definition appendFirstRow (tbody : node) : node :=
  match rows tbody with
  | [] => tbody
  | firstRow :: _ =>
      with_children tbody (remove_first is_tr (children tbody) ++ [firstRow])
  end.

(** [tr.deleteCell(i)] for [i] below the number of cells. *)
Definition deleteCell (i : nat) (tr : node) : node :=
  with_children tr (remove_nth is_cell i (children tr)).

(** [label.textContent.trim()] of the row's day marker, when the row has
    a cell 0 with a marker in it. *)
Definition label_of (tr : node) : option jsstring :=
  match nth_error (cells tr) 0 with
  | None => None
  | Some labelCell =>
      match querySelector is_hidden_span labelCell with
      | None => None
      | Some labelSpan => Some (JsString.trim (textContent labelSpan))
      end
  end.

Definition log_prefix : jsstring :=
  JsString.lit "[Contribution Graph Realignment] Error during mutation:".

(** *** [startWeekOnMonday] *)

(** Step 2 of the [try] block. *)
Definition shiftSundayData (h : host) : M unit :=
  tbody <- (t <- get_table ;; defined (tbody_of t)) ;;
  newLastRow <- defined (last_row tbody) ;;
  if Nat.ltb 1 (List.length (cells newLastRow))
  then call h (DeleteCell (List.length (cells newLastRow)))
            (on_tbody (on_last_row (deleteCell 1)))
  else ret tt.

(** Step 3 of the [try] block. *)
Definition fixSunLabel (h : host) : M unit :=
  tbody <- (t <- get_table ;; defined (tbody_of t)) ;;
  newLastRow <- defined (last_row tbody) ;;
  cell0 <- defined (nth_error (cells newLastRow) 0) ;;
  match querySelector is_hidden_span cell0 with
  | None => ret tt
  | Some sunLabel =>
      if hasAttribute "style" sunLabel then
        currentStyle <- defined (getAttribute "style" sunLabel) ;;
        let newStyle :=
          JsString.replace currentStyle
            (JsString.lit "Circle(0)") (JsString.lit "None") in
        call h SetAttribute
          (on_tbody (on_last_row (on_first_cell
             (change_selected is_hidden_span
                (setAttribute "style" newStyle)))))
      else ret tt
  end.

Definition mutation (h : host) : M unit :=
  call h AppendChild (on_tbody appendFirstRow) ;;
  shiftSundayData h ;;
  fixSunLabel h ;;
  call h SetDataset (setAttribute marker (JsString.lit "true")).

(** [startWeekOnMonday(table)] on a table whose [tbody] is an HTML table
    section; [Candidate.startWeekOnMonday] reads [tbody.rows] of any
    element. *)
Definition startWeekOnMonday (h : host) : M unit :=
  table <- get_table ;;
  if corrected table then ret tt else
  match tbody_of table with
  | None => ret tt
  | Some tbody =>
      if negb (Nat.eqb (List.length (rows tbody)) 7) then ret tt else
      firstRow <- defined (nth_error (rows tbody) 0) ;;
      if Nat.ltb (List.length (cells firstRow)) 2 then ret tt else
      labelCell <- defined (nth_error (cells firstRow) 0) ;;
      match querySelector is_hidden_span labelCell with
      | None => ret tt
      | Some labelSpan =>
          if negb (JsString.eqb (JsString.trim (textContent labelSpan))
                                (JsString.lit "Sun"))
          then ret tt
          else try_catch (mutation h) (console_error log_prefix)
      end
  end.

(** The state after a call. *)
Definition after (h : host) (s : state) : state :=
  snd (startWeekOnMonday h s).

(** *** The guards, as a predicate on the candidate *)

Definition passes_guards (t : node) : bool :=
  negb (corrected t) &&
  match tbody_of t with
  | None => false
  | Some tbody =>
      Nat.eqb (List.length (rows tbody)) 7 &&
      match nth_error (rows tbody) 0 with
      | None => false
      | Some firstRow =>
          Nat.leb 2 (List.length (cells firstRow)) &&
          match label_of firstRow with
          | Some l => JsString.eqb l (JsString.lit "Sun")
          | None => false
          end
      end
  end.

(** The labels of the body's rows, top to bottom. *)
Definition row_labels (t : node) : list (option jsstring) :=
  match tbody_of t with
  | None => []
  | Some tbody => map label_of (rows tbody)
  end.

Definition body_rows (t : node) : list node :=
  match tbody_of t with
  | None => []
  | Some tbody => rows tbody
  end.

End Realigner.

(** ** The tables reached by the steps of the [try] block *)

Module Steps.
Import Dom Realigner.

(** The day marker of row 0's label cell. *)
Definition sun_label (t : node) : option node :=
  match tbody_of t with
  | None => None
  | Some tbody =>
      match nth_error (rows tbody) 0 with
      | None => None
      | Some firstRow =>
          match nth_error (cells firstRow) 0 with
          | None => None
          | Some labelCell => querySelector is_hidden_span labelCell
          end
      end
  end.

Definition sun_style (t : node) : option jsstring :=
  match sun_label t with
  | Some sunLabel => getAttribute "style" sunLabel
  | None => None
  end.

(** Number of cells of row 0. *)
Definition sun_cells (t : node) : nat :=
  match tbody_of t with
  | None => 0
  | Some tbody =>
      match nth_error (rows tbody) 0 with
      | None => 0
      | Some firstRow => List.length (cells firstRow)
      end
  end.

Definition unhide (style : jsstring) : jsstring :=
  JsString.replace style (JsString.lit "Circle(0)") (JsString.lit "None").

Definition set_style (style : jsstring) (tr : node) : node :=
  on_first_cell
    (change_selected is_hidden_span (setAttribute "style" style)) tr.

(** After step 1. *)
Definition moved (t : node) : node := on_tbody appendFirstRow t.

(** After step 2. *)
Definition shifted (t : node) : node :=
  on_tbody (on_last_row (deleteCell 1)) (moved t).

(** After step 3. *)
Definition unhidden (t : node) : node :=
  match sun_style t with
  | Some style => on_tbody (on_last_row (set_style (unhide style))) (shifted t)
  | None => shifted t
  end.

(** After step 4. *)
Definition marked (t : node) : node :=
  setAttribute marker (JsString.lit "true") (unhidden t).

(** The [try] block as a straight line: which call raises decides where
    it stops. *)
Definition straight (h : host) (s : state) : result unit * state :=
  let t := table s in
  let stop t' cs :=
    (@Thrown unit DOMException, mkState t' (console s) (calls s ++ cs)) in
  let c1 := [(AppendChild, true)] in
  let c2 := c1 ++ [(DeleteCell (sun_cells t), true)] in
  let c3 := match sun_style t with
            | Some _ => c2 ++ [(SetAttribute, true)]
            | None => c2
            end in
  if h AppendChild then stop t [(AppendChild, false)]
  else if h (DeleteCell (sun_cells t))
  then stop (moved t) (c1 ++ [(DeleteCell (sun_cells t), false)])
  else if match sun_style t with
          | Some _ => h SetAttribute
          | None => false
          end
  then stop (shifted t) (c2 ++ [(SetAttribute, false)])
  else if h SetDataset then stop (unhidden t) (c3 ++ [(SetDataset, false)])
  else (Ok tt,
        mkState (marked t) (console s) (calls s ++ c3 ++ [(SetDataset, true)])).

(** The relocated row, as the script leaves it. *)
Definition sunday_row (firstRow : node) : node :=
  match nth_error (cells firstRow) 0 with
  | None => deleteCell 1 firstRow
  | Some labelCell =>
      match querySelector is_hidden_span labelCell with
      | None => deleteCell 1 firstRow
      | Some sunLabel =>
          match getAttribute "style" sunLabel with
          | None => deleteCell 1 firstRow
          | Some style => set_style (unhide style) (deleteCell 1 firstRow)
          end
      end
  end.

(** The body [b] with row [r] as its last child, after the rows that
    stay, and the table [t] with that body. *)
Definition body_with (b r : node) : node :=
  with_children b (remove_first is_tr (children b) ++ [r]).

Definition table_with (t b r : node) : node :=
  on_tbody (fun _ => body_with b r) t.

(** The label cell of the relocated row, from the label cell [c0] and
    its day marker [sp]. *)
Definition sunday_label_cell (c0 sp : node) : node :=
  match getAttribute "style" sp with
  | Some style =>
      change_selected is_hidden_span
        (setAttribute "style" (unhide style)) c0
  | None => c0
  end.

(** What the four guards establish about the table. *)
Record guarded (t b r0 : node) (rest : list node)
       (c0 c1 : node) (cs : list node) (sp : node) : Prop := {
  g_marker : corrected t = false;
  g_tbody : tbody_of t = Some b;
  g_rows : rows b = r0 :: rest;
  g_seven : List.length rest = 6;
  g_cells : cells r0 = c0 :: c1 :: cs;
  g_span : querySelector is_hidden_span c0 = Some sp;
  g_sun : JsString.eqb (JsString.trim (textContent sp))
                       (JsString.lit "Sun") = true
}.

(** *** What the properties speak about *)

Definition seven_rows (t : node) : bool :=
  match tbody_of t with
  | None => false
  | Some tbody => Nat.eqb (List.length (rows tbody)) 7
  end.

(** Label of row 0 and of row 1. *)
Definition first_label (t : node) : option jsstring :=
  match body_rows t with
  | firstRow :: _ => label_of firstRow
  | [] => None
  end.

Definition second_label (t : node) : option jsstring :=
  match body_rows t with
  | _ :: secondRow :: _ => label_of secondRow
  | _ => None
  end.

Definition day (name : string) : option jsstring :=
  Some (JsString.lit name).

Definition sunday_start : list (option jsstring) :=
  map day ["Sun"; "Mon"; "Tue"; "Wed"; "Thu"; "Fri"; "Sat"].

Definition monday_start : list (option jsstring) :=
  map day ["Mon"; "Tue"; "Wed"; "Thu"; "Fri"; "Sat"; "Sun"].

(** The [style] attribute of a row's day marker. *)
Definition marker_style (tr : node) : option jsstring :=
  match nth_error (cells tr) 0 with
  | None => None
  | Some labelCell =>
      match querySelector is_hidden_span labelCell with
      | None => None
      | Some span => getAttribute "style" span
      end
  end.

(** The [style] attribute of the day marker of the last row. *)
Definition last_style (t : node) : option jsstring :=
  match tbody_of t with
  | None => None
  | Some tbody =>
      match last_row tbody with
      | None => None
      | Some tr => marker_style tr
      end
  end.

(** Calls one after the other on the same table, the host free to
    behave differently each time. *)
Definition run_all (hs : list host) (s : state) : state :=
  fold_left (fun s h => after h s) hs s.

Definition is_relocation (c : domcall * bool) : bool :=
  match c with
  | (AppendChild, true) => true
  | _ => false
  end.

(** How many times a row was moved. *)
Definition relocations (s : state) : nat :=
  List.length (filter is_relocation (calls s)).

Definition is_deletion (c : domcall * bool) : bool :=
  match c with
  | (DeleteCell _, _) => true
  | _ => false
  end.

End Steps.
(** ** Candidates that are not HTML tables throughout *)

(** The tree does not record the namespace of an element, and [rows] is a
    property of HTML table sections only. The selector [tbody] also
    matches an element named tbody of another namespace, as the HTML
    parser builds one inside [svg] or [math]; on such an element
    [tbody.rows] is [undefined]. Here the interface of the elements is
    given beside the tree, and the guards read [rows] through it;
    [Realigner.startWeekOnMonday] is the case in which every element the
    selector returns is an HTML table section. *)
Module Candidate.
Import Dom Realigner.

(** Which elements are HTML table sections. *)
Definition interface : Type := node -> bool.

Definition html : interface := fun _ => true.

(** [tbody.rows] *)
Definition rows_of (sections : interface) (tbody : node)
  : option (list node) :=
  if sections tbody then Some (rows tbody) else None.

Definition startWeekOnMonday (sections : interface) (h : host) : M unit :=
  table <- get_table ;;
  if corrected table then ret tt else
  match tbody_of table with
  | None => ret tt
  | Some tbody =>
      tbody_rows <- defined (rows_of sections tbody) ;;
      if negb (Nat.eqb (List.length tbody_rows) 7) then ret tt else
      firstRow <- defined (nth_error tbody_rows 0) ;;
      if Nat.ltb (List.length (cells firstRow)) 2 then ret tt else
      labelCell <- defined (nth_error (cells firstRow) 0) ;;
      match querySelector is_hidden_span labelCell with
      | None => ret tt
      | Some labelSpan =>
          if negb (JsString.eqb (JsString.trim (textContent labelSpan))
                                (JsString.lit "Sun"))
          then ret tt
          else try_catch (mutation h) (console_error log_prefix)
      end
  end.

End Candidate.
(** ** The change watcher *)

(** The event loop: time in milliseconds, pending timers, the [timeout]
    variable of every closure that [debounce] has returned, and the
    connected mutation observers. Callbacks are named, not stored as
    functions. *)
Module Loop.
Import Dom Realigner.

Inductive callback : Type :=
| LaterClear (closure : nat)  (* [later] of extension/content.js *)
| Later (closure : nat)       (* [later] of the variant with a handle *)
| GiveUp.                     (* the 5000 ms function of [observeTable] *)

Record timer : Type := mkTimer {
  timer_id : nat;
  due : nat;
  fires : callback
}.

Inductive mutation_type : Type := childList | attributes | characterData.

(** What a [MutationObserver] does with a batch of records. *)
Inductive observer_callback : Type :=
| IfChildList (closure : nat)  (* extension/content.js *)
| Always (closure : nat).      (* the variant with a handle *)

Record observer : Type := mkObserver {
  observer_id : nat;
  notifies : observer_callback
}.

Record world : Type := mkWorld {
  now : nat;
  (** what [document.querySelector('.ContributionCalendar-grid')]
      returns *)
  document : option node;
  console : list (jsstring * exn);
  calls : list (domcall * bool);
  timers : list timer;
  next_timer : nat;
  (** [wait] and [timeout] of each debounced function *)
  closures : list (nat * option nat);
  (** the observers that are observing [document.body] *)
  connected : list observer;
  next_observer : nat;
  activeObserver : option nat;
  (** runs of [handleMutations], and those that found a table *)
  checks : nat;
  found : nat
}.

Definition initial (doc : option node) : world :=
  mkWorld 0 doc [] [] [] 0 [] [] 0 None 0 0.

Definition with_timers (l : list timer) (w : world) : world :=
  mkWorld (now w) (document w) (console w) (calls w) l (next_timer w)
          (closures w) (connected w) (next_observer w) (activeObserver w)
          (checks w) (found w).

Definition with_closures (l : list (nat * option nat)) (w : world) : world :=
  mkWorld (now w) (document w) (console w) (calls w) (timers w)
          (next_timer w) l (connected w) (next_observer w)
          (activeObserver w) (checks w) (found w).

Definition with_document (doc : option node) (w : world) : world :=
  mkWorld (now w) doc (console w) (calls w) (timers w) (next_timer w)
          (closures w) (connected w) (next_observer w) (activeObserver w)
          (checks w) (found w).

(** [setTimeout(cb, wait)]: the new timer's id and the world with it. *)
Definition setTimeout (cb : callback) (wait : nat) (w : world)
  : nat * world :=
  (next_timer w,
   mkWorld (now w) (document w) (console w) (calls w)
           (timers w ++ [mkTimer (next_timer w) (now w + wait) cb])
           (S (next_timer w)) (closures w) (connected w) (next_observer w)
           (activeObserver w) (checks w) (found w)).

(** [clearTimeout(id)]; [None] stands for [undefined]. *)
Definition clearTimeout (id : option nat) (w : world) : world :=
  match id with
  | None => w
  | Some i =>
      with_timers
        (filter (fun tm => negb (Nat.eqb (timer_id tm) i)) (timers w)) w
  end.

(** The [timeout] variable of closure [c]. *)
Definition timeout_of (c : nat) (w : world) : option nat :=
  match nth_error (closures w) c with
  | Some (_, t) => t
  | None => None
  end.

Definition wait_of (c : nat) (w : world) : nat :=
  match nth_error (closures w) c with
  | Some (wait, _) => wait
  | None => 0
  end.

Fixpoint assign {A} (i : nat) (f : A -> A) (l : list A) : list A :=
  match l, i with
  | [], _ => []
  | x :: l', O => f x :: l'
  | x :: l', S j => x :: assign j f l'
  end.

(** [timeout = id] in closure [c]. *)
Definition set_timeout (c : nat) (id : nat) (w : world) : world :=
  with_closures (assign c (fun cl => (fst cl, Some id)) (closures w)) w.

(** [handleMutations()]. The calendar in [document] is an HTML table; the
    records of the edits made here are handed to the observers at the end
    of the turn of the event loop in which it runs, see [turn]. *)
Definition handleMutations (h : host) (w : world) : world :=
  match document w with
  | None =>
      mkWorld (now w) (document w) (console w) (calls w) (timers w)
              (next_timer w) (closures w) (connected w) (next_observer w)
              (activeObserver w) (S (checks w)) (found w)
  | Some table =>
      let s := after h (mkState table (console w) (calls w)) in
      mkWorld (now w) (Some (Realigner.table s)) (Realigner.console s)
              (Realigner.calls s) (timers w) (next_timer w) (closures w)
              (connected w) (next_observer w) (activeObserver w)
              (S (checks w)) (S (found w))
  end.

(** [handleMutations()] on a page whose elements are described by
    [sections]: the guards of [startWeekOnMonday] can raise, and the
    exception leaves [handleMutations]. *)
Definition handleMutations_on (sections : Candidate.interface) (h : host)
           (w : world) : result unit * world :=
  match document w with
  | None => (Ok tt, handleMutations h w)
  | Some table =>
      let (r, s) := Candidate.startWeekOnMonday
                      sections h (mkState table (console w) (calls w)) in
      (r,
       mkWorld (now w) (Some (Realigner.table s)) (Realigner.console s)
               (Realigner.calls s) (timers w) (next_timer w) (closures w)
               (connected w) (next_observer w) (activeObserver w)
               (S (checks w)) (S (found w)))
  end.

(** [debounce(handleMutations, wait)]: a new closure, its [timeout]
    undefined. *)
Definition debounce (wait : nat) (w : world) : nat * world :=
  (List.length (closures w),
   with_closures (closures w ++ [(wait, None)]) w).

(** [executedFunction()] of closure [c]; [later] is the callback that
    the source file at hand builds. *)
Definition executedFunction (later : nat -> callback) (c : nat) (w : world)
  : world :=
  let w1 := clearTimeout (timeout_of c w) w in
  let (id, w2) := setTimeout (later c) (wait_of c w) w1 in
  set_timeout c id w2.

(** [observer.disconnect()] *)
Definition disconnect (id : nat) (w : world) : world :=
  mkWorld (now w) (document w) (console w) (calls w) (timers w)
          (next_timer w) (closures w)
          (filter (fun o => negb (Nat.eqb (observer_id o) id)) (connected w))
          (next_observer w) (activeObserver w) (checks w) (found w).

Definition set_activeObserver (a : option nat) (w : world) : world :=
  mkWorld (now w) (document w) (console w) (calls w) (timers w)
          (next_timer w) (closures w) (connected w) (next_observer w)
          a (checks w) (found w).

(** [new MutationObserver(cb)] followed by
    [observe(document.body, {childList: true, subtree: true})]. *)
Definition observe (cb : observer_callback) (w : world) : nat * world :=
  (next_observer w,
   mkWorld (now w) (document w) (console w) (calls w) (timers w)
           (next_timer w) (closures w)
           (connected w ++ [mkObserver (next_observer w) cb])
           (S (next_observer w)) (activeObserver w) (checks w) (found w)).

Definition is_childList (m : mutation_type) : bool :=
  match m with
  | childList => true
  | _ => false
  end.

(** The callback of one observer on the records it is given. *)
Definition notify (records : list mutation_type) (o : observer) (w : world)
  : world :=
  match notifies o with
  | IfChildList c =>
      if existsb is_childList records
      then executedFunction LaterClear c w
      else w
  | Always c => executedFunction Later c w
  end.

(** The host delivers a batch of changes: every observer was connected
    with [{childList: true, subtree: true}], so it is given the
    [childList] records of the batch, and is not called when there are
    none. *)
Definition deliver (batch : list mutation_type) (w : world) : world :=
  match filter is_childList batch with
  | [] => w
  | records => fold_left (fun w o => notify records o w) (connected w) w
  end.

(** The record that a completed DOM call of the script leaves for the
    observers of the body. *)
Definition record_of (c : domcall) : mutation_type :=
  match c with
  | AppendChild | DeleteCell _ => childList
  | SetAttribute | SetDataset => attributes
  end.

(** The records of the DOM calls completed since there were [n] calls. *)
Definition records_since (n : nat) (w : world) : list mutation_type :=
  map (fun c => record_of (fst c)) (filter snd (skipn n (calls w))).

(** The observers [l] are given the [childList] records of [batch], if
    there are any. *)
Definition deliver_to (l : list observer) (batch : list mutation_type)
           (w : world) : world :=
  fold_left (fun w o => match filter is_childList batch with
                        | [] => w
                        | records => notify records o w
                        end) l w.

(** A turn of the event loop: [f] runs to its end, then the browser hands the
    records of the changes that [f] made to the page to the observers
    that were connected when it began. This is how the edits of
    [startWeekOnMonday] reach the script's own observer. *)
Definition turn (f : world -> world) (w : world) : world :=
  deliver_to (connected w) (records_since (List.length (calls w)) (f w))
             (f w).

(** The body of a timer callback. *)
Definition run_callback (h : host) (cb : callback) (w : world) : world :=
  match cb with
  | LaterClear c => handleMutations h (clearTimeout (timeout_of c w) w)
  | Later c => handleMutations h w
  | GiveUp =>
      match activeObserver w, document w with
      | Some o, None => set_activeObserver None (disconnect o w)
      | _, _ => w
      end
  end.

(** The first pending timer that is due, and the others. *)
Fixpoint pick_due (t : nat) (l : list timer) : option (timer * list timer) :=
  match l with
  | [] => None
  | tm :: l' =>
      if Nat.leb (due tm) t then Some (tm, l')
      else match pick_due t l' with
           | Some (d, rest) => Some (d, tm :: rest)
           | None => None
           end
  end.

(** Run the timers that are due, one after the other, each in a turn of its own. *)
Fixpoint fire (h : host) (fuel : nat) (w : world) : world :=
  match fuel with
  | O => w
  | S fuel' =>
      match pick_due (now w) (timers w) with
      | None => w
      | Some (tm, rest) =>
          fire h fuel' (turn (run_callback h (fires tm)) (with_timers rest w))
      end
  end.

Definition at_time (t : nat) (w : world) : world :=
  mkWorld t (document w) (console w) (calls w) (timers w)
          (next_timer w) (closures w) (connected w) (next_observer w)
          (activeObserver w) (checks w) (found w).

(** One millisecond passes. *)
Definition tick (h : host) (w : world) : world :=
  fire h (List.length (timers w)) (at_time (S (now w)) w).

Fixpoint elapse (h : host) (ms : nat) (w : world) : world :=
  match ms with
  | O => w
  | S ms' => elapse h ms' (tick h w)
  end.

(** The times at which pending give-up timers are due. *)
Definition scheduled_giveup (w : world) : list nat :=
  map due (filter (fun tm => match fires tm with
                             | GiveUp => true
                             | _ => false
                             end) (timers w)).

(** Is no observer connected and the handle empty? *)
Definition torn_down (w : world) : bool :=
  match activeObserver w, connected w with
  | None, [] => true
  | _, _ => false
  end.

(** Is [tm] a give-up timer? *)
Definition is_giveup (tm : timer) : bool :=
  match fires tm with
  | GiveUp => true
  | _ => false
  end.

(** Does [tm] run the check of the debounced function [c]? *)
Definition checks_for (c : nat) (tm : timer) : bool :=
  match fires tm with
  | LaterClear c' | Later c' => Nat.eqb c' c
  | GiveUp => false
  end.

(** The scheduled checks of the debounced function [c]. *)
Definition pending_of (c : nat) (w : world) : list timer :=
  filter (checks_for c) (timers w).

(** The debounced function that an observer calls. *)
Definition closure_of (o : observer) : nat :=
  match notifies o with
  | IfChildList c | Always c => c
  end.

(** No check has run and nothing was done to the page between [w] and
    [w']; observers may have been disconnected and [timeout] variables
    assigned. *)
Definition same_page (w w' : world) : Prop :=
  checks w' = checks w /\ document w' = document w /\
  calls w' = calls w /\ console w' = console w /\
  incl (connected w') (connected w) /\
  map fst (closures w') = map fst (closures w).

(** Between [w] and [w'] give-up timers have fired, and nothing else has
    happened but the passing of time. *)
Definition giveups_fired (w w' : world) : Prop :=
  same_page w w' /\ closures w' = closures w /\
  (forall p, (forall tm, p tm = true -> is_giveup tm = false) ->
             filter p (timers w') = filter p (timers w)) /\
  (forall P : timer -> Prop, Forall P (timers w) -> Forall P (timers w')).

(** Every pending timer of [w] is a give-up timer or is not due yet. *)
Definition calm (w : world) : Prop :=
  Forall (fun tm => is_giveup tm = true \/ now w < due tm) (timers w).

(** The [timeout] variable of the debounced function [c] names its
    scheduled check, and there is at most one. *)
Definition tracked (c : nat) (w : world) : Prop :=
  (exists cl, nth_error (closures w) c = Some cl) /\
  (pending_of c w = [] \/
   exists tm, pending_of c w = [tm] /\ timeout_of c w = Some (timer_id tm)).

(** The check of the debounced function [c] is scheduled for the time
    [D], and no other check is scheduled. *)
Definition scheduled (later : nat -> callback) (c wait D : nat) (w : world)
  : Prop :=
  exists i,
    filter (fun tm => negb (is_giveup tm)) (timers w) =
    [mkTimer i D (later c)] /\
    nth_error (closures w) c = Some (wait, Some i).

End Loop.

(** [observeTable] of extension/content.js. *)
Module Extension.
Import Realigner Loop.

Definition observeTable (h : host) (w : world) : world :=
  let w1 := handleMutations h w in
  let (debouncedHandler, w2) := debounce 50 w1 in
  snd (observe (IfChildList debouncedHandler) w2).

(** [observeTable] on a page whose elements are described by [sections]:
    when the check at the start raises, nothing after it runs. *)
Definition observeTable_on (sections : Candidate.interface) (h : host)
           (w : world) : world :=
  match handleMutations_on sections h w with
  | (Thrown _, w1) => w1
  | (Ok _, w1) =>
      let (debouncedHandler, w2) := debounce 50 w1 in
      snd (observe (IfChildList debouncedHandler) w2)
  end.

End Extension.

(** [observeTable] of the variant that keeps the [activeObserver] handle. *)
Module Handle.
Import Realigner Loop.

Definition observeTable (h : host) (w : world) : world :=
  match activeObserver w with
  | Some _ => w
  | None =>
      let w1 := handleMutations h w in
      let (debouncedHandler, w2) := debounce 50 w1 in
      let (o, w3) := observe (Always debouncedHandler) w2 in
      let w4 := set_activeObserver (Some o) w3 in
      snd (setTimeout GiveUp 5000 w4)
  end.

End Handle.

(** What the page and the user do. *)
Module Script.
Import Dom Realigner Loop.

Inductive event : Type :=
| Mutations (batch : list mutation_type)
| Elapse (ms : nat)
| Render (doc : option node)  (* the page replaces the calendar *)
| StartExtension              (* [observeTable()] of extension/content.js *)
| StartHandle.                (* [observeTable()] of the other variant *)

Definition step (h : host) (w : world) (e : event) : world :=
  match e with
  | Mutations batch => deliver batch w
  | Elapse ms => elapse h ms w
  | Render doc => with_document doc w
  | StartExtension => turn (Extension.observeTable h) w
  | StartHandle => turn (Handle.observeTable h) w
  end.

Definition run (h : host) (es : list event) (w : world) : world :=
  fold_left (step h) es w.

(** A burst on the debounced function [c]: a first call, then a call
    after each of the gaps. *)
Fixpoint burst (h : host) (later : nat -> callback) (c : nat)
         (gaps : list nat) (w : world) : world :=
  match gaps with
  | [] => executedFunction later c w
  | g :: gaps' =>
      burst h later c gaps' (elapse h g (executedFunction later c w))
  end.

(** Closure [c] can be called: at most one timer is pending, and it is
    the one the closure's [timeout] names. *)
Definition ready (c wait : nat) (w : world) : Prop :=
  exists tmo,
    nth_error (closures w) c = Some (wait, tmo) /\
    (timers w = [] \/
     exists i d cb, timers w = [mkTimer i d cb] /\ tmo = Some i).

(** Closure [c] has scheduled its check, [wait] from now. *)
Definition armed (later : nat -> callback) (c wait : nat) (w : world)
  : Prop :=
  exists i,
    timers w = [mkTimer i (now w + wait) (later c)] /\
    nth_error (closures w) c = Some (wait, Some i).

End Script.
(** ** Counting rows and cells *)

Module Census.
Import Dom Realigner.

(** The cells of all rows of the body. *)
Definition total_cells (t : node) : nat :=
  list_sum (map (fun tr => List.length (cells tr)) (body_rows t)).

(** The list with its first [k] elements moved behind the others. *)
Definition rotate {A} (k : nat) (l : list A) : list A :=
  skipn k l ++ firstn k l.

(** Does a call record a completed [SetDataset]? *)
Definition is_marking (c : domcall * bool) : bool :=
  match c with
  | (SetDataset, true) => true
  | _ => false
  end.

End Census.
(** ** Start-up: [main] and the events of the browser *)

Module Browser.
Import Dom Realigner Loop.

(** Which of the two source files runs in the page. *)
Inductive script : Type :=
| ExtensionScript  (* extension/content.js *)
| HandleScript.    (* the variant with the [activeObserver] handle *)

Record browser : Type := mkBrowser {
  running : script;
  loop : world;
  (** [document.readyState === 'loading'] *)
  loading : bool;
  (** the value of [enableRealignment] in [storage.sync], if there is one *)
  stored : option bool;
  (** [main] listens for [DOMContentLoaded] *)
  deferred : bool;
  (** calls of [storage.sync.get] that have not called back yet *)
  pending_gets : nat;
  (** [observeTable] listens for [popstate] *)
  popstate_listener : bool
}.

Definition with_loop (w : world) (b : browser) : browser :=
  mkBrowser (running b) w (loading b) (stored b) (deferred b)
            (pending_gets b) (popstate_listener b).

(** [items.enableRealignment] as [storage.sync.get({enableRealignment:
    true}, ...)] hands it over: the stored value, or the default. *)
Definition items_enableRealignment (b : browser) : bool :=
  match stored b with
  | Some v => v
  | None => true
  end.

(** [main()]: the settings are asked for; the answer comes later. *)
Definition main (b : browser) : browser :=
  mkBrowser (running b) (loop b) (loading b) (stored b) (deferred b)
            (S (pending_gets b)) (popstate_listener b).

(** The function that [main] passes to [storage.sync.get]. *)
Definition on_items (h : host) (b : browser) : browser :=
  if items_enableRealignment b then
    match running b with
    | ExtensionScript => with_loop (Extension.observeTable h (loop b)) b
    | HandleScript =>
        mkBrowser (running b) (Handle.observeTable h (loop b)) (loading b)
                  (stored b) (deferred b) (pending_gets b) true
    end
  else b.

(** The last lines of the script: [main] now, or at [DOMContentLoaded]. *)
Definition load (b : browser) : browser :=
  if loading b
  then mkBrowser (running b) (loop b) (loading b) (stored b) true
                 (pending_gets b) (popstate_listener b)
  else main b.

(** The page as the script finds it. *)
Definition boot (sc : script) (is_loading : bool) (setting : option bool)
           (doc : option node) : browser :=
  load (mkBrowser sc (initial doc) is_loading setting false 0 false).

(** The end of a turn that took the browser from [before] to [after]:
    the observers connected at its start are given the records of its
    changes to the page. *)
Definition settle (before after : browser) : browser :=
  with_loop
    (deliver_to (connected (loop before))
                (records_since (List.length (Loop.calls (loop before)))
                               (loop after))
                (loop after))
    after.

Inductive event : Type :=
| DOMContentLoaded
| StorageAnswers
| Popstate
| Mutations (batch : list mutation_type)
| Elapse (ms : nat)
| Render (doc : option node).

Definition step (h : host) (b : browser) (e : event) : browser :=
  match e with
  | DOMContentLoaded =>
      if loading b then
        let b' := mkBrowser (running b) (loop b) false (stored b) false
                            (pending_gets b) (popstate_listener b) in
        if deferred b then main b' else b'
      else b
  | StorageAnswers =>
      match pending_gets b with
      | O => b
      | S n =>
          settle b
            (on_items h (mkBrowser (running b) (loop b) (loading b)
                                   (stored b) (deferred b) n
                                   (popstate_listener b)))
      end
  | Popstate =>
      if popstate_listener b
      then settle b (with_loop (Handle.observeTable h (loop b)) b)
      else b
  | Mutations batch => with_loop (deliver batch (loop b)) b
  | Elapse ms => with_loop (elapse h ms (loop b)) b
  | Render doc => with_loop (with_document doc (loop b)) b
  end.

Definition run (h : host) (es : list event) (b : browser) : browser :=
  fold_left (step h) es b.

(** Nothing of the script is at work in the page. *)
Definition idle (w : world) : Prop :=
  connected w = [] /\ activeObserver w = None /\ timers w = [] /\
  checks w = 0 /\ Loop.calls w = [] /\ Loop.console w = [].

(** The handle names the one connected observer, or is empty with none
    connected. *)
Definition handle_matches (l : list observer) (a : option nat) : Prop :=
  match a with
  | None => l = []
  | Some o => exists cb, l = [mkObserver o cb]
  end.

(** Is [e] a start of the variant without a handle? *)
Definition is_start_extension (e : Script.event) : bool :=
  match e with
  | Script.StartExtension => true
  | _ => false
  end.

Definition is_start_handle (e : Script.event) : bool :=
  match e with
  | Script.StartHandle => true
  | _ => false
  end.

(** Is [e] something the page does, not a start of the watcher? *)
Definition is_page_event (e : Script.event) : bool :=
  negb (is_start_extension e) && negb (is_start_handle e).

(** The document after the events: what the page rendered last. *)
Definition last_render (es : list Script.event) (doc : option node)
  : option node :=
  fold_left (fun d e => match e with
                        | Script.Render doc' => doc'
                        | _ => d
                        end) es doc.

Definition is_dom_ready (e : event) : bool :=
  match e with
  | DOMContentLoaded => true
  | _ => false
  end.

(** [observeTable] of the script that runs. *)
Definition observeTable_of (sc : script) (h : host) (w : world) : world :=
  match sc with
  | ExtensionScript => Extension.observeTable h w
  | HandleScript => Handle.observeTable h w
  end.

(** What can still become a connected observer of extension/content.js,
    and what already is one. *)
Definition budget (b : browser) : nat :=
  (if deferred b then 1 else 0) + pending_gets b +
  List.length (connected (loop b)).

End Browser.
(** ** Test data: the table of [tests/verify.js] *)

Module Fixture.
Import Dom Realigner.

Definition span (day style : string) : node :=
  Elem "span" [("aria-hidden", JsString.lit "true");
               ("style", JsString.lit style)]
       [Text (JsString.lit day)].

Definition row (day style : string) (data : nat) : node :=
  Elem "tr" []
       (Elem "td" [] [span day style] :: repeat (Elem "td" [] []) data).

Definition visible : string := "clip-path: None; position: absolute;".
Definition hidden : string := "clip-path: Circle(0); position: absolute;".

Definition createTestTable : node :=
  Elem "table" []
    [Elem "tbody" []
       [row "Sun" hidden 2; row "Mon" visible 2; row "Tue" visible 2;
        row "Wed" visible 2; row "Thu" visible 2; row "Fri" visible 2;
        row "Sat" visible 2]].

Definition fresh (t : node) : state := mkState t [] [].

Definition days : list string :=
  ["Sun"; "Mon"; "Tue"; "Wed"; "Thu"; "Fri"; "Sat"].

(** A table of the first [n] weekday rows, each with a label cell and
    two data cells. *)
Definition tableOfRows (n : nat) : node :=
  Elem "table" []
    [Elem "tbody" []
       (map (fun d => row d visible 2) (firstn n (days ++ days)))].

(** The test table with the rows of Sunday and Monday exchanged. *)
Definition mondayFirst : node :=
  Elem "table" []
    [Elem "tbody" []
       [row "Mon" visible 2; row "Sun" hidden 2; row "Tue" visible 2;
        row "Wed" visible 2; row "Thu" visible 2; row "Fri" visible 2;
        row "Sat" visible 2]].

(** The test table with a Sunday row of the label cell only. *)
Definition bareSunday : node :=
  Elem "table" []
    [Elem "tbody" []
       [row "Sun" hidden 0; row "Mon" visible 2; row "Tue" visible 2;
        row "Wed" visible 2; row "Thu" visible 2; row "Fri" visible 2;
        row "Sat" visible 2]].

(** The test table with the clip directive twice in the Sunday style. *)
Definition clippedTwice : string :=
  "clip-path: Circle(0); -webkit-clip-path: Circle(0);".

Definition twiceClipped : node :=
  Elem "table" []
    [Elem "tbody" []
       [row "Sun" clippedTwice 2; row "Mon" visible 2; row "Tue" visible 2;
        row "Wed" visible 2; row "Thu" visible 2; row "Fri" visible 2;
        row "Sat" visible 2]].

(** The test table with two rows labelled Sun. *)
Definition twoSundays : node :=
  Elem "table" []
    [Elem "tbody" []
       [row "Sun" hidden 2; row "Sun" visible 2; row "Tue" visible 2;
        row "Wed" visible 2; row "Thu" visible 2; row "Fri" visible 2;
        row "Sat" visible 2]].

(** The test table with a drawing in its caption that holds an element
    named tbody: [<table><caption><svg><tbody></tbody></svg></caption>
    <tbody>...</tbody></table>]. The elements below [svg] are not HTML
    elements; they are written with an [xmlns] attribute here. *)
Definition svgNamespace : jsstring := JsString.lit "http://www.w3.org/2000/svg".

Definition captionedTable : node :=
  Elem "table" []
    [Elem "caption" []
       [Elem "svg" [("xmlns", svgNamespace)]
          [Elem "tbody" [("xmlns", svgNamespace)] []]];
     Elem "tbody" []
       [row "Sun" hidden 2; row "Mon" visible 2; row "Tue" visible 2;
        row "Wed" visible 2; row "Thu" visible 2; row "Fri" visible 2;
        row "Sat" visible 2]].

Definition htmlSections : Candidate.interface :=
  fun n => is_tbody n && negb (hasAttribute "xmlns" n).

(** Hosts in which one DOM call raises. *)
Definition failingDelete : host :=
  fun c => match c with DeleteCell _ => true | _ => false end.

Definition failingAppend : host :=
  fun c => match c with AppendChild => true | _ => false end.

(** A page with the test table, and one without a calendar. *)
Definition profilePage : Loop.world := Loop.initial (Some createTestTable).
Definition otherPage : Loop.world := Loop.initial None.

(** A page whose calendar has a drawing with a tbody in its caption. *)
Definition captionedPage : Loop.world := Loop.initial (Some captionedTable).

(** The profile page with one debounced function and nothing pending. *)
Definition debounced : Loop.world := snd (Loop.debounce 50 profilePage).



(** The profile page in the variant with the handle, after a change of
    the page: the give-up timer and a check are pending. *)
Definition rearmed : Loop.world :=
  Script.run faultless [Script.StartHandle; Script.Mutations [Loop.childList]]
             profilePage.

End Fixture.


(** ** Facts about string replacement *)

Module JsStringFacts.
Import JsString.

Lemma eqb_eq (a b : t) : eqb a b = true <-> a = b.
Proof.
  revert b. induction a as [| x a IH]; intros [| y b]; simpl;
    try (split; [discriminate | discriminate]); [tauto |].
  rewrite andb_true_iff, N.eqb_eq, IH.
  split; [intros [-> ->]; reflexivity | intros [= -> ->]; auto].
Qed.

Lemma starts_with_prefix pat s :
  starts_with pat s = true -> s = pat ++ skipn (List.length pat) s.
Proof.
  revert s. induction pat as [| p pat IH]; intros s; simpl; [reflexivity |].
  destruct s as [| c s]; [discriminate |].
  rewrite andb_true_iff, N.eqb_eq. intros [-> H]. f_equal. now apply IH.
Qed.

(** Without an occurrence the string stays as it is. *)
Lemma replace_absent s pat rep :
  index_of s pat = None -> replace s pat rep = s.
Proof.
  induction s as [| c s IH]; simpl.
  - destruct (starts_with pat []); [discriminate | reflexivity].
  - destruct (starts_with pat (c :: s)); [discriminate |].
    destruct (index_of s pat); [discriminate |].
    intros _. now rewrite IH.
Qed.

(** With an occurrence, the text before the first one and the text after
    it are kept, and [rep] stands where it was. *)
Lemma replace_first_occurrence s pat rep i :
  index_of s pat = Some i ->
  replace s pat rep =
  firstn i s ++ rep ++ skipn (i + List.length pat) s.
Proof.
  revert i. induction s as [| c s IH]; intros i; simpl.
  - destruct (starts_with pat []); [| discriminate].
    intros [= <-]. reflexivity.
  - destruct (starts_with pat (c :: s)).
    + intros [= <-]. reflexivity.
    + destruct (index_of s pat) as [j |]; [| discriminate].
      intros [= <-]. simpl. f_equal. now apply IH.
Qed.

Lemma includes_index_of s pat :
  includes s pat = true <-> index_of s pat <> None.
Proof.
  induction s as [| c s IH]; simpl.
  - destruct (starts_with pat []); simpl; split; congruence.
  - destruct (starts_with pat (c :: s)); simpl; [split; congruence |].
    rewrite IH. destruct (index_of s pat); simpl; split; congruence.
Qed.

(** *** When the replacement removes the pattern *)

Lemma starts_with_cut pat l r0 rest other :
  ~ In r0 pat ->
  starts_with pat (l ++ r0 :: rest) = true ->
  starts_with pat (l ++ other) = true.
Proof.
  revert l. induction pat as [| p pat IH]; intros l Hn; [reflexivity |].
  destruct l as [| x l]; simpl.
  - rewrite andb_true_iff, N.eqb_eq. intros [-> _]. elim Hn. now left.
  - rewrite !andb_true_iff. intros [Hx H]. split; [exact Hx |].
    apply IH; [| exact H]. intros Hin. apply Hn. now right.
Qed.

Lemma includes_past l post p0 pat :
  ~ In p0 l ->
  includes (l ++ post) (p0 :: pat) = includes post (p0 :: pat).
Proof.
  induction l as [| x l IH]; intros Hn; [reflexivity |].
  cbn [app includes starts_with].
  destruct (N.eqb_spec p0 x) as [-> | Hne]; [elim Hn; now left |].
  cbn [andb orb]. apply IH. intros Hin. apply Hn. now right.
Qed.

(** If the first character of [rep] does not occur in [pat], and the
    first character of [pat] does not occur in the rest of [rep], the
    replacement creates no new occurrence: when [pat] occurs once, it does
    not occur in the result. *)
Lemma replace_single_occurrence s p0 pat r0 rep i :
  ~ In r0 (p0 :: pat) -> ~ In p0 rep ->
  index_of s (p0 :: pat) = Some i ->
  includes (skipn (i + List.length (p0 :: pat)) s) (p0 :: pat) = false ->
  includes (replace s (p0 :: pat) (r0 :: rep)) (p0 :: pat) = false.
Proof.
  intros Ha Hb. revert i.
  induction s as [| c s IH]; intros i; [discriminate |].
  cbn [index_of replace].
  destruct (starts_with (p0 :: pat) (c :: s)) eqn:Hsw.
  - intros [= <-] Hpost. cbn [Nat.add] in Hpost.
    change (r0 :: rep ++ skipn (List.length (p0 :: pat)) (c :: s))
      with ((r0 :: rep) ++ skipn (List.length (p0 :: pat)) (c :: s)).
    cbn [app includes starts_with].
    destruct (N.eqb_spec p0 r0) as [-> | _]; [elim Ha; now left |].
    cbn [andb orb]. now rewrite includes_past.
  - destruct (index_of s (p0 :: pat)) as [j |] eqn:Hj; [| discriminate].
    intros [= <-] Hpost.
    change (S j + List.length (p0 :: pat))
      with (S (j + List.length (p0 :: pat))) in Hpost.
    cbn [skipn] in Hpost.
    change (includes (c :: replace s (p0 :: pat) (r0 :: rep)) (p0 :: pat))
      with (starts_with (p0 :: pat)
              (c :: replace s (p0 :: pat) (r0 :: rep))
            || includes (replace s (p0 :: pat) (r0 :: rep)) (p0 :: pat)).
    rewrite (IH j eq_refl Hpost), orb_false_r.
    destruct (starts_with (p0 :: pat)
                (c :: replace s (p0 :: pat) (r0 :: rep))) eqn:Hnew;
      [| reflexivity].
    rewrite (replace_first_occurrence _ _ _ _ Hj) in Hnew.
    change (c :: firstn j s ++ (r0 :: rep) ++
              skipn (j + List.length (p0 :: pat)) s)
      with ((c :: firstn j s) ++
              r0 :: (rep ++ skipn (j + List.length (p0 :: pat)) s)) in Hnew.
    apply (starts_with_cut _ _ _ _ (skipn j s) Ha) in Hnew.
    cbn [app] in Hnew. rewrite firstn_skipn in Hnew. congruence.
Qed.

(** *** Trimming *)

Lemma trim_start_spaces a s :
  forallb is_space a = true -> trim_start (a ++ s) = trim_start s.
Proof.
  induction a as [| c a IH]; simpl; [reflexivity |].
  rewrite andb_true_iff. intros [-> H]. now apply IH.
Qed.

Lemma trim_start_solid c s :
  is_space c = false -> trim_start (c :: s) = c :: s.
Proof. simpl. now intros ->. Qed.

Lemma forallb_rev (f : N -> bool) l :
  forallb f l = true -> forallb f (rev l) = true.
Proof.
  rewrite !forallb_forall. intros H x Hx. apply H. now apply in_rev.
Qed.

(** X6. [trim] strips the white space around a text that itself begins
    and ends with other characters, and nothing else: a label with line
    breaks or blanks around its day name is read as the day name. *)
Theorem trim_surrounding_space (a b s : t) (c d : N) :
  forallb is_space a = true ->
  forallb is_space b = true ->
  hd_error s = Some c -> is_space c = false ->
  hd_error (rev s) = Some d -> is_space d = false ->
  trim (a ++ s ++ b) = s.
Proof.
  intros Ha Hb Hc Hcs Hd Hds. unfold trim, trim_end.
  rewrite (trim_start_spaces a _ Ha).
  destruct s as [| c' s']; [discriminate |].
  injection Hc as ->.
  change ((c :: s') ++ b) with (c :: (s' ++ b)).
  rewrite (trim_start_solid c _ Hcs).
  change (c :: (s' ++ b)) with ((c :: s') ++ b).
  rewrite rev_app_distr, (trim_start_spaces (rev b) _ (forallb_rev _ _ Hb)).
  destruct (rev (c :: s')) as [| d' r] eqn:Hr; [discriminate |].
  injection Hd as ->.
  rewrite (trim_start_solid d _ Hds), <- Hr.
  apply rev_involutive.
Qed.

Lemma trim_surrounding_space_witness :
  forallb is_space [10; 32; 32]%N = true /\
  forallb is_space [9; 160; 10]%N = true /\
  hd_error (lit "Sun") = Some 83%N /\ is_space 83 = false /\
  hd_error (rev (lit "Sun")) = Some 110%N /\ is_space 110 = false /\
  trim ([10; 32; 32]%N ++ lit "Sun" ++ [9; 160; 10]%N) = lit "Sun".
Proof.
  refine (conj eq_refl (conj eq_refl (conj eq_refl (conj eq_refl
            (conj eq_refl (conj eq_refl _)))))).
  exact (trim_surrounding_space [10; 32; 32]%N [9; 160; 10]%N (lit "Sun")
           83%N 110%N eq_refl eq_refl eq_refl eq_refl eq_refl eq_refl).
Defined.

End JsStringFacts.
(** ** Facts about the DOM model *)

Module DomFacts.
Import Dom.

Lemma find_first_elem p tag attrs kids :
  find_first p (Elem tag attrs kids) =
  if p (Elem tag attrs kids) then Some (Elem tag attrs kids)
  else find_in p kids.
Proof. reflexivity. Qed.

Lemma change_first_elem p f tag attrs kids :
  change_first p f (Elem tag attrs kids) =
  if p (Elem tag attrs kids) then f (Elem tag attrs kids)
  else Elem tag attrs (change_in p f kids).
Proof. reflexivity. Qed.

Lemma find_first_sound p n m : find_first p n = Some m -> p m = true.
Proof.
  revert m. induction n as [tag attrs kids IH | data] using node_forall_ind;
    intros m.
  - rewrite find_first_elem.
    destruct (p (Elem tag attrs kids)) eqn:E.
    + intros H; inversion H; subst; exact E.
    + clear E. induction IH as [| k l Hk _ IHl]; simpl; [discriminate |].
      destruct (find_first p k) eqn:Ek.
      * intros H; inversion H; subst. now apply Hk.
      * exact IHl.
  - simpl. destruct (p (Text data)) eqn:E; [| discriminate].
    intros H; inversion H; subst; exact E.
Qed.

Lemma find_in_sound p l m : find_in p l = Some m -> p m = true.
Proof.
  induction l as [| k l IH]; simpl; [discriminate |].
  destruct (find_first p k) eqn:Ek.
  - intros H; inversion H; subst. eapply find_first_sound; eauto.
  - exact IH.
Qed.

(** Only the selected object matters to a change. *)
Lemma change_first_ext p f g n m :
  find_first p n = Some m -> f m = g m ->
  change_first p f n = change_first p g n.
Proof.
  revert m. induction n as [tag attrs kids IH | data] using node_forall_ind;
    intros m.
  - rewrite find_first_elem, !change_first_elem.
    destruct (p (Elem tag attrs kids)) eqn:E.
    + intros H Hfg; inversion H; subst; exact Hfg.
    + intros H Hfg. f_equal. clear E.
      induction IH as [| k l Hk _ IHl]; simpl in *; [discriminate |].
      destruct (find_first p k) eqn:Ek.
      * inversion H; subst. now rewrite (Hk _ eq_refl Hfg).
      * f_equal. now apply IHl.
  - simpl. destruct (p (Text data)) eqn:E; [| discriminate].
    intros H Hfg; inversion H; subst; exact Hfg.
Qed.

Lemma change_in_ext p f g l m :
  find_in p l = Some m -> f m = g m ->
  change_in p f l = change_in p g l.
Proof.
  induction l as [| k l IH]; simpl; [discriminate |].
  destruct (find_first p k) eqn:Ek; intros H Hfg.
  - inversion H; subst. now rewrite (change_first_ext _ _ _ _ _ Ek Hfg).
  - f_equal. now apply IH.
Qed.

Lemma change_selected_ext p f g e m :
  querySelector p e = Some m -> f m = g m ->
  change_selected p f e = change_selected p g e.
Proof.
  unfold querySelector, change_selected.
  destruct e as [tag attrs kids | data]; simpl; [| discriminate].
  intros H Hfg. f_equal. eapply change_in_ext; eauto.
Qed.

Lemma shallow_has_tag name : shallow (has_tag name).
Proof. intros tag attrs kids kids'. reflexivity. Qed.

Lemma shallow_is_hidden_span : shallow is_hidden_span.
Proof. intros tag attrs kids kids'. reflexivity. Qed.

Section Change.
Variable p : node -> bool.
Hypothesis p_shallow : shallow p.

(** The changed object is what the selector returns afterwards, as
    long as it still matches. *)
Lemma find_first_change f n m :
  find_first p n = Some m -> p (f m) = true ->
  find_first p (change_first p f n) = Some (f m).
Proof.
  revert m.
  induction n as [tag attrs kids IH | data] using node_forall_ind;
    intros m.
  - rewrite find_first_elem, change_first_elem.
    destruct (p (Elem tag attrs kids)) eqn:E.
    + intros H Hf; inversion H; subst.
      destruct (f (Elem tag attrs kids)) as [t' a' k' | d'] eqn:Ef.
      * rewrite find_first_elem, Hf. reflexivity.
      * simpl. rewrite Hf. reflexivity.
    + intros H Hf.
      rewrite find_first_elem, (p_shallow tag attrs _ kids), E.
      clear E.
      induction IH as [| k l Hk _ IHl]; simpl in *; [discriminate |].
      destruct (find_first p k) eqn:Ek.
      * inversion H; subst. simpl. now rewrite (Hk _ eq_refl Hf).
      * simpl. rewrite Ek. now apply IHl.
  - simpl. destruct (p (Text data)) eqn:E; [| discriminate].
    intros H Hf; inversion H; subst.
    destruct (f (Text data)) as [t' a' k' | d'] eqn:Ef.
    + rewrite find_first_elem, Hf. reflexivity.
    + simpl. rewrite Hf. reflexivity.
Qed.

Lemma find_in_change f l m :
  find_in p l = Some m -> p (f m) = true ->
  find_in p (change_in p f l) = Some (f m).
Proof.
  induction l as [| k l IH]; simpl; [discriminate |].
  destruct (find_first p k) eqn:Ek; intros H Hf.
  - inversion H; subst. simpl.
    now rewrite (find_first_change _ _ _ Ek Hf).
  - simpl. rewrite Ek. now apply IH.
Qed.

Lemma change_in_none f l : find_in p l = None -> change_in p f l = l.
Proof.
  induction l as [| k l IH]; simpl; [reflexivity |].
  destruct (find_first p k); [discriminate |].
  intros H. now rewrite IH.
Qed.

(** Two changes of the same object are one change. *)
Lemma change_first_twice f g n m :
  find_first p n = Some m -> p (f m) = true ->
  change_first p g (change_first p f n) =
  change_first p (fun x => g (f x)) n.
Proof.
  revert m.
  induction n as [tag attrs kids IH | data] using node_forall_ind;
    intros m.
  - rewrite find_first_elem, !change_first_elem.
    destruct (p (Elem tag attrs kids)) eqn:E.
    + intros H Hf; inversion H; subst.
      destruct (f (Elem tag attrs kids)) as [t' a' k' | d'] eqn:Ef.
      * rewrite change_first_elem, Hf. reflexivity.
      * simpl. rewrite Hf. reflexivity.
    + intros H Hf.
      rewrite change_first_elem, (p_shallow tag attrs _ kids), E.
      f_equal. clear E.
      induction IH as [| k l Hk _ IHl]; simpl in *; [discriminate |].
      destruct (find_first p k) eqn:Ek.
      * inversion H; subst. simpl.
        rewrite (find_first_change _ _ _ Ek Hf).
        now rewrite (Hk _ eq_refl Hf).
      * simpl. rewrite Ek. f_equal. now apply IHl.
  - simpl. destruct (p (Text data)) eqn:E; [| discriminate].
    intros H Hf; inversion H; subst.
    destruct (f (Text data)) as [t' a' k' | d'] eqn:Ef.
    + rewrite change_first_elem, Hf. reflexivity.
    + simpl. rewrite Hf. reflexivity.
Qed.

Lemma change_in_twice f g l m :
  find_in p l = Some m -> p (f m) = true ->
  change_in p g (change_in p f l) = change_in p (fun x => g (f x)) l.
Proof.
  induction l as [| k l IH]; simpl; [discriminate |].
  destruct (find_first p k) eqn:Ek; intros H Hf.
  - inversion H; subst. simpl.
    rewrite (find_first_change _ _ _ Ek Hf).
    now rewrite (change_first_twice _ _ _ _ Ek Hf).
  - simpl. rewrite Ek. f_equal. now apply IH.
Qed.

Lemma querySelector_change f e m :
  querySelector p e = Some m -> p (f m) = true ->
  querySelector p (change_selected p f e) = Some (f m).
Proof.
  unfold querySelector, change_selected.
  destruct e as [tag attrs kids | data]; simpl; [| discriminate].
  apply find_in_change.
Qed.

Lemma change_selected_twice f g e m :
  querySelector p e = Some m -> p (f m) = true ->
  change_selected p g (change_selected p f e) =
  change_selected p (fun x => g (f x)) e.
Proof.
  unfold querySelector, change_selected.
  destruct e as [tag attrs kids | data]; simpl; [| discriminate].
  intros H Hf. f_equal. eapply change_in_twice; eauto.
Qed.

Lemma change_selected_none f e :
  querySelector p e = None -> change_selected p f e = e.
Proof.
  unfold querySelector, change_selected.
  destruct e as [tag attrs kids | data]; simpl; [| reflexivity].
  intros H. now rewrite change_in_none.
Qed.

End Change.

Lemma with_children_twice n kids kids' :
  with_children (with_children n kids) kids' = with_children n kids'.
Proof. destruct n; reflexivity. Qed.

Lemma children_with_children n kids :
  tag_of n <> None -> children (with_children n kids) = kids.
Proof. destruct n; simpl; congruence. Qed.

Lemma has_tag_with_children name n kids :
  has_tag name (with_children n kids) = has_tag name n.
Proof. destruct n; reflexivity. Qed.

Lemma attributes_with_children n kids :
  attributes (with_children n kids) = attributes n.
Proof. destruct n; reflexivity. Qed.

Lemma has_tag_elem name n : has_tag name n = true -> tag_of n <> None.
Proof. destruct n; simpl; congruence. Qed.

Lemma attributes_change_selected p f e :
  attributes (change_selected p f e) = attributes e.
Proof. apply attributes_with_children. Qed.

End DomFacts.

(** ** Facts about rows and cells *)

Module TableFacts.
Import Dom DomFacts.

Lemma filter_remove_first p l :
  filter p (remove_first p l) = tl (filter p l).
Proof.
  induction l as [| x l IH]; simpl; [reflexivity |].
  destruct (p x) eqn:E; simpl; [reflexivity |].
  now rewrite E.
Qed.

Lemma filter_snoc p (l : list node) x :
  p x = true -> filter p (l ++ [x]) = filter p l ++ [x].
Proof. intros H. rewrite filter_app. simpl. now rewrite H. Qed.

Lemma existsb_snoc p (l : list node) x :
  p x = true -> existsb p (l ++ [x]) = true.
Proof. intros H. rewrite existsb_app. simpl. rewrite H. apply orb_true_r. Qed.

Lemma map_last_snoc p f l x :
  p x = true -> map_last p f (l ++ [x]) = l ++ [f x].
Proof.
  intros H. induction l as [| y l IH]; simpl.
  - now rewrite H.
  - rewrite (existsb_snoc p l x H). now rewrite IH.
Qed.

Lemma filter_remove_nth p i l :
  filter p (remove_nth p i l) = without i (filter p l).
Proof.
  revert i. induction l as [| x l IH]; intros i; simpl.
  - unfold without. now rewrite firstn_nil, skipn_nil.
  - destruct (p x) eqn:E.
    + destruct i as [| j]; simpl; [reflexivity |].
      rewrite E, IH. reflexivity.
    + simpl. rewrite E. apply IH.
Qed.

Lemma filter_map_first p f l :
  (forall x, p x = true -> p (f x) = true) ->
  filter p (map_first p f l) =
  match filter p l with
  | [] => []
  | x :: rest => f x :: rest
  end.
Proof.
  intros Hf. induction l as [| x l IH]; simpl; [reflexivity |].
  destruct (p x) eqn:E; simpl.
  - now rewrite (Hf x E).
  - now rewrite E.
Qed.

Lemma nth_error_last_snoc (l : list node) x :
  nth_error (l ++ [x]) (List.length (l ++ [x]) - 1) = Some x.
Proof.
  rewrite length_app. simpl.
  replace (List.length l + 1 - 1) with (List.length l) by lia.
  rewrite nth_error_app2 by lia.
  now rewrite Nat.sub_diag.
Qed.

Lemma is_cell_with_children n kids :
  is_cell (with_children n kids) = is_cell n.
Proof. unfold is_cell. now rewrite !has_tag_with_children. Qed.

Lemma rows_elem b : rows b <> [] -> tag_of b <> None.
Proof. destruct b; simpl; [congruence | intros H; now elim H]. Qed.

Lemma cells_elem r : cells r <> [] -> tag_of r <> None.
Proof. destruct r; simpl; [congruence | intros H; now elim H]. Qed.

Lemma rows_are_tr b r : In r (rows b) -> is_tr r = true.
Proof. unfold rows. intros H. now apply filter_In in H. Qed.

Lemma cells_are_cells r c : In c (cells r) -> is_cell c = true.
Proof. unfold cells. intros H. now apply filter_In in H. Qed.

(** Attribute updates *)

Lemma lookup_update_same name v attrs :
  lookup name (update name v attrs) = Some v.
Proof.
  induction attrs as [| [k w] rest IH]; simpl.
  - now rewrite String.eqb_refl.
  - destruct (String.eqb k name) eqn:E; simpl; now rewrite E.
Qed.

Lemma lookup_update_other name name' v attrs :
  name <> name' ->
  lookup name' (update name v attrs) = lookup name' attrs.
Proof.
  intros Hne. induction attrs as [| [k w] rest IH]; simpl.
  - destruct (String.eqb name name') eqn:E; [| reflexivity].
    apply String.eqb_eq in E. contradiction.
  - destruct (String.eqb k name) eqn:E; simpl.
    + apply String.eqb_eq in E. subst k.
      destruct (String.eqb name name') eqn:E'; [| reflexivity].
      apply String.eqb_eq in E'. contradiction.
    + now rewrite IH.
Qed.

Lemma textContent_setAttribute name v n :
  textContent (setAttribute name v n) = textContent n.
Proof. destruct n; reflexivity. Qed.

Lemma is_hidden_span_setAttribute_style v n :
  is_hidden_span (setAttribute "style" v n) = is_hidden_span n.
Proof.
  destruct n as [tag attrs kids | data]; [| reflexivity].
  unfold is_hidden_span, getAttribute. simpl.
  rewrite lookup_update_other; [reflexivity | discriminate].
Qed.

End TableFacts.

(** ** The run of the [try] block on a table that passes the guards *)

Module RunFacts.
Import Dom DomFacts TableFacts Realigner Steps.

Lemma tbody_of_is_tbody t b : tbody_of t = Some b -> is_tbody b = true.
Proof. unfold tbody_of, querySelector. apply find_in_sound. Qed.

Lemma tbody_on_tbody f t b :
  tbody_of t = Some b -> is_tbody (f b) = true ->
  tbody_of (on_tbody f t) = Some (f b).
Proof.
  unfold tbody_of, on_tbody. apply querySelector_change.
  apply shallow_has_tag.
Qed.

Lemma on_tbody_twice f g t b :
  tbody_of t = Some b -> is_tbody (f b) = true ->
  on_tbody g (on_tbody f t) = on_tbody (fun x => g (f x)) t.
Proof.
  unfold tbody_of, on_tbody. apply change_selected_twice.
  apply shallow_has_tag.
Qed.

Lemma on_tbody_ext f g t b :
  tbody_of t = Some b -> f b = g b -> on_tbody f t = on_tbody g t.
Proof. unfold tbody_of, on_tbody. apply change_selected_ext. Qed.

Lemma attributes_on_tbody f t : attributes (on_tbody f t) = attributes t.
Proof. apply attributes_change_selected. Qed.

Lemma corrected_on_tbody f t : corrected (on_tbody f t) = corrected t.
Proof. unfold corrected, getAttribute. now rewrite attributes_on_tbody. Qed.

Lemma is_tr_deleteCell i r : is_tr (deleteCell i r) = is_tr r.
Proof. apply has_tag_with_children. Qed.

Lemma is_tr_set_style v r : is_tr (set_style v r) = is_tr r.
Proof. apply has_tag_with_children. Qed.

Section Run.
Variables (t b r0 : node) (rest : list node).
Variables (c0 c1 : node) (cs : list node) (sp : node).
Hypothesis Hb : tbody_of t = Some b.
Hypothesis Hrows : rows b = r0 :: rest.
Hypothesis Hcells : cells r0 = c0 :: c1 :: cs.
Hypothesis Hsp : querySelector is_hidden_span c0 = Some sp.

Lemma b_elem : tag_of b <> None.
Proof. apply rows_elem. rewrite Hrows. discriminate. Qed.

Lemma r0_elem : tag_of r0 <> None.
Proof. apply cells_elem. rewrite Hcells. discriminate. Qed.

Lemma r0_tr : is_tr r0 = true.
Proof. apply (rows_are_tr b). rewrite Hrows. now left. Qed.

Lemma c0_cell : is_cell c0 = true.
Proof. apply (cells_are_cells r0). rewrite Hcells. now left. Qed.

Lemma is_tbody_body_with r : is_tbody (body_with b r) = true.
Proof.
  unfold body_with, is_tbody. rewrite has_tag_with_children.
  now apply tbody_of_is_tbody with (t := t).
Qed.

Lemma children_body_with r :
  children (body_with b r) = remove_first is_tr (children b) ++ [r].
Proof. apply children_with_children, b_elem. Qed.

Lemma rows_body_with r :
  is_tr r = true -> rows (body_with b r) = rest ++ [r].
Proof.
  intros Hr. unfold rows at 1. rewrite children_body_with.
  rewrite filter_snoc by exact Hr. rewrite filter_remove_first.
  fold (rows b). now rewrite Hrows.
Qed.

Lemma last_row_body_with r :
  is_tr r = true -> last_row (body_with b r) = Some r.
Proof.
  intros Hr. unfold last_row. rewrite (rows_body_with r Hr).
  apply nth_error_last_snoc.
Qed.

Lemma on_last_row_body_with f r :
  is_tr r = true -> on_last_row f (body_with b r) = body_with b (f r).
Proof.
  intros Hr. unfold on_last_row. rewrite children_body_with.
  unfold body_with. rewrite with_children_twice.
  now rewrite map_last_snoc.
Qed.

Lemma tbody_table_with r : tbody_of (table_with t b r) = Some (body_with b r).
Proof.
  unfold table_with.
  apply (tbody_on_tbody (fun _ => body_with b r) t b Hb).
  apply is_tbody_body_with.
Qed.

Lemma on_tbody_table_with g r :
  on_tbody g (table_with t b r) = on_tbody (fun _ => g (body_with b r)) t.
Proof.
  unfold table_with.
  apply (on_tbody_twice (fun _ => body_with b r) g t b Hb).
  apply is_tbody_body_with.
Qed.

Lemma appendFirstRow_eq : appendFirstRow b = body_with b r0.
Proof. unfold appendFirstRow. now rewrite Hrows. Qed.

(** The tables after steps 1 and 2. *)

Lemma moved_eq : moved t = table_with t b r0.
Proof.
  unfold moved, table_with. apply (on_tbody_ext _ _ t b Hb).
  apply appendFirstRow_eq.
Qed.

Lemma on_last_row_table_with f r :
  is_tr r = true ->
  on_tbody (on_last_row f) (table_with t b r) = table_with t b (f r).
Proof.
  intros Hr. rewrite on_tbody_table_with. unfold table_with.
  rewrite (on_last_row_body_with f r Hr). reflexivity.
Qed.

Lemma shifted_eq : shifted t = table_with t b (deleteCell 1 r0).
Proof.
  unfold shifted. rewrite moved_eq.
  apply on_last_row_table_with, r0_tr.
Qed.

Lemma cells_deleteCell : cells (deleteCell 1 r0) = c0 :: cs.
Proof.
  unfold cells at 1, deleteCell.
  rewrite (children_with_children r0) by apply r0_elem.
  rewrite filter_remove_nth. fold (cells r0). now rewrite Hcells.
Qed.

Lemma sun_label_eq : sun_label t = Some sp.
Proof.
  unfold sun_label. rewrite Hb, Hrows. simpl. rewrite Hcells. simpl.
  exact Hsp.
Qed.

Lemma sun_cells_eq : sun_cells t = S (S (List.length cs)).
Proof.
  unfold sun_cells. rewrite Hb, Hrows. simpl. now rewrite Hcells.
Qed.

Lemma sun_style_eq : sun_style t = getAttribute "style" sp.
Proof. unfold sun_style. now rewrite sun_label_eq. Qed.

Lemma sunday_row_eq :
  sunday_row r0 =
  match getAttribute "style" sp with
  | Some style => set_style (unhide style) (deleteCell 1 r0)
  | None => deleteCell 1 r0
  end.
Proof. unfold sunday_row. rewrite Hcells. simpl. now rewrite Hsp. Qed.

Lemma is_tr_sunday_row : is_tr (sunday_row r0) = true.
Proof.
  rewrite sunday_row_eq. destruct (getAttribute "style" sp).
  - rewrite is_tr_set_style, is_tr_deleteCell. apply r0_tr.
  - rewrite is_tr_deleteCell. apply r0_tr.
Qed.

Lemma unhidden_eq : unhidden t = table_with t b (sunday_row r0).
Proof.
  unfold unhidden. rewrite sun_style_eq, sunday_row_eq, shifted_eq.
  destruct (getAttribute "style" sp) as [style |]; [| reflexivity].
  apply on_last_row_table_with.
  rewrite is_tr_deleteCell. apply r0_tr.
Qed.

Lemma deleted_tr : is_tr (deleteCell 1 r0) = true.
Proof. rewrite is_tr_deleteCell. apply r0_tr. Qed.

Lemma shift_run h s :
  table s = table_with t b r0 ->
  shiftSundayData h s =
  if h (DeleteCell (S (S (List.length cs))))
  then (Thrown DOMException,
        mkState (table s) (console s)
                (calls s ++ [(DeleteCell (S (S (List.length cs))), false)]))
  else (Ok tt,
        mkState (table_with t b (deleteCell 1 r0)) (console s)
                (calls s ++ [(DeleteCell (S (S (List.length cs))), true)])).
Proof.
  intros Ht. unfold shiftSundayData, bind, get_table, defined, ret.
  rewrite Ht, tbody_table_with.
  rewrite (last_row_body_with r0 r0_tr).
  rewrite Hcells. cbn [List.length Nat.ltb Nat.leb].
  unfold call. cbv beta. rewrite ?Ht.
  destruct (h (DeleteCell (S (S (List.length cs))))); [reflexivity |].
  now rewrite (on_last_row_table_with _ r0 r0_tr).
Qed.

Lemma fix_run h s :
  table s = table_with t b (deleteCell 1 r0) ->
  fixSunLabel h s =
  match getAttribute "style" sp with
  | None => (Ok tt, s)
  | Some style =>
      if h SetAttribute
      then (Thrown DOMException,
            mkState (table s) (console s)
                    (calls s ++ [(SetAttribute, false)]))
      else (Ok tt,
            mkState (table_with t b (sunday_row r0)) (console s)
                    (calls s ++ [(SetAttribute, true)]))
  end.
Proof.
  intros Ht. unfold fixSunLabel, bind, get_table, defined, ret.
  rewrite Ht, tbody_table_with.
  rewrite (last_row_body_with _ deleted_tr).
  rewrite cells_deleteCell. cbn [nth_error].
  rewrite Hsp. unfold hasAttribute. rewrite sunday_row_eq.
  destruct (getAttribute "style" sp) as [style |]; [| reflexivity].
  unfold call. cbv beta. rewrite ?Ht.
  destruct (h SetAttribute); [reflexivity |].
  fold (set_style (unhide style)). unfold unhide.
  now rewrite (on_last_row_table_with _ _ deleted_tr).
Qed.

(** The [try] block does what its straight-line description says. *)
Lemma mutation_straight h s :
  table s = t -> mutation h s = straight h s.
Proof.
  intros Ht. unfold mutation, straight. rewrite Ht.
  rewrite sun_cells_eq, sun_style_eq.
  unfold bind at 1. unfold call at 1. rewrite Ht.
  destruct (h AppendChild); [reflexivity |].
  unfold bind at 1. rewrite shift_run by (simpl; apply moved_eq).
  simpl table. simpl console. simpl calls.
  change (on_tbody appendFirstRow t) with (moved t).
  destruct (h (DeleteCell (S (S (List.length cs))))).
  { rewrite <- app_assoc. reflexivity. }
  unfold bind at 1. rewrite fix_run by reflexivity.
  rewrite shifted_eq, unhidden_eq.
  unfold marked. rewrite unhidden_eq, sunday_row_eq.
  destruct (getAttribute "style" sp) as [style |].
  - simpl table. simpl console. simpl calls.
    destruct (h SetAttribute).
    { rewrite <- !app_assoc. reflexivity. }
    unfold call. simpl.
    destruct (h SetDataset); rewrite <- !app_assoc; reflexivity.
  - unfold call. simpl.
    destruct (h SetDataset); rewrite <- !app_assoc; reflexivity.
Qed.

End Run.

(** *** What the guards establish *)

Lemma guards_inv t :
  passes_guards t = true ->
  exists b r0 rest c0 c1 cs sp, guarded t b r0 rest c0 c1 cs sp.
Proof.
  unfold passes_guards, label_of. intros H.
  apply andb_prop in H. destruct H as [Hm H].
  apply negb_true_iff in Hm.
  destruct (tbody_of t) as [b |] eqn:Hb; [| discriminate].
  apply andb_prop in H. destruct H as [H7 H].
  apply Nat.eqb_eq in H7.
  destruct (rows b) as [| r0 rest] eqn:Hr; [discriminate |].
  cbn [nth_error] in H.
  apply andb_prop in H. destruct H as [H2 H].
  apply Nat.leb_le in H2.
  destruct (cells r0) as [| c0 [| c1 cs]] eqn:Hc;
    [simpl in H2; lia | simpl in H2; lia |].
  cbn [nth_error] in H.
  destruct (querySelector is_hidden_span c0) as [sp |] eqn:Hs;
    [| discriminate].
  exists b, r0, rest, c0, c1, cs, sp.
  constructor; auto; simpl in H7; lia.
Qed.

Lemma guards_fail_run h s :
  passes_guards (table s) = false -> startWeekOnMonday h s = (Ok tt, s).
Proof.
  unfold passes_guards, label_of, startWeekOnMonday, bind, get_table.
  destruct (corrected (table s)); [reflexivity |].
  destruct (tbody_of (table s)) as [b |]; [| reflexivity].
  destruct (Nat.eqb (List.length (rows b)) 7) eqn:H7; [| reflexivity].
  apply Nat.eqb_eq in H7.
  destruct (rows b) as [| r0 rest]; [discriminate |].
  cbn [negb andb nth_error defined ret].
  rewrite Nat.ltb_antisym.
  destruct (Nat.leb 2 (List.length (cells r0))) eqn:H2; [| reflexivity].
  apply Nat.leb_le in H2.
  destruct (cells r0) as [| c0 cs]; [simpl in H2; lia |].
  cbn [negb andb nth_error defined ret].
  destruct (querySelector is_hidden_span c0) as [sp |]; [| reflexivity].
  destruct (JsString.eqb _ _); [discriminate | reflexivity].
Qed.

Lemma guards_pass_run h s :
  passes_guards (table s) = true ->
  startWeekOnMonday h s =
  try_catch (mutation h) (console_error log_prefix) s.
Proof.
  intros H. destruct (guards_inv _ H) as (b & r0 & rest & c0 & c1 & cs & sp & G).
  destruct G.
  unfold startWeekOnMonday, bind, get_table.
  rewrite g_marker0, g_tbody0, g_rows0.
  cbn [List.length]. rewrite g_seven0.
  cbn [negb Nat.eqb nth_error defined ret].
  rewrite g_cells0. cbn [List.length Nat.ltb Nat.leb nth_error defined ret].
  now rewrite g_span0, g_sun0.
Qed.

(** The call on a table that passes the guards, in straight-line form. *)
Lemma run_straight h s :
  passes_guards (table s) = true ->
  startWeekOnMonday h s =
  match straight h s with
  | (Ok a, s') => (Ok a, s')
  | (Thrown e, s') => console_error log_prefix e s'
  end.
Proof.
  intros H. rewrite (guards_pass_run h s H). unfold try_catch.
  destruct (guards_inv _ H) as (b & r0 & rest & c0 & c1 & cs & sp & G).
  destruct G.
  now rewrite (mutation_straight (table s) b r0 rest c0 c1 cs sp).
Qed.

End RunFacts.

(** ** Properties of the realigner *)

Module RealignerProps.
Import Dom DomFacts TableFacts Realigner Steps RunFacts Fixture.

(** The state after a faultless run on a table that passes the guards. *)
Lemma after_faultless s :
  passes_guards (table s) = true ->
  after faultless s =
  mkState (marked (table s)) (console s)
    (calls s ++
     (match sun_style (table s) with
      | Some _ => [(AppendChild, true);
                   (DeleteCell (sun_cells (table s)), true);
                   (SetAttribute, true)]
      | None => [(AppendChild, true);
                 (DeleteCell (sun_cells (table s)), true)]
      end) ++ [(SetDataset, true)]).
Proof.
  intros H. unfold after. rewrite (run_straight _ _ H).
  unfold straight, faultless.
  destruct (sun_style (table s)); reflexivity.
Qed.

Lemma tbody_of_setAttribute name v t :
  tbody_of (setAttribute name v t) = tbody_of t.
Proof. destruct t; reflexivity. Qed.

Lemma body_rows_setAttribute name v t :
  body_rows (setAttribute name v t) = body_rows t.
Proof. unfold body_rows. now rewrite tbody_of_setAttribute. Qed.

Lemma tbody_of_elem t b : tbody_of t = Some b -> tag_of t <> None.
Proof. destruct t; simpl; [congruence | discriminate]. Qed.

Lemma tag_of_on_tbody f t : tag_of (on_tbody f t) = tag_of t.
Proof. destruct t; reflexivity. Qed.

Lemma corrected_setAttribute t :
  tag_of t <> None ->
  corrected (setAttribute marker (JsString.lit "true") t) = true.
Proof.
  destruct t as [tag attrs kids | data]; [intros _ | simpl; congruence].
  unfold corrected, getAttribute. simpl. now rewrite lookup_update_same.
Qed.

Lemma passes_guards_corrected t :
  corrected t = true -> passes_guards t = false.
Proof. unfold passes_guards. now intros ->. Qed.

Section Guarded.
Variables (t b r0 : node) (rest : list node).
Variables (c0 c1 : node) (cs : list node) (sp : node).
Hypothesis G : guarded t b r0 rest c0 c1 cs sp.

Let Hb := g_tbody _ _ _ _ _ _ _ _ G.
Let Hrows := g_rows _ _ _ _ _ _ _ _ G.
Let Hcells := g_cells _ _ _ _ _ _ _ _ G.
Let Hsp := g_span _ _ _ _ _ _ _ _ G.

Lemma body_rows_before : body_rows t = r0 :: rest.
Proof. unfold body_rows. now rewrite Hb. Qed.

Lemma body_rows_table_with r :
  is_tr r = true -> body_rows (table_with t b r) = rest ++ [r].
Proof.
  intros Hr. unfold body_rows.
  erewrite tbody_table_with by eassumption.
  eapply rows_body_with; eassumption.
Qed.

Lemma marked_eq :
  marked t =
  setAttribute marker (JsString.lit "true")
               (table_with t b (sunday_row r0)).
Proof.
  unfold marked.
  erewrite unhidden_eq by eassumption. reflexivity.
Qed.

Lemma body_rows_marked : body_rows (marked t) = rest ++ [sunday_row r0].
Proof.
  rewrite marked_eq, body_rows_setAttribute.
  apply body_rows_table_with.
  eapply is_tr_sunday_row; eassumption.
Qed.

Lemma corrected_marked : corrected (marked t) = true.
Proof.
  rewrite marked_eq. apply corrected_setAttribute.
  unfold table_with. rewrite tag_of_on_tbody.
  eapply tbody_of_elem; eassumption.
Qed.

Lemma cells_sunday_row : cells (sunday_row r0) = sunday_label_cell c0 sp :: cs.
Proof.
  erewrite sunday_row_eq by eassumption.
  unfold sunday_label_cell.
  assert (Hd : cells (deleteCell 1 r0) = c0 :: cs)
    by (eapply cells_deleteCell; eassumption).
  destruct (getAttribute "style" sp) as [style |]; [| exact Hd].
  unfold set_style, on_first_cell, cells at 1.
  rewrite children_with_children.
  - rewrite filter_map_first.
    + fold (cells (deleteCell 1 r0)). now rewrite Hd.
    + intros x Hx. unfold change_selected.
      now rewrite is_cell_with_children.
  - unfold deleteCell. destruct r0; simpl; [discriminate |].
    simpl in Hcells. discriminate.
Qed.

Lemma span_sunday_label_cell :
  querySelector is_hidden_span (sunday_label_cell c0 sp) =
  Some match getAttribute "style" sp with
       | Some style => setAttribute "style" (unhide style) sp
       | None => sp
       end.
Proof.
  unfold sunday_label_cell.
  destruct (getAttribute "style" sp) as [style |]; [| exact Hsp].
  apply querySelector_change; [apply shallow_is_hidden_span | exact Hsp |].
  rewrite is_hidden_span_setAttribute_style.
  unfold querySelector in Hsp. now apply find_in_sound in Hsp.
Qed.

Lemma label_of_sunday_row : label_of (sunday_row r0) = label_of r0.
Proof.
  unfold label_of. rewrite cells_sunday_row, Hcells. cbn [nth_error].
  rewrite span_sunday_label_cell, Hsp.
  destruct (getAttribute "style" sp); [| reflexivity].
  now rewrite textContent_setAttribute.
Qed.

Lemma label_of_r0 : label_of r0 = Some (JsString.lit "Sun").
Proof.
  unfold label_of. rewrite Hcells. cbn [nth_error]. rewrite Hsp.
  f_equal. pose proof (g_sun _ _ _ _ _ _ _ _ G) as Hs.
  revert Hs. generalize (JsString.trim (textContent sp)).
  generalize (JsString.lit "Sun").
  intros x y. revert x.
  induction y as [| c y IH]; intros [| d x]; simpl; try discriminate.
  - reflexivity.
  - intros H. apply andb_prop in H. destruct H as [H1 H2].
    apply N.eqb_eq in H1. subst. f_equal. now apply IH.
Qed.

Lemma marker_style_sunday_row :
  marker_style (sunday_row r0) =
  option_map unhide (getAttribute "style" sp).
Proof.
  unfold marker_style. rewrite cells_sunday_row. cbn [nth_error].
  rewrite span_sunday_label_cell.
  destruct (getAttribute "style" sp) as [style |] eqn:E; [| exact E].
  unfold getAttribute. destruct sp; simpl; [| discriminate].
  now rewrite lookup_update_same.
Qed.

End Guarded.

Lemma table_after_faultless s :
  passes_guards (table s) = true ->
  table (after faultless s) = marked (table s).
Proof. intros H. now rewrite (after_faultless s H). Qed.

Lemma row_labels_rows t : row_labels t = map label_of (body_rows t).
Proof. unfold row_labels, body_rows. now destruct (tbody_of t). Qed.

(** C1. On every table that passes the four guards, the call moves row 0
    behind the six other rows, which keep their order, and the moved row
    is still labelled Sun; so a grid whose rows read Sun, Mon, ..., Sat
    reads Mon, Tue, Wed, Thu, Fri, Sat, Sun afterwards. *)
Theorem row_order_after_realignment (s : state) :
  passes_guards (table s) = true ->
  let t' := table (after faultless s) in
  body_rows t' =
    tl (body_rows (table s)) ++ [sunday_row (hd (Text []) (body_rows (table s)))]
  /\ row_labels t' = tl (row_labels (table s)) ++ [day "Sun"]
  /\ (row_labels (table s) = sunday_start -> row_labels t' = monday_start).
Proof.
  intros H t'. subst t'. rewrite (table_after_faultless s H).
  destruct (guards_inv _ H) as (b & r0 & rest & c0 & c1 & cs & sp & G).
  assert (Hrows : body_rows (marked (table s)) = rest ++ [sunday_row r0])
    by (eapply body_rows_marked; eassumption).
  assert (Hlabels : row_labels (marked (table s)) =
                    tl (row_labels (table s)) ++ [day "Sun"]).
  { rewrite !row_labels_rows, Hrows.
    erewrite body_rows_before by eassumption.
    rewrite map_app. cbn [map tl].
    erewrite label_of_sunday_row, label_of_r0 by eassumption.
    reflexivity. }
  split; [| split].
  - rewrite Hrows. erewrite body_rows_before by eassumption. reflexivity.
  - exact Hlabels.
  - intros Hsun. rewrite Hlabels, Hsun. reflexivity.
Qed.

Lemma row_order_after_realignment_witness :
  passes_guards (table (fresh createTestTable)) = true /\
  row_labels (table (after faultless (fresh createTestTable))) =
  monday_start.
Proof.
  split; [reflexivity |].
  apply (row_order_after_realignment (fresh createTestTable) eq_refl).
  reflexivity.
Defined.

(** Whatever the host does, a call deletes a cell only from a row of
    more than one cell. *)
Lemma deletions_guarded h s n ok :
  In (DeleteCell n, ok) (calls (after h s)) ->
  In (DeleteCell n, ok) (calls s) \/ 1 < n.
Proof.
  destruct (passes_guards (table s)) eqn:H.
  - unfold after. rewrite (run_straight _ _ H).
    destruct (guards_inv _ H) as (b & r0 & rest & c0 & c1 & cs & sp & G).
    assert (Hn : sun_cells (table s) = S (S (List.length cs))).
    { destruct G. eapply sun_cells_eq; eassumption. }
    unfold straight. rewrite Hn.
    destruct (h AppendChild);
      [| destruct (h (DeleteCell (S (S (List.length cs)))));
         [| destruct (sun_style (table s));
            [destruct (h SetAttribute) |]; destruct (h SetDataset)]];
      cbn [snd calls console_error]; rewrite ?in_app_iff;
      cbn [In]; intros Hin;
      repeat match goal with
             | Hx : _ \/ _ |- _ => destruct Hx
             | Hx : False |- _ => contradiction
             | Hx : (_, _) = (_, _) |- _ => inversion Hx; clear Hx; subst
             end; auto; right; lia.
  - unfold after. rewrite (guards_fail_run _ _ H). auto.
Qed.

(** C2. On every table that passes the four guards, the rows other than
    row 0 are the same nodes afterwards, the relocated row has lost
    exactly its cell 1 and keeps its label cell and its later cells, and
    no call ever deletes a cell from a row of one cell or none. *)
Theorem cell_counts_after_realignment (s : state) :
  passes_guards (table s) = true ->
  (exists firstRow others labelCell dropped data,
      body_rows (table s) = firstRow :: others /\
      cells firstRow = labelCell :: dropped :: data /\
      body_rows (table (after faultless s)) =
        others ++ [sunday_row firstRow] /\
      cells (sunday_row firstRow) =
        match sun_style (table s) with
        | Some style =>
            change_selected is_hidden_span
              (setAttribute "style" (unhide style)) labelCell
        | None => labelCell
        end :: data /\
      S (List.length (cells (sunday_row firstRow))) =
        List.length (cells firstRow) /\
      label_of (sunday_row firstRow) = label_of firstRow)
  /\ (forall h n ok,
        In (DeleteCell n, ok) (calls (after h s)) ->
        In (DeleteCell n, ok) (calls s) \/ 1 < n).
Proof.
  intros H. split; [| intros h n ok; apply deletions_guarded].
  rewrite (table_after_faultless s H).
  destruct (guards_inv _ H) as (b & r0 & rest & c0 & c1 & cs & sp & G).
  assert (Hc : cells (sunday_row r0) = sunday_label_cell c0 sp :: cs)
    by (eapply cells_sunday_row; eassumption).
  exists r0, rest, c0, c1, cs.
  split; [eapply body_rows_before; eassumption |].
  split; [now destruct G |].
  split; [eapply body_rows_marked; eassumption |].
  split; [| split].
  - rewrite Hc. unfold sunday_label_cell.
    destruct G. erewrite sun_style_eq by eassumption. reflexivity.
  - rewrite Hc. destruct G. rewrite g_cells0. reflexivity.
  - eapply label_of_sunday_row; eassumption.
Qed.

Lemma cell_counts_after_realignment_witness :
  passes_guards (table (fresh createTestTable)) = true /\
  exists firstRow others,
    body_rows (table (after faultless (fresh createTestTable))) =
      others ++ [sunday_row firstRow] /\
    S (List.length (cells (sunday_row firstRow))) =
      List.length (cells firstRow).
Proof.
  split; [reflexivity |].
  destruct (cell_counts_after_realignment (fresh createTestTable) eq_refl)
    as [(r & o & l & d & dt & _ & _ & H3 & _ & H5 & _) _].
  exists r, o. split; assumption.
Defined.

(** The checks of [tests/verify.js] on its table. *)
Example verify_js_passes :
  let t' := table (after faultless (fresh createTestTable)) in
  first_label t' = day "Mon" /\
  nth_error (row_labels t') 6 = Some (day "Sun") /\
  option_map (fun style => JsString.includes style (JsString.lit "Circle(0)"))
             (last_style t') = Some false /\
  option_map (fun r => List.length (cells r)) (nth_error (body_rows t') 6) =
  Some 2 /\
  corrected t' = true.
Proof. refine (conj _ (conj _ (conj _ (conj _ _)))); reflexivity. Qed.

(** *** Guards *)

Lemma first_label_guard t :
  first_label t <> day "Sun" -> passes_guards t = false.
Proof.
  intros Hl. destruct (passes_guards t) eqn:H; [| reflexivity].
  destruct (guards_inv _ H) as (b & r0 & rest & c0 & c1 & cs & sp & G).
  elim Hl. unfold first_label.
  erewrite body_rows_before by eassumption.
  eapply label_of_r0; eassumption.
Qed.

Lemma seven_rows_guard t : seven_rows t = false -> passes_guards t = false.
Proof.
  unfold seven_rows, passes_guards.
  destruct (tbody_of t); [| intros _; apply andb_false_r].
  intros ->. apply andb_false_r.
Qed.

Lemma sun_cells_guard t : sun_cells t < 2 -> passes_guards t = false.
Proof.
  intros Hc. destruct (passes_guards t) eqn:H; [| reflexivity].
  destruct (guards_inv _ H) as (b & r0 & rest & c0 & c1 & cs & sp & G).
  destruct G. erewrite sun_cells_eq in Hc by eassumption. lia.
Qed.

(** C3. A table whose body does not have exactly seven rows, or whose
    row 0 is not labelled Sun, or whose row 0 has fewer than two cells,
    is returned as it is: the call completes and the state (table with
    its marker, console, DOM calls) is the one before. *)
Theorem guard_correctness (h : host) (s : state) :
  seven_rows (table s) = false \/
  first_label (table s) <> day "Sun" \/
  sun_cells (table s) < 2 ->
  startWeekOnMonday h s = (Ok tt, s).
Proof.
  intros H. apply guards_fail_run.
  destruct H as [H | [H | H]].
  - now apply seven_rows_guard.
  - now apply first_label_guard.
  - now apply sun_cells_guard.
Qed.

Lemma guard_correctness_witness :
  (seven_rows (table (fresh (tableOfRows 6))) = false /\
   startWeekOnMonday faultless (fresh (tableOfRows 6)) =
   (Ok tt, fresh (tableOfRows 6))) /\
  (seven_rows (table (fresh (tableOfRows 8))) = false /\
   startWeekOnMonday faultless (fresh (tableOfRows 8)) =
   (Ok tt, fresh (tableOfRows 8))) /\
  (first_label (table (fresh mondayFirst)) <> day "Sun" /\
   startWeekOnMonday faultless (fresh mondayFirst) =
   (Ok tt, fresh mondayFirst)) /\
  (sun_cells (table (fresh bareSunday)) < 2 /\
   startWeekOnMonday faultless (fresh bareSunday) =
   (Ok tt, fresh bareSunday)).
Proof.
  assert (H6 : seven_rows (table (fresh (tableOfRows 6))) = false)
    by reflexivity.
  assert (H8 : seven_rows (table (fresh (tableOfRows 8))) = false)
    by reflexivity.
  assert (Hm : first_label (table (fresh mondayFirst)) <> day "Sun")
    by (vm_compute; discriminate).
  assert (Hb : sun_cells (table (fresh bareSunday)) < 2)
    by (vm_compute; lia).
  refine (conj (conj H6 _)
            (conj (conj H8 _) (conj (conj Hm _) (conj Hb _)))).
  - apply guard_correctness. left. exact H6.
  - apply guard_correctness. left. exact H8.
  - apply guard_correctness. right. left. exact Hm.
  - apply guard_correctness. right. right. exact Hb.
Defined.

(** *** Idempotence *)

Lemma after_corrected h s :
  corrected (table s) = true -> after h s = s.
Proof.
  intros H. unfold after.
  now rewrite (guards_fail_run h s (passes_guards_corrected _ H)).
Qed.

Lemma corrected_after_faultless s :
  passes_guards (table s) = true ->
  corrected (table (after faultless s)) = true.
Proof.
  intros H. rewrite (table_after_faultless s H).
  destruct (guards_inv _ H) as (b & r0 & rest & c0 & c1 & cs & sp & G).
  eapply corrected_marked; eassumption.
Qed.

(** C4. Two calls on the same table leave the state that one call
    leaves. A first call on a table that passes the guards sets the
    marker, and whenever the marker is set after a call, the next call
    returns the state as it found it. *)
Theorem realign_twice (s : state) :
  after faultless (after faultless s) = after faultless s
  /\ (passes_guards (table s) = true ->
      corrected (table (after faultless s)) = true)
  /\ (forall h1 h2,
        corrected (table (after h1 s)) = true ->
        after h2 (after h1 s) = after h1 s).
Proof.
  split; [| split].
  - destruct (passes_guards (table s)) eqn:H.
    + apply after_corrected. now apply corrected_after_faultless.
    + unfold after. rewrite (guards_fail_run faultless s H). simpl.
      now rewrite (guards_fail_run faultless s H).
  - apply corrected_after_faultless.
  - intros h1 h2. apply after_corrected.
Qed.

Lemma realign_twice_witness :
  passes_guards (table (fresh createTestTable)) = true /\
  corrected (table (after faultless (fresh createTestTable))) = true /\
  after failingDelete (after faultless (fresh createTestTable)) =
  after faultless (fresh createTestTable).
Proof.
  destruct (realign_twice (fresh createTestTable)) as (_ & H2 & H3).
  split; [reflexivity |].
  split; [exact (H2 eq_refl) |].
  exact (H3 faultless failingDelete (H2 eq_refl)).
Defined.

(** *** Exceptions *)

Lemma corrected_unhidden t : corrected (unhidden t) = corrected t.
Proof.
  unfold unhidden, shifted, moved.
  destruct (sun_style t); now rewrite !corrected_on_tbody.
Qed.

Lemma straight_thrown h s e s' :
  straight h s = (Thrown e, s') ->
  console s' = console s /\ corrected (table s') = corrected (table s).
Proof.
  unfold straight.
  destruct (h AppendChild);
    [| destruct (h (DeleteCell (sun_cells (table s))));
       [| destruct (match sun_style (table s) with
                    | Some _ => h SetAttribute
                    | None => false
                    end);
          [| destruct (h SetDataset)]]];
    intros H; inversion H; subst; clear H; cbn [console table];
    (split; [reflexivity |]);
    rewrite ?corrected_unhidden; unfold shifted, moved;
    now rewrite ?corrected_on_tbody.
Qed.

(** On a candidate whose sections are HTML table sections, a call never
    completes with an exception, whichever DOM calls raise. When the
    [try] block raises, the exception is printed with the prefix, the
    table stays as the block left it, and the marker is not set. *)
Theorem never_throws (h : host) (s : state) :
  fst (startWeekOnMonday h s) = Ok tt
  /\ (forall e s',
        passes_guards (table s) = true ->
        mutation h s = (Thrown e, s') ->
        after h s =
          mkState (table s') (console s ++ [(log_prefix, e)]) (calls s')
        /\ corrected (table (after h s)) = false).
Proof.
  split.
  - destruct (passes_guards (table s)) eqn:H.
    + rewrite (guards_pass_run h s H). unfold try_catch.
      destruct (mutation h s) as [[[] | e] s']; reflexivity.
    + now rewrite (guards_fail_run h s H).
  - intros e s' H Hm.
    assert (Hs : straight h s = (Thrown e, s')).
    { destruct (guards_inv _ H) as (b & r0 & rest & c0 & c1 & cs & sp & G).
      destruct G. erewrite <- mutation_straight by eauto. exact Hm. }
    destruct (straight_thrown _ _ _ _ Hs) as [Hc Hk].
    unfold after. rewrite (guards_pass_run h s H). unfold try_catch.
    rewrite Hm. unfold console_error. cbn [snd table]. rewrite Hc.
    split; [reflexivity |].
    rewrite Hk. destruct (guards_inv _ H) as (? & ? & ? & ? & ? & ? & ? & G).
    now destruct G.
Qed.

Lemma never_throws_witness :
  passes_guards (table (fresh createTestTable)) = true /\
  (exists s',
      mutation failingDelete (fresh createTestTable) =
      (Thrown DOMException, s') /\
      console (after failingDelete (fresh createTestTable)) =
      [(log_prefix, DOMException)]) /\
  corrected (table (after failingDelete (fresh createTestTable))) = false.
Proof.
  destruct (never_throws failingDelete (fresh createTestTable)) as [_ H].
  pose (s' := snd (mutation failingDelete (fresh createTestTable))).
  destruct (H DOMException s' eq_refl eq_refl) as [H1 H2].
  split; [reflexivity |]. split; [| exact H2].
  exists s'. split; [reflexivity |]. rewrite H1. reflexivity.
Defined.

(** On HTML table sections the guards read [tbody.rows] as before. *)
Lemma candidate_html sections h s :
  match tbody_of (table s) with
  | Some tbody => sections tbody = true
  | None => True
  end ->
  Candidate.startWeekOnMonday sections h s = startWeekOnMonday h s.
Proof.
  unfold Candidate.startWeekOnMonday, startWeekOnMonday, bind, get_table,
    Candidate.rows_of.
  destruct (corrected (table s)); [reflexivity |].
  destruct (tbody_of (table s)) as [b |]; [| reflexivity].
  intros ->. reflexivity.
Qed.

(** C6. The guards run outside the [try] block. When the first element
    that the selector [tbody] finds in an uncorrected candidate is not an
    HTML table section, reading [tbody.rows.length] raises a TypeError
    that the call does not catch: it completes with the exception,
    nothing is printed and the table is as it was. *)
Theorem guard_throws_on_foreign_tbody (sections : Candidate.interface)
        (h : host) (s : state) (tbody : node) :
  corrected (table s) = false ->
  tbody_of (table s) = Some tbody ->
  sections tbody = false ->
  Candidate.startWeekOnMonday sections h s = (Thrown TypeError, s).
Proof.
  intros Hc Hb Hs.
  unfold Candidate.startWeekOnMonday, bind, get_table, Candidate.rows_of.
  now rewrite Hc, Hb, Hs.
Qed.

Lemma guard_throws_on_foreign_tbody_witness :
  corrected (table (fresh captionedTable)) = false /\
  tbody_of (table (fresh captionedTable)) =
    Some (Elem "tbody" [("xmlns", svgNamespace)] []) /\
  htmlSections (Elem "tbody" [("xmlns", svgNamespace)] []) = false /\
  Candidate.startWeekOnMonday htmlSections faultless (fresh captionedTable) =
  (Thrown TypeError, fresh captionedTable).
Proof.
  refine (conj eq_refl (conj eq_refl (conj eq_refl _))).
  exact (guard_throws_on_foreign_tbody htmlSections faultless
           (fresh captionedTable) _ eq_refl eq_refl eq_refl).
Defined.

Lemma candidate_on_html h s :
  Candidate.startWeekOnMonday Candidate.html h s = startWeekOnMonday h s.
Proof. apply candidate_html. now destruct (tbody_of (table s)). Qed.

(** In every other case the call completes normally. *)
Lemma candidate_completes sections h s :
  match tbody_of (table s) with
  | Some tbody => sections tbody = true
  | None => True
  end ->
  fst (Candidate.startWeekOnMonday sections h s) = Ok tt.
Proof.
  intros H. rewrite (candidate_html sections h s H). apply never_throws.
Qed.

(** *** Retries *)

Lemma after_blocked h s :
  passes_guards (table s) = false -> after h s = s.
Proof. intros H. unfold after. now rewrite (guards_fail_run h s H). Qed.

Lemma run_all_blocked hs s :
  passes_guards (table s) = false -> run_all hs s = s.
Proof.
  intros H. induction hs as [| h hs IH]; [reflexivity |].
  simpl. now rewrite (after_blocked h s H).
Qed.

Lemma relocations_more t c cl l :
  relocations (mkState t c (cl ++ l)) =
  List.length (filter is_relocation cl) +
  List.length (filter is_relocation l).
Proof. unfold relocations. simpl. now rewrite filter_app, length_app. Qed.

Lemma blocked_table_with t b r0 rest c0 c1 cs sp r :
  guarded t b r0 rest c0 c1 cs sp ->
  second_label t <> day "Sun" ->
  is_tr r = true ->
  passes_guards (table_with t b r) = false.
Proof.
  intros G H2 Hr. apply first_label_guard.
  unfold first_label. erewrite body_rows_table_with by eassumption.
  unfold second_label in H2.
  erewrite body_rows_before in H2 by eassumption.
  destruct rest as [| r1 rest']; [destruct G; discriminate |].
  exact H2.
Qed.

(** One call on a table that passes the guards, when row 1 is not
    labelled Sun: either the move raised and the table is as before, or
    the row was moved and the table no longer passes the guards. *)
Lemma after_guarded h s :
  passes_guards (table s) = true ->
  second_label (table s) <> day "Sun" ->
  (table (after h s) = table s /\
   relocations (after h s) = relocations s) \/
  (passes_guards (table (after h s)) = false /\
   relocations (after h s) = relocations s + 1).
Proof.
  intros H H2. unfold after. rewrite (run_straight _ _ H).
  destruct (guards_inv _ H) as (b & r0 & rest & c0 & c1 & cs & sp & G).
  assert (Hr0 : is_tr r0 = true)
    by (destruct G; eapply r0_tr; eassumption).
  assert (Hmoved : passes_guards (moved (table s)) = false).
  { pose proof G as G'. destruct G. erewrite moved_eq by eassumption.
    eapply blocked_table_with; eassumption. }
  assert (Hshifted : passes_guards (shifted (table s)) = false).
  { pose proof G as G'. destruct G. erewrite shifted_eq by eassumption.
    eapply blocked_table_with; try eassumption.
    now rewrite is_tr_deleteCell. }
  assert (Hunhidden : passes_guards (unhidden (table s)) = false).
  { pose proof G as G'. destruct G. erewrite unhidden_eq by eassumption.
    eapply blocked_table_with; try eassumption.
    eapply is_tr_sunday_row; eassumption. }
  assert (Hmarked : passes_guards (marked (table s)) = false).
  { apply passes_guards_corrected. eapply corrected_marked; eassumption. }
  unfold straight.
  destruct (h AppendChild);
    [| destruct (h (DeleteCell (sun_cells (table s))));
       [| destruct (sun_style (table s));
          [destruct (h SetAttribute) |]; destruct (h SetDataset)]];
    cbn [snd console_error table calls];
    rewrite relocations_more; fold (relocations s);
    cbn [filter is_relocation app List.length];
    first [left; split; [reflexivity | lia]
          | right; split; [assumption | lia]].
Qed.

Lemma second_label_same s s' :
  table s' = table s ->
  second_label (table s') <> day "Sun" <->
  second_label (table s) <> day "Sun".
Proof. now intros ->. Qed.

Lemma relocations_bounded hs s :
  second_label (table s) <> day "Sun" ->
  relocations (run_all hs s) <= relocations s + 1.
Proof.
  revert s. induction hs as [| h hs IH]; intros s H2; simpl; [lia |].
  destruct (passes_guards (table s)) eqn:H.
  - destruct (after_guarded h s H H2) as [[Ht Hn] | [Hg Hn]].
    + rewrite <- Hn. apply IH. now rewrite Ht.
    + rewrite (run_all_blocked hs _ Hg). lia.
  - rewrite (after_blocked h s H), (run_all_blocked hs _ H). lia.
Qed.

(** C10. Once row 0 is not labelled Sun, no sequence of calls changes
    the state. When row 1 is not labelled Sun, as in a grid of the seven
    weekdays, any sequence of calls, whichever DOM calls raise in each,
    moves a row at most once, and after the call that moved the row
    every further call leaves the state as it is, marker set or not. *)
Theorem at_most_one_relocation (hs : list host) (s : state) :
  (first_label (table s) <> day "Sun" -> run_all hs s = s)
  /\ (second_label (table s) <> day "Sun" ->
      relocations (run_all hs s) <= relocations s + 1
      /\ forall h,
          relocations (after h s) <> relocations s ->
          run_all hs (after h s) = after h s).
Proof.
  split.
  - intros H. apply run_all_blocked. now apply first_label_guard.
  - intros H2. split; [now apply relocations_bounded |].
    intros h Hn. apply run_all_blocked.
    destruct (passes_guards (table s)) eqn:H.
    + destruct (after_guarded h s H H2) as [[_ Hn'] | [Hg _]];
        [contradiction | exact Hg].
    + rewrite (after_blocked h s H) in Hn. now elim Hn.
Qed.

Lemma at_most_one_relocation_witness :
  second_label (table (fresh createTestTable)) <> day "Sun" /\
  corrected (table (after failingDelete (fresh createTestTable))) = false /\
  relocations (after failingDelete (fresh createTestTable)) = 1 /\
  relocations (run_all [failingDelete; faultless; faultless]
                       (fresh createTestTable)) <= 1 /\
  run_all [faultless; faultless]
          (after failingDelete (fresh createTestTable)) =
  after failingDelete (fresh createTestTable).
Proof.
  assert (H2 : second_label (table (fresh createTestTable)) <> day "Sun")
    by (vm_compute; discriminate).
  split; [exact H2 |]. split; [reflexivity |]. split; [reflexivity |].
  split.
  - apply (at_most_one_relocation [failingDelete; faultless; faultless]
             (fresh createTestTable)). exact H2.
  - apply (at_most_one_relocation [faultless; faultless]
             (fresh createTestTable)); [exact H2 |].
    vm_compute. discriminate.
Defined.

(** *** The style of the Sunday label *)

(** The style of the relocated label is the style it had, with the first
    occurrence of the clip directive replaced. *)
Lemma style_after_realignment s :
  passes_guards (table s) = true ->
  last_style (table (after faultless s)) =
  option_map unhide (sun_style (table s)).
Proof.
  intros H. rewrite (table_after_faultless s H).
  destruct (guards_inv _ H) as (b & r0 & rest & c0 & c1 & cs & sp & G).
  pose proof G as G'. destruct G.
  erewrite marked_eq by eassumption.
  unfold last_style. rewrite tbody_of_setAttribute.
  erewrite tbody_table_with by eassumption.
  erewrite last_row_body_with;
    try eassumption; try (eapply is_tr_sunday_row; eassumption).
  erewrite marker_style_sunday_row by eassumption.
  erewrite sun_style_eq by eassumption. reflexivity.
Qed.

(** C5. With the clip directive twice in the style of the Sunday label,
    the call replaces the first one only: the style of the relocated
    label still contains the directive. *)
Theorem second_clip_directive_remains :
  passes_guards twiceClipped = true /\
  sun_style twiceClipped = Some (JsString.lit clippedTwice) /\
  last_style (table (after faultless (fresh twiceClipped))) =
  Some (JsString.lit "clip-path: None; -webkit-clip-path: Circle(0);") /\
  JsString.includes
    (JsString.lit "clip-path: None; -webkit-clip-path: Circle(0);")
    (JsString.lit "Circle(0)") = true.
Proof. refine (conj _ (conj _ (conj _ _))); vm_compute; reflexivity. Qed.

End RealignerProps.

(** ** Properties of the watcher *)

Module WatcherProps.
Import Dom Realigner Loop Script Fixture.

(** *** Turns of the event loop *)

Lemma deliver_to_silent l batch w :
  filter is_childList batch = [] -> deliver_to l batch w = w.
Proof.
  intros H. unfold deliver_to. rewrite H.
  induction l as [| o l IH]; simpl; [reflexivity | exact IH].
Qed.

Lemma records_since_none w v :
  Loop.calls v = Loop.calls w ->
  records_since (List.length (Loop.calls w)) v = [].
Proof.
  intros H. unfold records_since. rewrite H, skipn_all. reflexivity.
Qed.

(** A turn that makes no DOM call is not followed by a notification. *)
Lemma turn_silent f w : Loop.calls (f w) = Loop.calls w -> turn f w = f w.
Proof.
  intros H. unfold turn. rewrite (records_since_none w (f w) H).
  now apply deliver_to_silent.
Qed.

Lemma turn_unobserved f w : connected w = [] -> turn f w = f w.
Proof. intros H. unfold turn. now rewrite H. Qed.

Lemma giveup_calls h w :
  Loop.calls (run_callback h GiveUp w) = Loop.calls w.
Proof. simpl. destruct (activeObserver w), (document w); reflexivity. Qed.

(** *** Timers *)

Lemma handleMutations_frame h w :
  let w' := handleMutations h w in
  now w' = now w /\ timers w' = timers w /\ next_timer w' = next_timer w /\
  closures w' = closures w /\ connected w' = connected w /\
  activeObserver w' = activeObserver w /\ checks w' = S (checks w).
Proof.
  unfold handleMutations. destruct (document w); simpl; repeat split.
Qed.

Lemma pick_due_none t l :
  Forall (fun tm => t < due tm) l -> pick_due t l = None.
Proof.
  induction 1 as [| tm l Htm _ IH]; simpl; [reflexivity |].
  destruct (Nat.leb_spec (due tm) t); [lia |]. now rewrite IH.
Qed.

(** Nothing happens while no timer is due. *)
Lemma elapse_quiet h g w :
  Forall (fun tm => now w + g < due tm) (timers w) ->
  elapse h g w = at_time (now w + g) w.
Proof.
  revert w. induction g as [| g IH]; intros w H; simpl.
  - rewrite Nat.add_0_r. now destruct w.
  - unfold tick.
    assert (Hq : fire h (List.length (timers w)) (at_time (S (now w)) w) =
                 at_time (S (now w)) w).
    { destruct (List.length (timers w)); [reflexivity |]. simpl.
      rewrite pick_due_none; [reflexivity |].
      eapply Forall_impl; [| exact H]. simpl. intros; lia. }
    rewrite Hq, IH.
    + unfold at_time. simpl. f_equal. lia.
    + simpl. eapply Forall_impl; [| exact H]. simpl. intros; lia.
Qed.

(** A single pending timer fires when its time has come. *)
Lemma elapse_single h g w i cb :
  timers w = [mkTimer i (now w + S g) cb] ->
  elapse h (S g) w =
  turn (run_callback h cb) (with_timers [] (at_time (now w + S g) w)).
Proof.
  intros Ht.
  replace (S g) with (g + 1) at 1 by lia.
  assert (Hsplit : forall a b v, elapse h (a + b) v = elapse h b (elapse h a v)).
  { induction a as [| a IH]; intros b v; simpl; [reflexivity | apply IH]. }
  rewrite Hsplit, (elapse_quiet h g w).
  - destruct w as [nw doc con cl tms nt cls conn no ao ck fd].
    simpl in Ht. subst tms.
    unfold at_time. cbn -[turn]. unfold tick, at_time. cbn -[turn].
    replace (S (nw + g)) with (nw + S g) by lia.
    rewrite Nat.leb_refl. reflexivity.
  - rewrite Ht. constructor; [simpl; lia | constructor].
Qed.

Lemma elapse_app h a b w :
  elapse h (a + b) w = elapse h b (elapse h a w).
Proof.
  revert w. induction a as [| a IH]; intros w; simpl; [reflexivity |].
  apply IH.
Qed.

Lemma pick_due_some t l d rest :
  pick_due t l = Some (d, rest) ->
  exists l1 l2, l = l1 ++ d :: l2 /\ rest = l1 ++ l2 /\ due d <= t.
Proof.
  revert d rest. induction l as [| tm l IH]; intros d rest; simpl;
    [discriminate |].
  destruct (Nat.leb_spec (due tm) t) as [Hd | Hd].
  - intros [= <- <-]. exists [], l. auto.
  - destruct (pick_due t l) as [[d' rest'] |]; [| discriminate].
    intros [= <- <-].
    destruct (IH _ _ eq_refl) as (l1 & l2 & -> & -> & Hle).
    exists (tm :: l1), l2. auto.
Qed.

Lemma pick_due_none_inv t l :
  pick_due t l = None -> Forall (fun tm => t < due tm) l.
Proof.
  induction l as [| tm l IH]; simpl; [constructor |].
  destruct (Nat.leb_spec (due tm) t) as [Hd | Hd]; [discriminate |].
  destruct (pick_due t l) as [[d rest] |]; [discriminate |].
  intros _. constructor; [exact Hd | now apply IH].
Qed.

(** *** Lists of timers *)

Lemma filter_swap {A} (p q : A -> bool) l :
  filter p (filter q l) = filter q (filter p l).
Proof.
  induction l as [| x l IH]; simpl; [reflexivity |].
  destruct (p x) eqn:Ep, (q x) eqn:Eq; simpl; rewrite ?Ep, ?Eq, IH;
    reflexivity.
Qed.

Lemma filter_implied {A} (p q : A -> bool) l :
  (forall x, p x = true -> q x = true) ->
  filter p (filter q l) = filter p l.
Proof.
  intros H. induction l as [| x l IH]; simpl; [reflexivity |].
  destruct (q x) eqn:Eq; simpl.
  - now rewrite IH.
  - destruct (p x) eqn:Ep; [| exact IH].
    apply H in Ep. congruence.
Qed.

Lemma filter_single {A} (p : A -> bool) l x :
  filter p l = [x] -> Forall (fun y => p y = false \/ y = x) l.
Proof.
  intros H. apply Forall_forall. intros y Hy.
  destruct (p y) eqn:Ep; [right | now left].
  assert (Hin : In y (filter p l)) by (apply filter_In; auto).
  rewrite H in Hin. destruct Hin as [<- | []]. reflexivity.
Qed.

Lemma filter_none {A} (p : A -> bool) l :
  Forall (fun y => p y = false) l -> filter p l = [].
Proof.
  induction 1 as [| x l Hx _ IH]; simpl; [reflexivity |].
  now rewrite Hx.
Qed.

Lemma filter_none_inv {A} (p : A -> bool) l :
  filter p l = [] -> Forall (fun y => p y = false) l.
Proof.
  induction l as [| x l IH]; simpl; [constructor |].
  destruct (p x) eqn:Ep; [discriminate |].
  intros H. constructor; auto.
Qed.

Lemma is_giveup_fires tm : is_giveup tm = true -> fires tm = GiveUp.
Proof. unfold is_giveup. now destruct (fires tm). Qed.

Lemma checks_for_pending c tm :
  checks_for c tm = true -> negb (is_giveup tm) = true.
Proof. unfold checks_for, is_giveup. now destruct (fires tm). Qed.

Lemma checks_for_not_giveup c tm :
  checks_for c tm = true -> is_giveup tm = false.
Proof. unfold checks_for, is_giveup. now destruct (fires tm). Qed.

(** *** Give-up timers between the checks *)

Lemma same_page_refl w : same_page w w.
Proof. unfold same_page. auto 8 using incl_refl. Qed.

Lemma same_page_trans a b c :
  same_page a b -> same_page b c -> same_page a c.
Proof.
  intros (H1 & H2 & H3 & H4 & H5 & H6) (G1 & G2 & G3 & G4 & G5 & G6).
  unfold same_page. repeat split; try congruence.
  eapply incl_tran; eassumption.
Qed.

Lemma giveups_fired_refl w : giveups_fired w w.
Proof. unfold giveups_fired. auto using same_page_refl. Qed.

Lemma giveups_fired_trans a b c :
  giveups_fired a b -> giveups_fired b c -> giveups_fired a c.
Proof.
  intros (H1 & H2 & H3 & H4) (G1 & G2 & G3 & G4).
  split; [eapply same_page_trans; eassumption |].
  split; [congruence |]. split.
  - intros p Hp. now rewrite (G3 p Hp), (H3 p Hp).
  - intros P HP. auto.
Qed.

Lemma giveups_fired_at_time t w : giveups_fired w (at_time t w).
Proof.
  unfold giveups_fired, same_page. simpl. auto 10 using incl_refl.
Qed.

(** A give-up timer that fires. *)
Lemma giveup_fired h w l1 d l2 :
  timers w = l1 ++ d :: l2 -> is_giveup d = true ->
  let u := run_callback h GiveUp (with_timers (l1 ++ l2) w) in
  giveups_fired w u /\ now u = now w /\ timers u = l1 ++ l2.
Proof.
  intros Ht Hd u.
  assert (Hu : now u = now w /\ timers u = l1 ++ l2 /\
               closures u = closures w /\ checks u = checks w /\
               document u = document w /\ Loop.calls u = Loop.calls w /\
               Loop.console u = Loop.console w /\
               incl (connected u) (connected w)).
  { subst u. simpl.
    destruct (activeObserver w) eqn:Ea, (document w) eqn:Ed; simpl;
      repeat split; auto using incl_refl, incl_filter. }
  destruct Hu as (Hn & Htu & Hcl & Hk & Hdoc & Hca & Hco & Hin).
  split; [| now split].
  split; [unfold same_page; rewrite Hcl; auto 10 |].
  split; [exact Hcl |]. rewrite Htu, Ht. split.
  - intros p Hp. rewrite !filter_app. simpl.
    destruct (p d) eqn:Ep; [| reflexivity].
    apply Hp in Ep. congruence.
  - intros P HP. apply Forall_app in HP. destruct HP as [HP1 HP2].
    apply Forall_app. split; [exact HP1 | now inversion HP2].
Qed.

(** Timers that are due fire; while only give-up timers are due, no
    check runs. *)
Lemma fire_giveups h fuel w :
  calm w ->
  giveups_fired w (fire h fuel w) /\ now (fire h fuel w) = now w.
Proof.
  revert w. induction fuel as [| fuel IH]; intros w H; simpl.
  { split; [apply giveups_fired_refl | reflexivity]. }
  destruct (pick_due (now w) (timers w)) as [[d rest] |] eqn:E.
  2: { split; [apply giveups_fired_refl | reflexivity]. }
  destruct (pick_due_some _ _ _ _ E) as (l1 & l2 & Hl & -> & Hd).
  assert (Hg : is_giveup d = true).
  { unfold calm in H. rewrite Hl in H. apply Forall_app in H.
    destruct H as [_ H]. inversion H as [| ? ? [Hx | Hx] _]; subst;
      [exact Hx | lia]. }
  rewrite (is_giveup_fires d Hg), turn_silent by apply giveup_calls.
  destruct (giveup_fired h w l1 d l2 Hl Hg) as (Hf & Hn & Ht).
  destruct (IH (run_callback h GiveUp (with_timers (l1 ++ l2) w)))
    as [Hf' Hn'].
  { unfold calm. rewrite Hn. destruct Hf as (_ & _ & _ & HP).
    apply HP. exact H. }
  split; [eapply giveups_fired_trans; eassumption | congruence].
Qed.

Lemma elapse_giveups h g w :
  Forall (fun tm => is_giveup tm = true \/ now w + g < due tm) (timers w) ->
  giveups_fired w (elapse h g w) /\ now (elapse h g w) = now w + g.
Proof.
  revert w. induction g as [| g IH]; intros w H; simpl.
  { rewrite Nat.add_0_r. split; [apply giveups_fired_refl | reflexivity]. }
  unfold tick.
  destruct (fire_giveups h (List.length (timers w)) (at_time (S (now w)) w))
    as [Hf Hn].
  { unfold calm. simpl. eapply Forall_impl; [| exact H].
    simpl. intros tm [Hx | Hx]; [now left | right; lia]. }
  destruct (IH (fire h (List.length (timers w)) (at_time (S (now w)) w)))
    as [He Hn'].
  { rewrite Hn. destruct Hf as (_ & _ & _ & HP). apply HP. simpl.
    eapply Forall_impl; [| exact H].
    simpl. intros tm [Hx | Hx]; [now left | right; lia]. }
  split.
  - eapply giveups_fired_trans; [| exact He].
    eapply giveups_fired_trans; [apply giveups_fired_at_time | exact Hf].
  - rewrite Hn', Hn. simpl. lia.
Qed.

(** *** The debounced function *)

Lemma nth_error_assign {A} (f : A -> A) (l : list A) c x :
  nth_error l c = Some x -> nth_error (assign c f l) c = Some (f x).
Proof.
  revert c. induction l as [| y l IH]; intros [| c]; simpl;
    try discriminate.
  - now intros [= ->].
  - apply IH.
Qed.

Lemma nth_error_assign_other {A} (f : A -> A) (l : list A) c c' :
  c' <> c -> nth_error (assign c' f l) c = nth_error l c.
Proof.
  revert c c'. induction l as [| y l IH]; intros [| c] [| c'] H; simpl;
    try reflexivity.
  - now elim H.
  - apply IH. congruence.
Qed.

Lemma map_fst_assign {A B} (g : A * B -> B) (l : list (A * B)) c :
  map fst (assign c (fun cl => (fst cl, g cl)) l) = map fst l.
Proof.
  revert c. induction l as [| y l IH]; intros [| c]; simpl;
    try reflexivity.
  now rewrite IH.
Qed.

Lemma wait_of_fst c a b :
  map fst (closures a) = map fst (closures b) -> wait_of c a = wait_of c b.
Proof.
  intros H. unfold wait_of.
  assert (Hn : nth_error (map fst (closures a)) c =
               nth_error (map fst (closures b)) c) by now rewrite H.
  rewrite !nth_error_map in Hn.
  destruct (nth_error (closures a) c) as [[x ?] |],
           (nth_error (closures b) c) as [[y ?] |]; simpl in Hn;
    congruence.
Qed.

Lemma clearTimeout_frame id w :
  now (clearTimeout id w) = now w /\
  closures (clearTimeout id w) = closures w /\
  next_timer (clearTimeout id w) = next_timer w /\
  checks (clearTimeout id w) = checks w /\
  document (clearTimeout id w) = document w /\
  Loop.calls (clearTimeout id w) = Loop.calls w /\
  Loop.console (clearTimeout id w) = Loop.console w /\
  connected (clearTimeout id w) = connected w /\
  incl (timers (clearTimeout id w)) (timers w).
Proof.
  destruct id; simpl; auto 10 using incl_refl, incl_filter.
Qed.

(** What a call of the debounced function [c] does to the timers and to
    the [timeout] variables. *)
Lemma executedFunction_eq later c w :
  let w' := executedFunction later c w in
  timers w' = timers (clearTimeout (timeout_of c w) w) ++
              [mkTimer (next_timer w) (now w + wait_of c w) (later c)] /\
  closures w' =
  assign c (fun cl => (fst cl, Some (next_timer w))) (closures w) /\
  now w' = now w /\ same_page w w'.
Proof.
  unfold executedFunction, setTimeout, set_timeout, with_closures.
  destruct (clearTimeout_frame (timeout_of c w) w)
    as (H1 & H2 & H3 & H4 & H5 & H6 & H7 & H8 & _).
  cbn [fst snd timers closures now]. rewrite H1, H2, H3.
  repeat split; cbn; try assumption.
  - rewrite H8. apply incl_refl.
  - apply map_fst_assign.
Qed.

Lemma executedFunction_arms later c wait w :
  ready c wait w ->
  armed later c wait (executedFunction later c w) /\
  checks (executedFunction later c w) = checks w.
Proof.
  intros (tmo & Hc & Ht).
  unfold executedFunction, wait_of, timeout_of. rewrite Hc.
  assert (Hclear : timers (clearTimeout tmo w) = []).
  { destruct Ht as [Ht | (i & d & cb & Ht & ->)].
    - destruct tmo; simpl; now rewrite ?Ht.
    - simpl. rewrite Ht. simpl. now rewrite Nat.eqb_refl. }
  assert (Hsame : now (clearTimeout tmo w) = now w /\
                  closures (clearTimeout tmo w) = closures w /\
                  checks (clearTimeout tmo w) = checks w).
  { destruct tmo; repeat split. }
  destruct Hsame as (Hn & Hcl & Hk).
  unfold setTimeout, set_timeout, armed. simpl.
  rewrite Hclear, Hn, Hcl, Hk. split; [| reflexivity].
  eexists. split; [reflexivity |].
  now rewrite (nth_error_assign _ _ _ _ Hc).
Qed.

Lemma armed_waits h later c wait g w :
  armed later c wait w -> g < wait ->
  ready c wait (elapse h g w) /\ checks (elapse h g w) = checks w.
Proof.
  intros (i & Ht & Hc) Hg.
  rewrite elapse_quiet.
  - split; [| reflexivity].
    exists (Some i). split; [exact Hc |].
    right. exists i, (now w + wait), (later c). now split.
  - rewrite Ht. constructor; [simpl; lia | constructor].
Qed.

Lemma burst_arms h later c wait gaps w :
  Forall (fun g => g < wait) gaps ->
  ready c wait w ->
  armed later c wait (burst h later c gaps w) /\
  checks (burst h later c gaps w) = checks w.
Proof.
  intros Hg. revert w.
  induction Hg as [| g gaps Hlt _ IH]; intros w Hr; simpl.
  - now apply executedFunction_arms.
  - destruct (executedFunction_arms later c wait w Hr) as [Ha Hk].
    destruct (armed_waits h later c wait g _ Ha Hlt) as [Hr' Hk'].
    destruct (IH _ Hr') as [Ha' Hk''].
    split; [exact Ha' |]. congruence.
Qed.

(** A call of the debounced function cancels the check that its
    [timeout] names and schedules a new one. *)
Lemma executedFunction_schedules later c wait tmo w :
  later = LaterClear \/ later = Later ->
  nth_error (closures w) c = Some (wait, tmo) ->
  Forall (fun tm => fires tm = GiveUp \/ tmo = Some (timer_id tm))
         (timers w) ->
  let w' := executedFunction later c w in
  scheduled later c wait (now w + wait) w' /\ same_page w w' /\
  now w' = now w.
Proof.
  intros Hl Hc Ht w'.
  destruct (executedFunction_eq later c w) as (Etm & Ecl & En & Hs).
  fold w' in Etm, Ecl, En, Hs.
  split; [| now split].
  exists (next_timer w). rewrite Etm, Ecl. split.
  - assert (Hw : wait_of c w = wait) by (unfold wait_of; now rewrite Hc).
    assert (Ho : timeout_of c w = tmo)
      by (unfold timeout_of; now rewrite Hc).
    rewrite Hw, Ho, filter_app.
    replace (filter (fun tm => negb (is_giveup tm))
                    (timers (clearTimeout tmo w))) with (@nil timer).
    + destruct Hl as [-> | ->]; reflexivity.
    + symmetry. apply filter_none.
      destruct tmo as [i |]; simpl.
      * apply Forall_forall. intros tm Hin. apply filter_In in Hin.
        destruct Hin as [Hin Hid].
        rewrite Forall_forall in Ht. destruct (Ht tm Hin) as [Hg | Hg].
        -- unfold is_giveup. now rewrite Hg.
        -- injection Hg as ->. now rewrite Nat.eqb_refl in Hid.
      * eapply Forall_impl; [| exact Ht]. simpl.
        intros tm [Hg | Hg]; [| discriminate].
        unfold is_giveup. now rewrite Hg.
  - now rewrite (nth_error_assign _ _ _ _ Hc).
Qed.

(** While the scheduled check is not due, only give-up timers fire. *)
Lemma scheduled_waits h later c wait D g w :
  scheduled later c wait D w -> now w + g < D ->
  scheduled later c wait D (elapse h g w) /\
  giveups_fired w (elapse h g w) /\ now (elapse h g w) = now w + g.
Proof.
  intros (i & Hp & Hc) Hg.
  destruct (elapse_giveups h g w) as [Hf Hn].
  { eapply Forall_impl; [| exact (filter_single _ _ _ Hp)]. simpl.
    intros tm [Hx | ->]; [left | right; simpl; lia].
    now apply negb_false_iff in Hx. }
  split; [| now split].
  destruct Hf as (_ & Hcl & Hq & _).
  exists i. rewrite Hcl, Hq; [now split |].
  intros tm Hx. now apply negb_true_iff in Hx.
Qed.

Lemma scheduled_named later c wait D w :
  scheduled later c wait D w ->
  exists i,
    nth_error (closures w) c = Some (wait, Some i) /\
    Forall (fun tm => fires tm = GiveUp \/ Some i = Some (timer_id tm))
           (timers w).
Proof.
  intros (i & Hp & Hc). exists i. split; [exact Hc |].
  eapply Forall_impl; [| exact (filter_single _ _ _ Hp)]. simpl.
  intros tm [Hx | ->]; [left | now right].
  apply negb_false_iff in Hx. now apply is_giveup_fires.
Qed.

Lemma burst_schedules h later c wait gaps :
  later = LaterClear \/ later = Later ->
  Forall (fun g => g < wait) gaps ->
  forall tmo w,
    nth_error (closures w) c = Some (wait, tmo) ->
    Forall (fun tm => fires tm = GiveUp \/ tmo = Some (timer_id tm))
           (timers w) ->
    let w' := burst h later c gaps w in
    scheduled later c wait (now w' + wait) w' /\ same_page w w'.
Proof.
  intros Hl Hg.
  induction Hg as [| g gaps Hlt _ IH]; intros tmo w Hc Ht; cbn [burst].
  - destruct (executedFunction_schedules later c wait tmo w Hl Hc Ht)
      as (Hs & Hp & Hn).
    rewrite Hn. now split.
  - destruct (executedFunction_schedules later c wait tmo w Hl Hc Ht)
      as (Hs & Hp & Hn).
    destruct (scheduled_waits h later c wait _ g _ Hs) as (Hs' & Hf & Hn');
      [lia |].
    destruct (scheduled_named _ _ _ _ _ Hs') as (i & Hc' & Ht').
    destruct (IH (Some i) _ Hc' Ht') as [Hs'' Hp''].
    split; [exact Hs'' |].
    eapply same_page_trans; [exact Hp |].
    eapply same_page_trans; [exact (proj1 Hf) | exact Hp''].
Qed.

(** *** What the check itself sets off *)

Lemma pending_of_giveups c w :
  Forall (fun tm => is_giveup tm = true) (timers w) -> pending_of c w = [].
Proof.
  intros H. apply filter_none. eapply Forall_impl; [| exact H]. simpl.
  intros tm Hg. destruct (checks_for c tm) eqn:E; [| reflexivity].
  apply checks_for_not_giveup in E. congruence.
Qed.

Lemma tracked_length c w : tracked c w -> List.length (pending_of c w) <= 1.
Proof.
  intros (_ & [-> | (tm & -> & _)]); simpl; lia.
Qed.

(** A call of any debounced function leaves at most one check of [c]
    scheduled. *)
Lemma executedFunction_tracked later c' c w :
  later = LaterClear \/ later = Later ->
  tracked c w -> tracked c (executedFunction later c' w).
Proof.
  intros Hl ([cl Hcl] & Hp).
  destruct (executedFunction_eq later c' w) as (Etm & Ecl & _ & _).
  unfold tracked, pending_of, timeout_of. rewrite Etm, Ecl, filter_app.
  assert (Hnew : filter (checks_for c)
                   [mkTimer (next_timer w) (now w + wait_of c' w)
                            (later c')] =
                 if Nat.eqb c' c
                 then [mkTimer (next_timer w) (now w + wait_of c' w)
                               (later c')]
                 else []).
  { destruct Hl as [-> | ->]; unfold checks_for; simpl;
      now destruct (Nat.eqb c' c). }
  rewrite Hnew.
  assert (Hclear :
            filter (checks_for c)
                   (timers (clearTimeout (timeout_of c' w) w)) = [] \/
            c' <> c /\
            exists tm,
              filter (checks_for c)
                     (timers (clearTimeout (timeout_of c' w) w)) = [tm] /\
              timeout_of c w = Some (timer_id tm)).
  { unfold pending_of in Hp.
    destruct (timeout_of c' w) as [i |] eqn:Eo; simpl.
    - rewrite filter_swap.
      destruct Hp as [-> | (tm & -> & Hn)]; [now left |]. simpl.
      destruct (Nat.eqb (timer_id tm) i) eqn:Ei; simpl; [now left |].
      right. split; [| now exists tm].
      intros ->. rewrite Hn in Eo. injection Eo as <-.
      now rewrite Nat.eqb_refl in Ei.
    - destruct Hp as [-> | (tm & -> & Hn)]; [now left |].
      right. split; [| now exists tm].
      intros ->. congruence. }
  destruct (Nat.eqb_spec c' c) as [-> | Hne].
  - split; [rewrite (nth_error_assign _ _ _ _ Hcl); eauto |].
    destruct Hclear as [-> | (Hne & _)]; [| now elim Hne].
    right. eexists. split; [reflexivity |].
    rewrite (nth_error_assign _ _ _ _ Hcl). reflexivity.
  - rewrite (nth_error_assign_other _ _ _ _ Hne), app_nil_r.
    split; [eauto |].
    destruct Hclear as [-> | (_ & tm & -> & Hn)]; [now left |].
    right. exists tm. split; [reflexivity | exact Hn].
Qed.

(** A debounced function that waits schedules nothing that is due. *)
Lemma executedFunction_calm later c' w :
  0 < wait_of c' w -> calm w -> calm (executedFunction later c' w).
Proof.
  intros Hw Hc.
  destruct (executedFunction_eq later c' w) as (Etm & _ & En & _).
  unfold calm. rewrite Etm, En. apply Forall_app. split.
  - destruct (clearTimeout_frame (timeout_of c' w) w)
      as (_ & _ & _ & _ & _ & _ & _ & _ & Hin).
    eapply incl_Forall; eassumption.
  - constructor; [| constructor]. right. simpl. lia.
Qed.

Lemma notify_tracked records o c w :
  tracked c w -> calm w -> 0 < wait_of (closure_of o) w ->
  let w' := notify records o w in
  tracked c w' /\ calm w' /\ same_page w w' /\ now w' = now w.
Proof.
  intros Ht Hc Hw. unfold notify, closure_of in *.
  destruct (notifies o) as [c' | c'].
  - destruct (existsb is_childList records).
    + destruct (executedFunction_eq LaterClear c' w) as (_ & _ & En & Hs).
      split; [apply executedFunction_tracked; auto |].
      split; [now apply executedFunction_calm | now split].
    + split; [exact Ht |]. split; [exact Hc |].
      split; [apply same_page_refl | reflexivity].
  - destruct (executedFunction_eq Later c' w) as (_ & _ & En & Hs).
    split; [apply executedFunction_tracked; auto |].
    split; [now apply executedFunction_calm | now split].
Qed.

Lemma deliver_to_tracked c batch l :
  forall w,
    tracked c w -> calm w ->
    Forall (fun o => 0 < wait_of (closure_of o) w) l ->
    let w' := deliver_to l batch w in
    tracked c w' /\ calm w' /\ same_page w w' /\ now w' = now w.
Proof.
  induction l as [| o l IH]; intros w Ht Hc Hw.
  { simpl. split; [exact Ht |]. split; [exact Hc |].
    split; [apply same_page_refl | reflexivity]. }
  inversion Hw as [| ? ? Ho Hl]; subst.
  change (deliver_to (o :: l) batch w)
    with (deliver_to l batch
            (match filter is_childList batch with
             | [] => w
             | m :: records => notify (m :: records) o w
             end)).
  set (w1 := match filter is_childList batch with
             | [] => w
             | m :: records => notify (m :: records) o w
             end).
  assert (H1 : tracked c w1 /\ calm w1 /\ same_page w w1 /\ now w1 = now w).
  { subst w1. destruct (filter is_childList batch) as [| m records].
    - split; [exact Ht |]. split; [exact Hc |].
      split; [apply same_page_refl | reflexivity].
    - now apply notify_tracked. }
  destruct H1 as (Ht1 & Hc1 & Hs1 & Hn1).
  destruct (IH w1 Ht1 Hc1) as (Ht2 & Hc2 & Hs2 & Hn2).
  { eapply Forall_impl; [| exact Hl]. simpl. intros o' Ho'.
    rewrite (wait_of_fst _ w1 w); [exact Ho' |].
    apply Hs1. }
  split; [exact Ht2 |]. split; [exact Hc2 |].
  split; [eapply same_page_trans; eassumption | congruence].
Qed.

Lemma handleMutations_calls h a b :
  document a = document b -> Loop.console a = Loop.console b ->
  Loop.calls a = Loop.calls b ->
  Loop.calls (handleMutations h a) = Loop.calls (handleMutations h b).
Proof.
  intros Hd Hco Hca. unfold handleMutations. rewrite Hd.
  destruct (document b); simpl; [| exact Hca]. now rewrite Hco, Hca.
Qed.

Lemma run_check h later c w :
  later = LaterClear \/ later = Later ->
  let y := run_callback h (later c) w in
  checks y = S (checks w) /\ now y = now w /\ closures y = closures w /\
  connected y = connected w /\ incl (timers y) (timers w) /\
  Loop.calls y =
  Loop.calls (handleMutations h w).
Proof.
  intros [-> | ->]; simpl.
  - destruct (clearTimeout_frame (timeout_of c w) w)
      as (H1 & H2 & _ & H4 & H5 & H6 & H7 & H8 & H9).
    destruct (handleMutations_frame h (clearTimeout (timeout_of c w) w))
      as (G1 & G2 & _ & G4 & G5 & _ & G7).
    rewrite G1, G2, G4, G5, G7, H1, H2, H4, H8.
    repeat split; try assumption.
    now apply handleMutations_calls.
  - destruct (handleMutations_frame h w) as (G1 & G2 & _ & G4 & G5 & _ & G7).
    rewrite G1, G2, G4, G5, G7. repeat split. apply incl_refl.
Qed.

(** The tick in which the scheduled check is due: the check runs once,
    whatever give-up timers are due with it, and what its own edits set
    off is not due in this tick. *)
Lemma fire_check h later c wait tc fuel :
  later = LaterClear \/ later = Later ->
  fires tc = later c ->
  forall u,
    filter (fun tm => negb (is_giveup tm)) (timers u) = [tc] ->
    due tc <= now u ->
    nth_error (closures u) c = Some (wait, Some (timer_id tc)) ->
    Forall (fun o => 0 < wait_of (closure_of o) u) (connected u) ->
    List.length (timers u) <= fuel ->
    let u' := fire h fuel u in
    checks u' = S (checks u) /\ now u' = now u /\ tracked c u' /\
    (connected u = [] \/
     Loop.calls (handleMutations h u) = Loop.calls u ->
     Forall (fun tm => is_giveup tm = true) (timers u')).
Proof.
  intros Hl Hf.
  induction fuel as [| fuel IH]; intros u Hp Hd Hc Hw Hlen.
  { destruct (timers u); [discriminate | simpl in Hlen; lia]. }
  assert (Hin : In tc (timers u)).
  { assert (H : In tc (filter (fun tm => negb (is_giveup tm)) (timers u)))
      by (rewrite Hp; now left).
    now apply filter_In in H. }
  cbn [fire].
  destruct (pick_due (now u) (timers u)) as [[d rest] |] eqn:E.
  2: { apply pick_due_none_inv in E. rewrite Forall_forall in E.
       specialize (E tc Hin). simpl in E. lia. }
  destruct (pick_due_some _ _ _ _ E) as (l1 & l2 & Hl12 & -> & Hdd).
  destruct (is_giveup d) eqn:Eg.
  - (* a give-up timer that is due runs first *)
    rewrite (is_giveup_fires d Eg), turn_silent by apply giveup_calls.
    destruct (giveup_fired h u l1 d l2 Hl12 Eg) as (Hgf & Hn & Ht).
    set (u1 := run_callback h GiveUp (with_timers (l1 ++ l2) u)) in *.
    destruct Hgf as (Hs & Hcl & Hq & _).
    destruct Hs as (Hk & Hdoc & Hca & Hco & Hinc & _).
    destruct (IH u1) as (K1 & K2 & K3 & K4).
    + rewrite Hq; [exact Hp |].
      intros tm Hx. now apply negb_true_iff in Hx.
    + now rewrite Hn.
    + now rewrite Hcl.
    + eapply incl_Forall; [exact Hinc |].
      eapply Forall_impl; [| exact Hw]. simpl. intros o Ho.
      rewrite (wait_of_fst _ u1 u); [exact Ho | now rewrite Hcl].
    + rewrite Ht. rewrite Hl12, length_app in Hlen. simpl in Hlen.
      rewrite length_app. lia.
    + split; [congruence |]. split; [congruence |]. split; [exact K3 |].
      intros [Hq' | Hq']; apply K4.
      * left. rewrite Hq' in Hinc. now apply incl_l_nil.
      * right. rewrite (handleMutations_calls h u1 u Hdoc Hco Hca).
        congruence.
  - (* the check itself *)
    assert (Hdtc : d = tc).
    { assert (H : In d (filter (fun tm => negb (is_giveup tm)) (timers u))).
      { apply filter_In. split; [rewrite Hl12; apply in_elt |].
        now rewrite Eg. }
      rewrite Hp in H. destruct H as [H | []]. now symmetry. }
    subst d.
    assert (Hrest : Forall (fun tm => is_giveup tm = true) (l1 ++ l2)).
    { rewrite Hl12, filter_app in Hp. simpl in Hp. rewrite Eg in Hp.
      simpl in Hp.
      destruct (filter (fun tm => negb (is_giveup tm)) l1) as [| x xs] eqn:E1.
      - simpl in Hp. injection Hp as Hp.
        apply Forall_app. split.
        + eapply Forall_impl; [| exact (filter_none_inv _ _ E1)].
          simpl. intros tm Hx. now apply negb_false_iff in Hx.
        + eapply Forall_impl; [| exact (filter_none_inv _ _ Hp)].
          simpl. intros tm Hx. now apply negb_false_iff in Hx.
      - simpl in Hp. injection Hp as _ Hp.
        apply app_eq_nil in Hp. destruct Hp as [_ Hp]. discriminate. }
    rewrite Hf.
    set (v := with_timers (l1 ++ l2) u).
    destruct (run_check h later c v Hl)
      as (Yk & Yn & Ycl & Ycon & Ytm & Yca).
    set (y := run_callback h (later c) v) in *.
    assert (Ygive : Forall (fun tm => is_giveup tm = true) (timers y))
      by (eapply incl_Forall; [exact Ytm | exact Hrest]).
    assert (Ytr : tracked c y).
    { split; [rewrite Ycl; simpl; eauto |].
      left. now apply pending_of_giveups. }
    assert (Ycalm : calm y).
    { eapply Forall_impl; [| exact Ygive]. simpl. now left. }
    unfold turn. fold y.
    destruct (deliver_to_tracked c
                (records_since (List.length (Loop.calls v)) y)
                (connected v) y Ytr Ycalm) as (Xt & Xc & Xs & Xn).
    { eapply Forall_impl; [| exact Hw]. simpl. intros o Ho.
      rewrite (wait_of_fst _ y u); [exact Ho | now rewrite Ycl]. }
    set (x := deliver_to (connected v)
                (records_since (List.length (Loop.calls v)) y) y) in *.
    destruct (fire_giveups h fuel x Xc) as [(Fs & Fcl & Fq & FP) Fn].
    split; [destruct Fs as (Fk & _); destruct Xs as (Xk & _);
            rewrite Fk, Xk, Yk; reflexivity |].
    split; [rewrite Fn, Xn, Yn; reflexivity |].
    split.
    + destruct Xt as (Xe & Xp). split; [now rewrite Fcl |].
      unfold pending_of, timeout_of in *.
      rewrite Fcl, Fq by apply checks_for_not_giveup. exact Xp.
    + intros Hq. apply FP.
      assert (Hxy : x = y).
      { subst x. destruct Hq as [Hq | Hq].
        - simpl. now rewrite Hq.
        - apply deliver_to_silent.
          rewrite records_since_none; [reflexivity |].
          rewrite Yca. simpl.
          rewrite <- Hq. now apply handleMutations_calls. }
      now rewrite Hxy.
Qed.

(** The scheduled check runs when it is due, and only then. *)
Lemma scheduled_fires h later c wait g w :
  later = LaterClear \/ later = Later ->
  scheduled later c wait (now w + S g) w ->
  Forall (fun o => 0 < wait_of (closure_of o) w) (connected w) ->
  let w' := elapse h (S g) w in
  checks w' = S (checks w) /\ tracked c w' /\
  (connected w = [] \/
   Loop.calls (handleMutations h w) = Loop.calls w ->
   Forall (fun tm => is_giveup tm = true) (timers w')).
Proof.
  intros Hl Hs Hw w'. subst w'.
  assert (E : elapse h (S g) w = elapse h 1 (elapse h g w))
    by (rewrite <- elapse_app; f_equal; lia).
  rewrite E. clear E.
  destruct (scheduled_waits h later c wait _ g w Hs) as (Hs' & Hf & Hn);
    [lia |].
  set (v := elapse h g w) in *.
  destruct Hs' as (i & Hp & Hc).
  destruct Hf as ((Hk & Hdoc & Hca & Hco & Hinc & _) & Hcl & _).
  change (elapse h 1 v)
    with (fire h (List.length (timers v)) (at_time (S (now v)) v)).
  destruct (fire_check h later c wait (mkTimer i (now w + S g) (later c))
              (List.length (timers v)) Hl eq_refl
              (at_time (S (now v)) v))
    as (K1 & K2 & K3 & K4).
  - exact Hp.
  - simpl. lia.
  - exact Hc.
  - simpl. eapply incl_Forall; [exact Hinc |].
    eapply Forall_impl; [| exact Hw]. simpl. intros o Ho.
    rewrite (wait_of_fst _ _ w); [exact Ho |]. simpl. now rewrite Hcl.
  - simpl. lia.
  - split; [simpl in K1; congruence |]. split; [exact K3 |].
    intros Hq. apply K4. simpl.
    destruct Hq as [Hq | Hq].
    + left. rewrite Hq in Hinc. now apply incl_l_nil.
    + right.
      rewrite (handleMutations_calls h (at_time (S (now v)) v) w);
        simpl; congruence.
Qed.

Lemma scheduled_pending later c wait D w :
  later = LaterClear \/ later = Later ->
  scheduled later c wait D w -> List.length (pending_of c w) = 1.
Proof.
  intros Hl (i & Hpend & _). unfold pending_of.
  rewrite <- (filter_implied (checks_for c)
                (fun tm => negb (is_giveup tm)))
    by apply checks_for_pending.
  rewrite Hpend. destruct Hl as [-> | ->]; unfold checks_for; simpl;
    now rewrite Nat.eqb_refl.
Qed.

(** C8. Calls of a debounced function, each less than [wait] after the
    one before, are answered by one check, however many they are. When
    the burst begins, give-up timers may be pending, and a check that
    the debounced function has scheduled before; the debounced functions
    that the connected observers call wait at least a millisecond (50 in
    both source files). From the last call until [wait] has passed no
    check has run and exactly one check is scheduled: every call has
    cancelled the check of the call before. When [wait] has passed after
    the last call, exactly one check has run. That check may change the
    page, and its changes reach the connected observers like any other,
    so that a new check can follow it; still at most one check of the
    debounced function is scheduled. When no observer is connected or
    the check makes no DOM call, it stays the only check and nothing
    stays scheduled. This holds for [later] of both source files. *)
Theorem debounce_coalesces (h : host) (later : nat -> callback)
        (c wait : nat) (tmo : option nat) (gaps : list nat) (w : world) :
  later = LaterClear \/ later = Later ->
  Forall (fun tm => fires tm = GiveUp \/ tmo = Some (timer_id tm))
         (timers w) ->
  nth_error (closures w) c = Some (wait, tmo) ->
  0 < wait ->
  Forall (fun o => 0 < wait_of (closure_of o) w) (connected w) ->
  Forall (fun g => g < wait) gaps ->
  let w' := burst h later c gaps w in
  (forall g, g < wait ->
     checks (elapse h g w') = checks w /\
     List.length (pending_of c (elapse h g w')) = 1)
  /\ checks (elapse h wait w') = checks w + 1
  /\ List.length (pending_of c (elapse h wait w')) <= 1
  /\ (connected w = [] \/
      Loop.calls (handleMutations h w) = Loop.calls w ->
      forall extra,
        checks (elapse h (wait + extra) w') = checks w + 1 /\
        pending_of c (elapse h (wait + extra) w') = []).
Proof.
  intros Hl Ht Hc Hwait Hw Hg w'.
  destruct (burst_schedules h later c wait gaps Hl Hg tmo w Hc Ht)
    as [Hs Hp].
  fold w' in Hs, Hp.
  destruct Hp as (Hk & Hdoc & Hca & Hco & Hinc & Hfst).
  split.
  { intros g Hlt.
    destruct (scheduled_waits h later c wait _ g w' Hs) as (Hs' & Hf & _);
      [lia |].
    destruct Hf as ((Hk' & _) & _).
    split; [congruence |].
    eapply scheduled_pending; eassumption. }
  destruct wait as [| g]; [lia |].
  destruct (scheduled_fires h later c (S g) g w' Hl Hs) as (K1 & K2 & K3).
  { eapply incl_Forall; [exact Hinc |].
    eapply Forall_impl; [| exact Hw]. simpl. intros o Ho.
    now rewrite (wait_of_fst _ w' w). }
  split; [rewrite K1, Hk; lia |].
  split; [now apply tracked_length |].
  intros Hq extra.
  assert (Hgive : Forall (fun tm => is_giveup tm = true)
                         (timers (elapse h (S g) w'))).
  { apply K3. destruct Hq as [Hq | Hq].
    - left. rewrite Hq in Hinc. now apply incl_l_nil.
    - right. rewrite (handleMutations_calls h w' w); congruence. }
  rewrite elapse_app.
  destruct (elapse_giveups h extra (elapse h (S g) w'))
    as [((Ek & _) & _ & _ & EP) _].
  { eapply Forall_impl; [| exact Hgive]. simpl. now left. }
  split; [rewrite Ek, K1, Hk; lia |].
  apply pending_of_giveups, EP, Hgive.
Qed.

Lemma debounce_coalesces_witness :
  Forall (fun tm => fires tm = GiveUp \/ Some 1 = Some (timer_id tm))
         (timers rearmed) /\
  nth_error (closures rearmed) 0 = Some (50, Some 1) /\
  0 < 50 /\
  Forall (fun o => 0 < wait_of (closure_of o) rearmed)
         (connected rearmed) /\
  Forall (fun g => g < 50) [10; 49; 0; 30] /\
  checks (elapse faultless 50
            (burst faultless Later 0 [10; 49; 0; 30] rearmed)) =
  checks rearmed + 1.
Proof.
  assert (Ht : Forall (fun tm => fires tm = GiveUp \/
                                 Some 1 = Some (timer_id tm))
                      (timers rearmed))
    by (repeat constructor).
  assert (Hw : Forall (fun o => 0 < wait_of (closure_of o) rearmed)
                      (connected rearmed))
    by (repeat constructor).
  assert (Hg : Forall (fun g => g < 50) [10; 49; 0; 30])
    by (repeat constructor; lia).
  assert (H50 : 0 < 50) by lia.
  split; [exact Ht |]. split; [reflexivity |]. split; [exact H50 |].
  split; [exact Hw |]. split; [exact Hg |].
  destruct (debounce_coalesces faultless Later 0 50 (Some 1)
              [10; 49; 0; 30] rearmed
              (or_intror eq_refl) Ht eq_refl H50 Hw Hg)
    as (_ & H & _).
  exact H.
Defined.

(** A batch with a [childList] record reaches the debounced function of
    the only connected observer; a batch without one reaches nothing. *)
Lemma deliver_relevant batch o c w :
  connected w = [mkObserver o (IfChildList c)] ->
  existsb is_childList batch = true ->
  deliver batch w = executedFunction LaterClear c w.
Proof.
  intros Hc Hb. unfold deliver.
  assert (Hf : existsb is_childList (filter is_childList batch) = true).
  { clear Hc. induction batch as [| m batch IH]; [discriminate |].
    simpl in *. destruct (is_childList m) eqn:E; simpl.
    - now rewrite E.
    - now apply IH. }
  destruct (filter is_childList batch) as [| m records] eqn:E;
    [discriminate |].
  rewrite Hc. simpl fold_left. unfold notify. cbn [notifies].
  now rewrite Hf.
Qed.

Lemma deliver_to_relevant batch o c w :
  existsb is_childList batch = true ->
  deliver_to [mkObserver o (IfChildList c)] batch w =
  executedFunction LaterClear c w.
Proof.
  intros Hb. unfold deliver_to.
  assert (Hf : existsb is_childList (filter is_childList batch) = true).
  { induction batch as [| m batch IH]; [discriminate |].
    simpl in *. destruct (is_childList m) eqn:E; simpl.
    - now rewrite E.
    - now apply IH. }
  destruct (filter is_childList batch) as [| m records] eqn:E;
    [discriminate |].
  simpl fold_left. unfold notify. cbn [notifies].
  now rewrite Hf.
Qed.

Lemma records_since_app w v edits :
  Loop.calls v = Loop.calls w ++ edits ->
  records_since (List.length (Loop.calls w)) v =
  map (fun c => record_of (fst c)) (filter snd edits).
Proof.
  intros H. unfold records_since.
  now rewrite H, skipn_app, skipn_all, Nat.sub_diag.
Qed.

Lemma deliver_irrelevant batch w :
  existsb is_childList batch = false -> deliver batch w = w.
Proof.
  intros Hb. unfold deliver.
  assert (Hf : filter is_childList batch = []).
  { induction batch as [| m batch IH]; [reflexivity |].
    simpl in *. destruct (is_childList m); [discriminate |]. now apply IH. }
  now rewrite Hf.
Qed.

(** *** Starting the watcher *)






(** *** Giving up *)

Lemma handle_start h doc :
  exists doc1 con cl fd,
    Handle.observeTable h (initial doc) =
    mkWorld 0 doc1 con cl [mkTimer 0 (0 + 5000) GiveUp] 1 [(50, None)]
            [mkObserver 0 (Always 0)] 1 (Some 0) 1 fd.
Proof.
  unfold Handle.observeTable, initial, handleMutations.
  cbn [activeObserver document].
  destruct doc; cbn -[Nat.add]; repeat eexists.
Qed.

(** The watcher with a handle, started on any page; the page renders
    [doc'] some time before the 5000 ms are over. The watcher is then
    torn down exactly when [doc'] has no calendar. *)
Lemma giveup_scenario h doc doc' a b :
  a + b = 5000 -> 0 < b ->
  torn_down (run h [StartHandle; Elapse a; Render doc'; Elapse b]
                 (initial doc)) =
  match doc' with
  | None => true
  | Some _ => false
  end.
Proof.
  unfold run. cbn [fold_left step].
  rewrite (turn_unobserved _ (initial doc)) by reflexivity.
  destruct (handle_start h doc) as (doc1 & con & cl & fd & ->).
  generalize 5000. intros D Hab Hb.
  rewrite (elapse_quiet h a)
    by (cbn [timers now]; constructor; [cbn [due]; lia | constructor]).
  destruct b as [| g]; [lia |].
  replace (0 + D) with (a + S g) by lia.
  erewrite elapse_single by reflexivity.
  rewrite turn_silent by apply giveup_calls.
  destruct doc'; reflexivity.
Qed.

Lemma giveup_tears_down h w o :
  activeObserver w = Some o -> document w = None ->
  activeObserver (run_callback h GiveUp w) = None /\
  ~ In o (map observer_id (connected (run_callback h GiveUp w))).
Proof.
  intros Ha Hd. simpl. rewrite Ha, Hd. simpl. split; [reflexivity |].
  rewrite in_map_iff. intros (x & Hx & Hin).
  apply filter_In in Hin. destruct Hin as [_ Hne].
  rewrite Hx, Nat.eqb_refl in Hne. discriminate.
Qed.

Lemma giveup_keeps h w :
  activeObserver w = None \/ document w <> None ->
  run_callback h GiveUp w = w.
Proof.
  intros H. simpl. destruct (activeObserver w); [| reflexivity].
  destruct (document w); [reflexivity |].
  destruct H as [H | H]; [discriminate | now elim H].
Qed.

Lemma giveup_scheduled h w :
  activeObserver w = None ->
  scheduled_giveup (Handle.observeTable h w) =
  scheduled_giveup w ++ [now w + 5000].
Proof.
  intros Ha. unfold Handle.observeTable. rewrite Ha.
  destruct (handleMutations_frame h w) as (Hn & Ht & _).
  unfold scheduled_giveup. cbn -[Nat.add].
  rewrite filter_app, map_app, Hn, Ht. reflexivity.
Qed.

(** C9. The give-up timer is due 5000 ms after the start that set the
    handle. When it fires, it disconnects the observer and empties the
    handle if the handle is set and the document holds no calendar at
    that moment, and it does nothing otherwise: what matters is the page
    at that time, not whether a calendar was found before. *)
Theorem giveup_checks_the_page_when_due (h : host) (w : world) :
  (activeObserver w = None ->
   scheduled_giveup (Handle.observeTable h w) =
   scheduled_giveup w ++ [now w + 5000])
  /\ (forall o,
        activeObserver w = Some o -> document w = None ->
        activeObserver (run_callback h GiveUp w) = None /\
        ~ In o (map observer_id (connected (run_callback h GiveUp w))))
  /\ (activeObserver w = None \/ document w <> None ->
      run_callback h GiveUp w = w)
  /\ (forall doc' a b,
        a + b = 5000 -> 0 < b ->
        torn_down (run h [StartHandle; Elapse a; Render doc'; Elapse b]
                       (initial (document w))) =
        match doc' with
        | None => true
        | Some _ => false
        end).
Proof.
  split; [apply giveup_scheduled |].
  split; [intros o; apply giveup_tears_down |].
  split; [apply giveup_keeps |].
  intros doc' a b. apply giveup_scenario.
Qed.

Lemma giveup_checks_the_page_when_due_witness :
  activeObserver profilePage = None /\
  scheduled_giveup (Handle.observeTable faultless profilePage) = [5000] /\
  70 + 4930 = 5000 /\ 0 < 4930 /\
  torn_down (run faultless
                 [StartHandle; Elapse 70; Render None; Elapse 4930]
                 (initial (document profilePage))) = true.
Proof.
  destruct (giveup_checks_the_page_when_due faultless profilePage)
    as (H1 & _ & _ & H4).
  assert (Hs : 70 + 4930 = 5000) by reflexivity.
  assert (Hp : 0 < 4930) by lia.
  split; [reflexivity |]. split; [exact (H1 eq_refl) |].
  split; [exact Hs |]. split; [exact Hp |].
  exact (H4 None 70 4930 Hs Hp).
Defined.

(** C9, as stated, fails both ways. A calendar that was found at the
    start and is gone when the timer fires does not keep the watcher;
    a calendar that appears just before the timer fires keeps it,
    although no check has found it yet. *)
Lemma giveup_ignores_earlier_finds :
  (found (run faultless
              [StartHandle; Elapse 70; Render None; Elapse 4930]
              profilePage) = 1 /\
   torn_down (run faultless
                  [StartHandle; Elapse 70; Render None; Elapse 4930]
                  profilePage) = true) /\
  (found (run faultless
              [StartHandle; Elapse 4990; Render (Some createTestTable);
               Mutations [childList]; Elapse 10]
              otherPage) = 0 /\
   now (run faultless
            [StartHandle; Elapse 4990; Render (Some createTestTable);
             Mutations [childList]; Elapse 10]
            otherPage) = 5000 /\
   torn_down (run faultless
                  [StartHandle; Elapse 4990; Render (Some createTestTable);
                   Mutations [childList]; Elapse 10]
                  otherPage) = false).
Proof.
  refine (conj (conj _ _) (conj _ (conj _ _))); vm_compute; reflexivity.
Qed.

End WatcherProps.
(** ** Further properties of the realigner *)

Module RealignerMore.
Import Dom DomFacts TableFacts Realigner Steps RunFacts RealignerProps.
Import Census Fixture JsStringFacts.

(** The table after a call on a table that passes the guards: where the
    [try] block stopped decides which. *)
Lemma table_after_guarded h s b r0 rest c0 c1 cs sp :
  guarded (table s) b r0 rest c0 c1 cs sp ->
  passes_guards (table s) = true ->
  (h AppendChild = true /\ table (after h s) = table s) \/
  (h AppendChild = false /\
   ((table (after h s) = table_with (table s) b r0 \/
     table (after h s) = table_with (table s) b (deleteCell 1 r0) \/
     table (after h s) = table_with (table s) b (sunday_row r0)) /\
    corrected (table (after h s)) = false
    \/ table (after h s) = marked (table s))).
Proof.
  intros G H. pose proof G as G'. destruct G.
  unfold after. rewrite (run_straight _ _ H). unfold straight.
  assert (Hm : corrected (moved (table s)) = false)
    by (unfold moved; now rewrite corrected_on_tbody).
  assert (Hs : corrected (shifted (table s)) = false)
    by (unfold shifted, moved; now rewrite !corrected_on_tbody).
  assert (Hu : corrected (unhidden (table s)) = false)
    by now rewrite corrected_unhidden.
  erewrite moved_eq in * by eassumption.
  erewrite shifted_eq in * by eassumption.
  erewrite unhidden_eq in * by eassumption.
  destruct (h AppendChild); [left; split; reflexivity | right].
  split; [reflexivity |].
  destruct (h (DeleteCell (sun_cells (table s))));
    [| destruct (sun_style (table s));
       [destruct (h SetAttribute) |]; destruct (h SetDataset)];
    cbn [snd console_error table]; auto 6.
Qed.

Lemma label_of_deleteCell r0 c0 c1 cs :
  cells r0 = c0 :: c1 :: cs -> label_of (deleteCell 1 r0) = label_of r0.
Proof.
  intros Hc. unfold label_of.
  erewrite cells_deleteCell by eassumption. now rewrite Hc.
Qed.

Lemma row_labels_table_with t b r0 rest c0 c1 cs sp r :
  guarded t b r0 rest c0 c1 cs sp ->
  is_tr r = true -> label_of r = label_of r0 ->
  row_labels (table_with t b r) = rotate 1 (row_labels t).
Proof.
  intros G Hr Hl. rewrite !row_labels_rows.
  erewrite body_rows_table_with, body_rows_before by eassumption.
  rewrite map_app. unfold rotate. cbn [map skipn firstn]. now rewrite Hl.
Qed.

(** X1. Whatever the table and whichever DOM calls raise, a call leaves
    the row labels as they were or rotated by one: no row is lost,
    doubled or relabelled, also when the [try] block stops half way. *)
Theorem rows_only_rotate (h : host) (s : state) :
  exists k,
    k <= 1 /\
    row_labels (table (after h s)) = rotate k (row_labels (table s)) /\
    List.length (body_rows (table (after h s))) =
    List.length (body_rows (table s)).
Proof.
  assert (Hlen : forall k,
             row_labels (table (after h s)) = rotate k (row_labels (table s)) ->
             List.length (body_rows (table (after h s))) =
             List.length (body_rows (table s))).
  { intros k Hk. apply (f_equal (@List.length _)) in Hk.
    rewrite !row_labels_rows in Hk. unfold rotate in Hk.
    rewrite skipn_map, firstn_map in Hk.
    rewrite length_app, !length_map, length_skipn, length_firstn in Hk.
    lia. }
  assert (H0 : forall l : list (option jsstring), l = rotate 0 l)
    by (intros l; unfold rotate; simpl; now rewrite app_nil_r).
  destruct (passes_guards (table s)) eqn:H.
  - destruct (guards_inv _ H) as (b & r0 & rest & c0 & c1 & cs & sp & G).
    assert (Hr0 : is_tr r0 = true) by (destruct G; eapply r0_tr; eassumption).
    assert (Hc : cells r0 = c0 :: c1 :: cs) by now destruct G.
    assert (Hsun : is_tr (sunday_row r0) = true)
      by (destruct G; eapply is_tr_sunday_row; eassumption).
    assert (Hrot : forall r, is_tr r = true -> label_of r = label_of r0 ->
                     table (after h s) = table_with (table s) b r ->
                     row_labels (table (after h s)) =
                     rotate 1 (row_labels (table s))).
    { intros r Hr Hl ->. eapply row_labels_table_with; eassumption. }
    destruct (table_after_guarded h s _ _ _ _ _ _ _ G H)
      as [[_ Ht] | [_ [[[Ht | [Ht | Ht]] _] | Ht]]].
    + exists 0. split; [lia |]. split; [rewrite Ht; apply H0 |].
      now rewrite Ht.
    + exists 1. split; [lia |].
      assert (Hk := Hrot r0 Hr0 eq_refl Ht). split; [exact Hk | eauto].
    + exists 1. split; [lia |].
      assert (Hk := Hrot (deleteCell 1 r0)
                      (eq_trans (is_tr_deleteCell 1 r0) Hr0)
                      (label_of_deleteCell r0 c0 c1 cs Hc) Ht).
      split; [exact Hk | eauto].
    + exists 1. split; [lia |].
      assert (Hl : label_of (sunday_row r0) = label_of r0)
        by (eapply label_of_sunday_row; eassumption).
      assert (Hk := Hrot (sunday_row r0) Hsun Hl Ht).
      split; [exact Hk | eauto].
    + exists 1. split; [lia |].
      assert (Hk : row_labels (table (after h s)) =
                   rotate 1 (row_labels (table s))).
      { rewrite Ht. erewrite marked_eq by eassumption.
        rewrite row_labels_rows, body_rows_setAttribute,
          <- row_labels_rows.
        eapply row_labels_table_with; try eassumption.
        eapply label_of_sunday_row; eassumption. }
      split; [exact Hk | eauto].
  - rewrite (after_blocked h s H). exists 0.
    split; [lia |]. split; [apply H0 | reflexivity].
Qed.

Lemma total_cells_table_with t b r0 rest c0 c1 cs sp r :
  guarded t b r0 rest c0 c1 cs sp ->
  is_tr r = true ->
  total_cells (table_with t b r) + List.length (cells r0) =
  total_cells t + List.length (cells r).
Proof.
  intros G Hr. unfold total_cells.
  erewrite body_rows_table_with, body_rows_before by eassumption.
  rewrite map_app, list_sum_app. simpl. lia.
Qed.

(** X2. Whatever the table and whichever DOM calls raise, a call removes
    at most one cell from the rows of the body. *)
Theorem at_most_one_cell_lost (h : host) (s : state) :
  total_cells (table (after h s)) <= total_cells (table s) /\
  total_cells (table s) <= S (total_cells (table (after h s))).
Proof.
  destruct (passes_guards (table s)) eqn:H;
    [| rewrite (after_blocked h s H); lia].
  destruct (guards_inv _ H) as (b & r0 & rest & c0 & c1 & cs & sp & G).
  assert (Hr0 : is_tr r0 = true) by (destruct G; eapply r0_tr; eassumption).
  assert (Hc : cells r0 = c0 :: c1 :: cs) by now destruct G.
  assert (Hd : cells (deleteCell 1 r0) = c0 :: cs)
    by (eapply cells_deleteCell; eassumption).
  assert (Hs : cells (sunday_row r0) = sunday_label_cell c0 sp :: cs)
    by (eapply cells_sunday_row; eassumption).
  assert (Hsun : is_tr (sunday_row r0) = true)
    by (destruct G; eapply is_tr_sunday_row; eassumption).
  pose proof (total_cells_table_with _ _ _ _ _ _ _ _ r0 G Hr0) as T0.
  pose proof (total_cells_table_with _ _ _ _ _ _ _ _ (deleteCell 1 r0) G
                (eq_trans (is_tr_deleteCell 1 r0) Hr0)) as T1.
  pose proof (total_cells_table_with _ _ _ _ _ _ _ _ (sunday_row r0) G Hsun)
    as T2.
  rewrite Hc in T0, T1, T2. rewrite Hd in T1. rewrite Hs in T2.
  cbn [List.length] in T0, T1, T2.
  assert (Tm : total_cells (marked (table s)) =
               total_cells (table_with (table s) b (sunday_row r0))).
  { erewrite marked_eq by eassumption. unfold total_cells.
    now rewrite body_rows_setAttribute. }
  destruct (table_after_guarded h s _ _ _ _ _ _ _ G H)
    as [[_ Ht] | [_ [[[Ht | [Ht | Ht]] _] | Ht]]];
    rewrite Ht, ?Tm; lia.
Qed.

(** X3. The marker is set by a call only on a table on which every step
    has been done: if the marker is set after a call and was not before,
    the table passed the guards and is now the fully realigned one. *)
Theorem marker_means_realigned (h : host) (s : state) :
  corrected (table s) = false ->
  corrected (table (after h s)) = true ->
  passes_guards (table s) = true /\
  table (after h s) = marked (table s) /\
  console (after h s) = console s.
Proof.
  intros Hb Ha.
  destruct (passes_guards (table s)) eqn:H;
    [| rewrite (after_blocked h s H) in Ha; congruence].
  split; [reflexivity |].
  unfold after in *. rewrite (run_straight _ _ H) in *.
  destruct (straight h s) as [[[] | e] s'] eqn:Hs.
  - revert Hs. unfold straight.
    destruct (h AppendChild);
      [| destruct (h (DeleteCell (sun_cells (table s))));
         [| destruct (match sun_style (table s) with
                      | Some _ => h SetAttribute
                      | None => false
                      end);
            [| destruct (h SetDataset)]]];
      intros [= <-]. split; reflexivity.
  - destruct (straight_thrown _ _ _ _ Hs) as [_ Hk].
    cbn [snd console_error table] in Ha. congruence.
Qed.

Lemma marker_means_realigned_witness :
  corrected (table (fresh createTestTable)) = false /\
  corrected (table (after faultless (fresh createTestTable))) = true /\
  table (after faultless (fresh createTestTable)) = marked createTestTable.
Proof.
  assert (Ha : corrected (table (after faultless (fresh createTestTable)))
               = true) by reflexivity.
  split; [reflexivity |]. split; [exact Ha |].
  exact (proj1 (proj2 (marker_means_realigned faultless
                         (fresh createTestTable) eq_refl Ha))).
Defined.

(** X4. When the move itself raises, nothing has been changed, and a
    later call in which no DOM call raises realigns the table. *)
Theorem retry_after_failed_move (h : host) (s : state) :
  passes_guards (table s) = true ->
  h AppendChild = true ->
  table (after h s) = table s /\
  corrected (table (after h s)) = false /\
  table (after faultless (after h s)) = marked (table s).
Proof.
  intros H Hh.
  assert (Ht : table (after h s) = table s).
  { unfold after. rewrite (run_straight _ _ H). unfold straight.
    now rewrite Hh. }
  split; [exact Ht |]. split.
  - rewrite Ht. destruct (guards_inv _ H) as (? & ? & ? & ? & ? & ? & ? & G).
    now destruct G.
  - rewrite table_after_faultless; rewrite Ht; [reflexivity | exact H].
Qed.

Lemma retry_after_failed_move_witness :
  passes_guards (table (fresh createTestTable)) = true /\
  failingAppend AppendChild = true /\
  row_labels (table (after faultless
                       (after failingAppend (fresh createTestTable)))) =
  monday_start.
Proof.
  split; [reflexivity |]. split; [reflexivity |].
  destruct (retry_after_failed_move failingAppend (fresh createTestTable)
              eq_refl eq_refl) as (_ & _ & H).
  rewrite H. reflexivity.
Defined.

Lemma attributes_unhidden t : attributes (unhidden t) = attributes t.
Proof.
  unfold unhidden, shifted, moved.
  destruct (sun_style t); now rewrite !attributes_on_tbody.
Qed.

(** X5. Of the attributes of the table element a call changes the marker
    only, whatever the table and whichever DOM calls raise. *)
Theorem table_attributes_kept (h : host) (s : state) (name : string) :
  name <> marker ->
  getAttribute name (table (after h s)) = getAttribute name (table s).
Proof.
  intros Hn.
  destruct (passes_guards (table s)) eqn:H;
    [| now rewrite (after_blocked h s H)].
  unfold after. rewrite (run_straight _ _ H). unfold straight.
  assert (Hmk : getAttribute name (marked (table s)) =
                getAttribute name (table s)).
  { unfold marked, getAttribute.
    rewrite <- (attributes_unhidden (table s)).
    destruct (unhidden (table s)) as [tag attrs kids | data];
      [| reflexivity].
    simpl. apply lookup_update_other. congruence. }
  destruct (h AppendChild);
    [| destruct (h (DeleteCell (sun_cells (table s))));
       [| destruct (sun_style (table s)) eqn:Es;
          [destruct (h SetAttribute) |]; destruct (h SetDataset)]];
    cbn [snd console_error table]; try reflexivity; try exact Hmk;
    unfold getAttribute;
    rewrite ?attributes_unhidden; unfold shifted, moved;
    now rewrite ?attributes_on_tbody.
Qed.

Lemma table_attributes_kept_witness :
  "class" <> marker /\
  getAttribute "class"
    (table (after faultless
              (fresh (setAttribute "class" (JsString.lit "grid")
                                   createTestTable)))) =
  Some (JsString.lit "grid").
Proof.
  assert (Hn : "class" <> marker) by discriminate.
  split; [exact Hn |].
  rewrite (table_attributes_kept faultless _ "class" Hn). reflexivity.
Defined.

(** X7. When the style of the Sunday label contains the clip directive
    once, the style of the relocated label no longer contains it, and
    is the old style with [None] in the place of the directive. *)
Theorem single_clip_directive_removed (s : state) (style : jsstring)
        (i : nat) :
  passes_guards (table s) = true ->
  sun_style (table s) = Some style ->
  JsString.index_of style (JsString.lit "Circle(0)") = Some i ->
  JsString.includes (skipn (i + 9) style) (JsString.lit "Circle(0)")
  = false ->
  exists style',
    last_style (table (after faultless s)) = Some style' /\
    style' = firstn i style ++ JsString.lit "None" ++ skipn (i + 9) style /\
    JsString.includes style' (JsString.lit "Circle(0)") = false.
Proof.
  intros H Hs Hi Hpost.
  exists (unhide style).
  split; [rewrite (style_after_realignment s H), Hs; reflexivity |].
  split; [exact (replace_first_occurrence _ _ _ _ Hi) |].
  unfold unhide.
  apply (replace_single_occurrence style 67%N
           (tl (JsString.lit "Circle(0)")) 78%N
           (tl (JsString.lit "None")) i); try assumption.
  - cbn. intuition discriminate.
  - cbn. intuition discriminate.
Qed.

Lemma single_clip_directive_removed_witness :
  passes_guards (table (fresh createTestTable)) = true /\
  sun_style (table (fresh createTestTable)) = Some (JsString.lit hidden) /\
  JsString.index_of (JsString.lit hidden) (JsString.lit "Circle(0)")
  = Some 11 /\
  exists style',
    last_style (table (after faultless (fresh createTestTable)))
    = Some style' /\
    JsString.includes style' (JsString.lit "Circle(0)") = false.
Proof.
  refine (conj eq_refl (conj eq_refl (conj eq_refl _))).
  destruct (single_clip_directive_removed (fresh createTestTable)
              (JsString.lit hidden) 11 eq_refl eq_refl eq_refl eq_refl)
    as (style' & H1 & _ & H3).
  exists style'. split; assumption.
Defined.

(** X8. When the Sunday label has no style attribute, or a style without
    the clip directive, the relocated label has the style it had: no
    attribute is added and no text is changed. *)
Theorem style_kept_without_directive (s : state) :
  passes_guards (table s) = true ->
  match sun_style (table s) with
  | None => True
  | Some style =>
      JsString.includes style (JsString.lit "Circle(0)") = false
  end ->
  last_style (table (after faultless s)) = sun_style (table s).
Proof.
  intros H Hs. rewrite (style_after_realignment s H).
  destruct (sun_style (table s)) as [style |]; [| reflexivity].
  simpl. f_equal. apply replace_absent.
  destruct (JsString.index_of style (JsString.lit "Circle(0)")) eqn:E;
    [| reflexivity].
  assert (Hin : JsString.includes style (JsString.lit "Circle(0)") = true)
    by (apply includes_index_of; congruence).
  congruence.
Qed.

Lemma style_kept_without_directive_witness :
  passes_guards (table (fresh (tableOfRows 7))) = true /\
  sun_style (table (fresh (tableOfRows 7))) = Some (JsString.lit visible) /\
  JsString.includes (JsString.lit visible) (JsString.lit "Circle(0)")
  = false /\
  last_style (table (after faultless (fresh (tableOfRows 7)))) =
  Some (JsString.lit visible).
Proof.
  assert (Hi : JsString.includes (JsString.lit visible)
                 (JsString.lit "Circle(0)") = false) by reflexivity.
  refine (conj eq_refl (conj eq_refl (conj Hi _))).
  exact (style_kept_without_directive (fresh (tableOfRows 7)) eq_refl Hi).
Defined.

End RealignerMore.
(** ** Further properties of the watcher *)

Module WatcherMore.
Import Dom Realigner Steps Loop Script Browser Fixture.
Import RealignerProps WatcherProps.

(** *** What the timers and the observers leave alone *)

Lemma executedFunction_frame later c w :
  let w' := executedFunction later c w in
  connected w' = connected w /\ activeObserver w' = activeObserver w /\
  document w' = document w /\ checks w' = checks w /\
  Loop.calls w' = Loop.calls w /\ Loop.console w' = Loop.console w /\
  now w' = now w.
Proof.
  unfold executedFunction, timeout_of.
  destruct (nth_error (closures w) c) as [[wt [i |]] |]; simpl;
    repeat split.
Qed.

Lemma notify_frame records o w :
  let w' := notify records o w in
  connected w' = connected w /\ activeObserver w' = activeObserver w /\
  document w' = document w /\ checks w' = checks w /\
  Loop.calls w' = Loop.calls w /\ Loop.console w' = Loop.console w /\
  now w' = now w.
Proof.
  unfold notify. destruct (notifies o) as [c | c].
  - destruct (existsb is_childList records); [| repeat split].
    apply executedFunction_frame.
  - apply executedFunction_frame.
Qed.

Lemma notify_all_frame records l w :
  let w' := fold_left (fun w o => notify records o w) l w in
  connected w' = connected w /\ activeObserver w' = activeObserver w /\
  document w' = document w /\ checks w' = checks w /\
  Loop.calls w' = Loop.calls w /\ Loop.console w' = Loop.console w /\
  now w' = now w.
Proof.
  revert w. induction l as [| o l IH]; intros w; simpl; [repeat split |].
  destruct (IH (notify records o w)) as (H1 & H2 & H3 & H4 & H5 & H6 & H7).
  destruct (notify_frame records o w) as (G1 & G2 & G3 & G4 & G5 & G6 & G7).
  repeat split; congruence.
Qed.

Lemma deliver_frame batch w :
  let w' := deliver batch w in
  connected w' = connected w /\ activeObserver w' = activeObserver w /\
  document w' = document w /\ checks w' = checks w /\
  Loop.calls w' = Loop.calls w /\ Loop.console w' = Loop.console w /\
  now w' = now w.
Proof.
  unfold deliver. destruct (filter is_childList batch) as [| m records];
    [repeat split |].
  apply notify_all_frame.
Qed.

Lemma deliver_to_frame l batch w :
  let w' := deliver_to l batch w in
  connected w' = connected w /\ activeObserver w' = activeObserver w /\
  document w' = document w /\ checks w' = checks w /\
  Loop.calls w' = Loop.calls w /\ Loop.console w' = Loop.console w /\
  now w' = now w.
Proof.
  cbv zeta. destruct (filter is_childList batch) as [| m records] eqn:E.
  - rewrite (deliver_to_silent l batch w E). repeat split.
  - unfold deliver_to. rewrite E. apply (notify_all_frame (m :: records)).
Qed.

(** A turn ends with the notifications of the observers, which connect
    and disconnect nothing. *)
Lemma turn_frame f w :
  connected (turn f w) = connected (f w) /\
  activeObserver (turn f w) = activeObserver (f w) /\
  checks (turn f w) = checks (f w) /\
  document (turn f w) = document (f w).
Proof.
  unfold turn.
  destruct (deliver_to_frame (connected w)
              (records_since (List.length (Loop.calls w)) (f w)) (f w))
    as (H1 & H2 & H3 & H4 & _).
  auto.
Qed.

Section Subscriptions.
Variable h : host.
(** A property of the connected observers and the handle that a teardown
    keeps. *)
Variable Q : list observer -> option nat -> Prop.
Hypothesis teardown :
  forall l o, Q l (Some o) ->
    Q (filter (fun x => negb (Nat.eqb (observer_id x) o)) l) None.

Lemma run_callback_keeps cb w :
  Q (connected w) (activeObserver w) ->
  Q (connected (run_callback h cb w)) (activeObserver (run_callback h cb w)).
Proof.
  intros H. destruct cb as [c | c |]; simpl.
  - destruct (handleMutations_frame h (clearTimeout (timeout_of c w) w))
      as (_ & _ & _ & _ & Hc & Ha & _).
    rewrite Hc, Ha. now destruct (timeout_of c w).
  - destruct (handleMutations_frame h w) as (_ & _ & _ & _ & Hc & Ha & _).
    now rewrite Hc, Ha.
  - destruct (activeObserver w) as [o |] eqn:Ea; [| now rewrite Ea].
    destruct (document w); [now rewrite Ea |].
    simpl. now apply teardown.
Qed.

Lemma fire_keeps fuel w :
  Q (connected w) (activeObserver w) ->
  Q (connected (fire h fuel w)) (activeObserver (fire h fuel w)).
Proof.
  revert w. induction fuel as [| fuel IH]; intros w H; simpl; [exact H |].
  destruct (pick_due (now w) (timers w)) as [[tm rest] |]; [| exact H].
  apply IH.
  destruct (turn_frame (run_callback h (fires tm)) (with_timers rest w))
    as (Hc & Ha & _).
  rewrite Hc, Ha. apply run_callback_keeps. exact H.
Qed.

Lemma elapse_keeps ms w :
  Q (connected w) (activeObserver w) ->
  Q (connected (elapse h ms w)) (activeObserver (elapse h ms w)).
Proof.
  revert w. induction ms as [| ms IH]; intros w H; simpl; [exact H |].
  apply IH. unfold tick. apply fire_keeps. exact H.
Qed.

End Subscriptions.

(** *** Subscriptions *)

Lemma handle_teardown l o :
  handle_matches l (Some o) ->
  handle_matches
    (filter (fun x => negb (Nat.eqb (observer_id x) o)) l) None.
Proof.
  intros [cb ->]. simpl. now rewrite Nat.eqb_refl.
Qed.

Lemma handle_observeTable_matches h w :
  handle_matches (connected w) (activeObserver w) ->
  handle_matches (connected (Handle.observeTable h w))
                 (activeObserver (Handle.observeTable h w)).
Proof.
  intros H. unfold Handle.observeTable.
  destruct (activeObserver w) eqn:Ea; [now rewrite Ea |].
  simpl in H.
  destruct (handleMutations_frame h w) as (_ & _ & _ & _ & Hc & _).
  cbn -[Nat.add]. rewrite Hc, H. simpl. eexists. reflexivity.
Qed.

Lemma handle_step_matches h w e :
  is_start_extension e = false ->
  handle_matches (connected w) (activeObserver w) ->
  handle_matches (connected (Script.step h w e))
                 (activeObserver (Script.step h w e)).
Proof.
  intros He H. destruct e as [batch | ms | doc | |]; simpl.
  - destruct (deliver_frame batch w) as (Hc & Ha & _). now rewrite Hc, Ha.
  - apply elapse_keeps; [apply handle_teardown | exact H].
  - exact H.
  - discriminate.
  - destruct (turn_frame (Handle.observeTable h) w) as (Hc & Ha & _).
    rewrite Hc, Ha. now apply handle_observeTable_matches.
Qed.

(** X9. In the variant with the handle, whatever the page does and
    however often the watcher is started, the handle and the connected
    observers agree and at most one observer is connected: the handle
    names the single connected observer, or is empty when none is. *)
Theorem handle_has_one_observer (h : host) (es : list Script.event)
        (w : world) :
  handle_matches (connected w) (activeObserver w) ->
  forallb (fun e => negb (is_start_extension e)) es = true ->
  handle_matches (connected (Script.run h es w))
                 (activeObserver (Script.run h es w)) /\
  List.length (connected (Script.run h es w)) <= 1.
Proof.
  intros H Hes.
  assert (Hm : handle_matches (connected (Script.run h es w))
                              (activeObserver (Script.run h es w))).
  { revert w H. induction es as [| e es IH]; intros w H; [exact H |].
    simpl in Hes. apply andb_prop in Hes. destruct Hes as [He Hes].
    apply negb_true_iff in He. simpl.
    apply IH; [exact Hes |]. now apply handle_step_matches. }
  split; [exact Hm |].
  destruct (activeObserver (Script.run h es w)); simpl in Hm.
  - destruct Hm as [cb ->]. simpl. lia.
  - rewrite Hm. simpl. lia.
Qed.

Lemma handle_has_one_observer_witness :
  handle_matches (connected otherPage) (activeObserver otherPage) /\
  List.length
    (connected
       (Script.run faultless
          [StartHandle; Script.Mutations [childList]; StartHandle;
           Script.Elapse 5000; StartHandle; StartHandle]
          otherPage)) <= 1.
Proof.
  assert (H0 : handle_matches (connected otherPage)
                              (activeObserver otherPage)) by reflexivity.
  split; [exact H0 |].
  exact (proj2 (handle_has_one_observer faultless
                  [StartHandle; Script.Mutations [childList]; StartHandle;
                   Script.Elapse 5000; StartHandle; StartHandle]
                  otherPage H0 eq_refl)).
Defined.

Lemma extension_step_connected h w e :
  is_start_handle e = false ->
  activeObserver w = None ->
  activeObserver (Script.step h w e) = None /\
  exists added,
    connected (Script.step h w e) = connected w ++ added /\
    List.length added = if is_start_extension e then 1 else 0.
Proof.
  intros He Ha. destruct e as [batch | ms | doc | |]; simpl.
  - destruct (deliver_frame batch w) as (Hc & Ha' & _).
    rewrite Hc, Ha'. split; [exact Ha |].
    exists []. now rewrite app_nil_r.
  - assert (H : activeObserver (elapse h ms w) = None /\
                connected (elapse h ms w) = connected w).
    { apply (elapse_keeps h (fun l a => a = None /\ l = connected w)).
      - intros l o [Hx _]. discriminate.
      - now split. }
    destruct H as [-> ->]. split; [reflexivity |].
    exists []. now rewrite app_nil_r.
  - split; [exact Ha |]. exists []. now rewrite app_nil_r.
  - destruct (turn_frame (Extension.observeTable h) w) as (Hc & Ha' & _).
    rewrite Hc, Ha'. unfold Extension.observeTable.
    destruct (handleMutations_frame h w) as (_ & _ & _ & _ & Hc' & Ha'' & _).
    simpl. rewrite Ha'', Hc'. split; [exact Ha |].
    eexists. split; reflexivity.
  - discriminate.
Qed.

(** X10. In extension/content.js nothing ever disconnects an observer:
    whatever the page does, the observers that are connected stay
    connected, in their order, and every start of the watcher adds at
    most one to them. *)
Theorem extension_observers_accumulate (h : host) (es : list Script.event)
        (w : world) :
  activeObserver w = None ->
  forallb (fun e => negb (is_start_handle e)) es = true ->
  exists added,
    connected (Script.run h es w) = connected w ++ added /\
    List.length added <= List.length (filter is_start_extension es).
Proof.
  revert w. induction es as [| e es IH]; intros w Ha Hes.
  { exists []. simpl. now rewrite app_nil_r. }
  simpl in Hes. apply andb_prop in Hes. destruct Hes as [He Hes].
  apply negb_true_iff in He.
  destruct (extension_step_connected h w e He Ha)
    as (Ha' & added & Hc & Hl).
  destruct (IH _ Ha' Hes) as (more & Hc' & Hl').
  exists (added ++ more). simpl Script.run. unfold Script.run in *.
  simpl fold_left. rewrite Hc', Hc, app_assoc. split; [reflexivity |].
  rewrite length_app, Hl. simpl filter.
  destruct (is_start_extension e); simpl; lia.
Qed.

Lemma extension_observers_accumulate_witness :
  activeObserver profilePage = None /\
  exists added,
    connected
      (Script.run faultless
         [StartExtension; Script.Mutations [childList]; Script.Elapse 200;
          StartExtension; Script.Render None; StartExtension]
         profilePage) = connected profilePage ++ added /\
    List.length added <=
    List.length
      (filter is_start_extension
         [StartExtension; Script.Mutations [childList]; Script.Elapse 200;
          StartExtension; Script.Render None; StartExtension]).
Proof.
  split; [reflexivity |].
  exact (extension_observers_accumulate faultless
           [StartExtension; Script.Mutations [childList]; Script.Elapse 200;
            StartExtension; Script.Render None; StartExtension]
           profilePage eq_refl eq_refl).
Defined.

(** On HTML table sections the start is [Extension.observeTable]. *)
Lemma observeTable_on_html sections h w :
  match document w with
  | Some t =>
      match tbody_of t with
      | Some tbody => sections tbody = true
      | None => True
      end
  | None => True
  end ->
  Extension.observeTable_on sections h w = Extension.observeTable h w.
Proof.
  unfold Extension.observeTable_on, Extension.observeTable,
    handleMutations_on, handleMutations.
  destruct (document w) as [t |]; [| reflexivity].
  intros H.
  rewrite (candidate_html sections h (mkState t _ _) H).
  unfold after.
  destruct (startWeekOnMonday h _) as [r s] eqn:E.
  pose proof (proj1 (never_throws h (mkState t (Loop.console w)
                                            (Loop.calls w)))) as Hok.
  rewrite E in Hok. simpl in Hok. subst r. reflexivity.
Qed.

(** X20. In extension/content.js the check at the start is not
    protected: when the guards raise on a calendar whose first [tbody]
    is not an HTML table section, [observeTable] ends with the
    exception before it has created the debounced function and the
    observer. The page is left as it was and nothing watches it. *)
Theorem start_aborts_on_foreign_tbody (sections : Candidate.interface)
        (h : host) (w : world) (t tbody : node) :
  document w = Some t ->
  corrected t = false ->
  tbody_of t = Some tbody ->
  sections tbody = false ->
  fst (handleMutations_on sections h w) = Thrown TypeError /\
  connected (Extension.observeTable_on sections h w) = connected w /\
  closures (Extension.observeTable_on sections h w) = closures w /\
  timers (Extension.observeTable_on sections h w) = timers w /\
  document (Extension.observeTable_on sections h w) = document w /\
  Loop.calls (Extension.observeTable_on sections h w) = Loop.calls w /\
  Loop.console (Extension.observeTable_on sections h w) = Loop.console w.
Proof.
  intros Hd Hc Hb Hs.
  unfold Extension.observeTable_on, handleMutations_on.
  rewrite Hd.
  unfold Candidate.startWeekOnMonday, bind, get_table, Candidate.rows_of.
  cbn [table]. rewrite Hc, Hb, Hs. cbn.
  repeat split; auto.
Qed.

Lemma start_aborts_on_foreign_tbody_witness :
  document captionedPage = Some captionedTable /\
  corrected captionedTable = false /\
  tbody_of captionedTable =
    Some (Elem "tbody" [("xmlns", svgNamespace)] []) /\
  htmlSections (Elem "tbody" [("xmlns", svgNamespace)] []) = false /\
  connected (Extension.observeTable_on htmlSections faultless captionedPage)
  = [].
Proof.
  refine (conj eq_refl (conj eq_refl (conj eq_refl (conj eq_refl _)))).
  exact (proj1 (proj2
           (start_aborts_on_foreign_tbody htmlSections faultless
              captionedPage captionedTable _ eq_refl eq_refl eq_refl
              eq_refl))).
Defined.

(** *** The check at the start and the check after a change *)

Lemma handleMutations_realigns w t :
  document w = Some t -> passes_guards t = true ->
  document (handleMutations faultless w) = Some (marked t).
Proof.
  intros Hd Hg. unfold handleMutations. rewrite Hd. simpl. f_equal.
  now rewrite (table_after_faultless (mkState t _ _) Hg).
Qed.

(** X11. Starting the watcher realigns a calendar that is already in the
    page, at once and without waiting for a change, in both variants. *)
Theorem start_realigns_present_calendar (w : world) (t : node) :
  document w = Some t ->
  passes_guards t = true ->
  document (Extension.observeTable faultless w) = Some (marked t) /\
  (activeObserver w = None ->
   document (Handle.observeTable faultless w) = Some (marked t)).
Proof.
  intros Hd Hg. pose proof (handleMutations_realigns w t Hd Hg) as Hr.
  split.
  - unfold Extension.observeTable. simpl. exact Hr.
  - intros Ha. unfold Handle.observeTable. rewrite Ha.
    cbn -[Nat.add]. exact Hr.
Qed.

Lemma start_realigns_present_calendar_witness :
  document profilePage = Some createTestTable /\
  passes_guards createTestTable = true /\
  document (Extension.observeTable faultless profilePage) =
  Some (marked createTestTable).
Proof.
  refine (conj eq_refl (conj eq_refl _)).
  exact (proj1 (start_realigns_present_calendar profilePage createTestTable
                  eq_refl eq_refl)).
Defined.

(** The check on a calendar that passes the guards edits it; the check
    on a corrected calendar leaves the page alone. *)
Lemma handleMutations_edits w t :
  document w = Some t -> passes_guards t = true ->
  exists edits,
    handleMutations faultless w =
    mkWorld (now w) (Some (marked t)) (Loop.console w)
            (Loop.calls w ++ edits) (timers w) (next_timer w) (closures w)
            (connected w) (next_observer w) (activeObserver w)
            (S (checks w)) (S (found w)) /\
    existsb is_childList
            (map (fun c => record_of (fst c)) (filter snd edits)) = true.
Proof.
  intros Hd Hg. unfold handleMutations. rewrite Hd.
  rewrite (after_faultless (mkState t _ _) Hg). simpl.
  eexists. split; [reflexivity |]. destruct (sun_style t); reflexivity.
Qed.

Lemma handleMutations_corrected h w t :
  document w = Some t -> corrected t = true ->
  handleMutations h w =
  mkWorld (now w) (Some t) (Loop.console w) (Loop.calls w) (timers w)
          (next_timer w) (closures w) (connected w) (next_observer w)
          (activeObserver w) (S (checks w)) (S (found w)).
Proof.
  intros Hd Hc. unfold handleMutations. rewrite Hd.
  now rewrite (after_corrected h (mkState t _ _) Hc).
Qed.

Lemma corrected_marked_table t :
  passes_guards t = true -> corrected (marked t) = true.
Proof.
  intros H.
  pose proof (corrected_after_faultless (mkState t [] []) H) as Hc.
  now rewrite (table_after_faultless (mkState t [] []) H) in Hc.
Qed.

(** The page of [late_calendar_realigned], 50 ms after the change. *)
Lemma late_calendar_first_check t a :
  passes_guards t = true ->
  exists edits,
    elapse faultless 50
      (mkWorld a (Some t) [] [] [mkTimer 0 (a + 50) (LaterClear 0)] 1
               [(50, Some 0)] [mkObserver 0 (IfChildList 0)] 1 None 1 0) =
    mkWorld (a + 50) (Some (marked t)) [] edits
            [mkTimer 1 (a + 50 + 50) (LaterClear 0)] 2
            [(50, Some 1)] [mkObserver 0 (IfChildList 0)] 1 None 2 1.
Proof.
  intros Hg.
  erewrite (elapse_single faultless 49) by reflexivity.
  unfold turn. cbn [run_callback].
  match goal with
  | |- context [handleMutations faultless ?v] =>
      destruct (handleMutations_edits v t eq_refl Hg) as (edits & E & Hr);
      rewrite E
  end.
  exists edits.
  erewrite records_since_app by reflexivity.
  cbn [connected with_timers at_time].
  rewrite (deliver_to_relevant _ 0 0 _ Hr).
  reflexivity.
Qed.

(** X12. With extension/content.js watching a page without calendar, a
    calendar that the page inserts later is realigned by the check that
    runs 50 ms after the change. The edits of that check are changes of
    the page as well: they schedule one more check, which runs another
    50 ms later, finds the calendar corrected and leaves it alone. After
    that no timer is pending, and three checks have run, the one at the
    start included. *)
Theorem late_calendar_realigned (t : node) (batch : list mutation_type)
        (a : nat) :
  passes_guards t = true ->
  existsb is_childList batch = true ->
  let w := Script.run faultless
             [StartExtension; Script.Elapse a; Script.Render (Some t);
              Script.Mutations batch]
             otherPage in
  document w = Some t /\
  checks w = 1 /\
  document (elapse faultless 50 w) = Some (marked t) /\
  checks (elapse faultless 50 w) = 2 /\
  List.length (timers (elapse faultless 50 w)) = 1 /\
  forall extra,
    document (elapse faultless (100 + extra) w) = Some (marked t) /\
    checks (elapse faultless (100 + extra) w) = 3 /\
    timers (elapse faultless (100 + extra) w) = [].
Proof.
  intros Hg Hb w. subst w. unfold Script.run. cbn [fold_left Script.step].
  rewrite (turn_unobserved _ otherPage) by reflexivity.
  change (Extension.observeTable faultless otherPage)
    with (mkWorld 0 None [] [] [] 0 [(50, None)]
                  [mkObserver 0 (IfChildList 0)] 1 None 1 0).
  rewrite elapse_quiet by constructor.
  erewrite deliver_relevant by (try reflexivity; exact Hb).
  cbn -[elapse Nat.add]. unfold set_timeout, with_closures.
  cbn -[elapse Nat.add]. rewrite !Nat.add_0_l.
  split; [reflexivity |]. split; [reflexivity |].
  destruct (late_calendar_first_check t a Hg) as (edits & E).
  split; [now rewrite E |]. split; [now rewrite E |].
  split; [now rewrite E |].
  intros extra.
  replace (100 + extra) with (50 + (50 + extra)) by lia.
  rewrite elapse_app, E, elapse_app.
  erewrite (elapse_single faultless 49) by reflexivity.
  rewrite turn_silent.
  - cbn [run_callback].
    erewrite handleMutations_corrected
      by (try reflexivity; now apply corrected_marked_table).
    rewrite elapse_quiet by constructor.
    repeat split.
  - cbn [run_callback].
    erewrite handleMutations_corrected
      by (try reflexivity; now apply corrected_marked_table).
    reflexivity.
Qed.

Lemma late_calendar_realigned_witness :
  passes_guards createTestTable = true /\
  existsb is_childList [attributes; childList] = true /\
  document
    (elapse faultless 50
       (Script.run faultless
          [StartExtension; Script.Elapse 300;
           Script.Render (Some createTestTable);
           Script.Mutations [attributes; childList]]
          otherPage)) = Some (marked createTestTable).
Proof.
  refine (conj eq_refl (conj eq_refl _)).
  exact (proj1 (proj2 (proj2
           (late_calendar_realigned createTestTable [attributes; childList]
              300 eq_refl eq_refl)))).
Defined.

(** *** The debounced function outside a burst *)

(** X13. The check of a burst is a trailing one: as long as less than
    [wait] has passed since the last call, no check has run and the
    timer is still pending. *)
Theorem debounce_waits_for_quiet (h : host) (later : nat -> callback)
        (c wait : nat) (tmo : option nat) (gaps : list nat) (g : nat)
        (w : world) :
  timers w = [] ->
  nth_error (closures w) c = Some (wait, tmo) ->
  Forall (fun x => x < wait) gaps ->
  g < wait ->
  checks (elapse h g (burst h later c gaps w)) = checks w /\
  List.length (timers (elapse h g (burst h later c gaps w))) = 1.
Proof.
  intros Ht Hc Hg Hlt.
  assert (Hr : ready c wait w) by (exists tmo; auto).
  destruct (burst_arms h later c wait gaps w Hg Hr) as [Ha Hk].
  destruct (armed_waits h later c wait g _ Ha Hlt) as [_ Hk'].
  split; [congruence |].
  destruct Ha as (i & Hti & _).
  rewrite elapse_quiet
    by (rewrite Hti; constructor; [simpl; lia | constructor]).
  simpl. now rewrite Hti.
Qed.

Lemma debounce_waits_for_quiet_witness :
  timers debounced = [] /\
  nth_error (closures debounced) 0 = Some (50, None) /\
  Forall (fun x => x < 50) [10; 49] /\ 49 < 50 /\
  checks (elapse faultless 49
            (burst faultless Later 0 [10; 49] debounced)) =
  checks debounced.
Proof.
  assert (Hg : Forall (fun x => x < 50) [10; 49])
    by (repeat constructor; lia).
  assert (H49 : 49 < 50) by lia.
  refine (conj eq_refl (conj eq_refl (conj Hg (conj H49 _)))).
  exact (proj1 (debounce_waits_for_quiet faultless Later 0 50 None
                  [10; 49] 49 debounced eq_refl eq_refl Hg H49)).
Defined.

(** *** After the teardown *)

Lemma unobserved_step h w e :
  is_page_event e = true ->
  connected w = [] /\ timers w = [] ->
  (connected (Script.step h w e) = [] /\ timers (Script.step h w e) = []) /\
  checks (Script.step h w e) = checks w /\
  Loop.calls (Script.step h w e) = Loop.calls w /\
  document (Script.step h w e) =
  last_render [e] (document w).
Proof.
  intros He [Hc Ht]. destruct e as [batch | ms | doc | |]; simpl;
    try discriminate.
  - unfold deliver. rewrite Hc.
    destruct (filter is_childList batch); simpl; auto.
  - rewrite elapse_quiet by (rewrite Ht; constructor). simpl. auto.
  - auto.
Qed.

(** X19. With no observer connected and no timer pending, as after the
    give-up timer has torn the watcher down, nothing the page does is
    noticed: no check runs, no DOM call is made, and the document stays
    as the page rendered it, calendar or not. *)
Theorem unobserved_page_is_left_alone (h : host) (es : list Script.event)
        (w : world) :
  connected w = [] -> timers w = [] ->
  forallb is_page_event es = true ->
  checks (Script.run h es w) = checks w /\
  Loop.calls (Script.run h es w) = Loop.calls w /\
  document (Script.run h es w) = last_render es (document w).
Proof.
  intros Hc Ht. revert w Hc Ht.
  induction es as [| e es IH]; intros w Hc Ht Hes; [repeat split |].
  simpl in Hes. apply andb_prop in Hes. destruct Hes as [He Hes].
  destruct (unobserved_step h w e He (conj Hc Ht))
    as ([Hc' Ht'] & Hk & Hl & Hd).
  destruct (IH _ Hc' Ht' Hes) as (Hk' & Hl' & Hd').
  unfold Script.run in *. simpl.
  rewrite Hk', Hl', Hd', Hk, Hl, Hd. repeat split.
Qed.

Lemma unobserved_page_is_left_alone_witness :
  connected (Script.run faultless [StartHandle; Script.Elapse 5000]
                        otherPage) = [] /\
  timers (Script.run faultless [StartHandle; Script.Elapse 5000]
                     otherPage) = [] /\
  document
    (Script.run faultless
       [Script.Render (Some createTestTable); Script.Mutations [childList];
        Script.Elapse 1000]
       (Script.run faultless [StartHandle; Script.Elapse 5000] otherPage)) =
  Some createTestTable.
Proof.
  assert (Hc : connected (Script.run faultless
                            [StartHandle; Script.Elapse 5000] otherPage)
               = []) by (vm_compute; reflexivity).
  assert (Ht : timers (Script.run faultless
                         [StartHandle; Script.Elapse 5000] otherPage)
               = []) by (vm_compute; reflexivity).
  split; [exact Hc |]. split; [exact Ht |].
  rewrite (proj2 (proj2 (unobserved_page_is_left_alone faultless
                           [Script.Render (Some createTestTable);
                            Script.Mutations [childList];
                            Script.Elapse 1000]
                           _ Hc Ht eq_refl))).
  reflexivity.
Defined.

End WatcherMore.

(** ** Properties of the start-up *)

Module BrowserProps.
Import Dom Realigner Loop Browser Fixture.
Import WatcherProps WatcherMore.

Lemma deliver_unobserved batch w : connected w = [] -> deliver batch w = w.
Proof.
  intros Hc. unfold deliver. rewrite Hc.
  now destruct (filter is_childList batch).
Qed.

Lemma settle_unobserved b b' : connected (loop b) = [] -> settle b b' = b'.
Proof. intros H. unfold settle. rewrite H. now destruct b'. Qed.

(** The notifications at the end of a turn connect and disconnect
    nothing. *)
Lemma settle_frame b b' :
  running (settle b b') = running b' /\
  deferred (settle b b') = deferred b' /\
  pending_gets (settle b b') = pending_gets b' /\
  popstate_listener (settle b b') = popstate_listener b' /\
  connected (loop (settle b b')) = connected (loop b') /\
  activeObserver (loop (settle b b')) = activeObserver (loop b').
Proof.
  unfold settle. cbn [running deferred pending_gets popstate_listener
                      loop with_loop].
  destruct (deliver_to_frame (connected (loop b))
              (records_since (List.length (Loop.calls (loop b))) (loop b'))
              (loop b')) as (H1 & H2 & _).
  auto 10.
Qed.

Lemma idle_elapse h ms w : idle w -> idle (elapse h ms w).
Proof.
  intros (H1 & H2 & H3 & H4 & H5 & H6).
  rewrite elapse_quiet by (rewrite H3; constructor).
  repeat split; assumption.
Qed.

(** The page events leave an idle page idle. *)
Lemma idle_page_event h b e :
  idle (loop b) ->
  match e with
  | Mutations _ | Elapse _ | Render _ => idle (loop (step h b e))
  | _ => True
  end.
Proof.
  intros H. destruct e as [| | | batch | ms | doc]; try exact I; simpl.
  - destruct H as (H1 & H'). now rewrite (deliver_unobserved batch _ H1).
  - now apply idle_elapse.
  - exact H.
Qed.

Lemma disabled_step h b e :
  stored b = Some false ->
  idle (loop b) /\ popstate_listener b = false ->
  stored (step h b e) = Some false /\
  idle (loop (step h b e)) /\ popstate_listener (step h b e) = false.
Proof.
  intros Hs [Hi Hp].
  pose proof (idle_page_event h b e Hi) as Hpage.
  destruct e as [| | | batch | ms | doc]; simpl in *.
  - destruct (loading b); [destruct (deferred b) |]; simpl; auto.
  - destruct (pending_gets b); [auto |].
    rewrite settle_unobserved by apply Hi.
    unfold on_items, items_enableRealignment. simpl. rewrite Hs. simpl. auto.
  - rewrite Hp. auto.
  - auto.
  - auto.
  - auto.
Qed.

(** X15. With [enableRealignment] stored as false, whatever happens in
    the page afterwards, the script connects no observer, sets no timer,
    runs no check, makes no DOM call and registers no popstate listener,
    also when a calendar is in the page from the start. *)
Theorem disabled_setting_starts_nothing (h : host) (sc : script)
        (is_loading : bool) (doc : option node) (es : list event) :
  idle (loop (run h es (boot sc is_loading (Some false) doc))) /\
  popstate_listener (run h es (boot sc is_loading (Some false) doc)) = false.
Proof.
  assert (H0 : stored (boot sc is_loading (Some false) doc) = Some false /\
               idle (loop (boot sc is_loading (Some false) doc)) /\
               popstate_listener (boot sc is_loading (Some false) doc)
               = false).
  { unfold boot, load, idle. destruct is_loading; simpl; repeat split. }
  revert H0. generalize (boot sc is_loading (Some false) doc).
  unfold run. induction es as [| e es IH]; intros b (Hs & Hi); simpl.
  - exact Hi.
  - apply IH. destruct (disabled_step h b e Hs Hi) as (H1 & H2).
    split; assumption.
Qed.

(** *** One subscription *)

Lemma extension_observeTable_connected h w :
  activeObserver w = None ->
  activeObserver (Extension.observeTable h w) = None /\
  List.length (connected (Extension.observeTable h w)) =
  S (List.length (connected w)).
Proof.
  intros Ha. unfold Extension.observeTable.
  destruct (handleMutations_frame h w) as (_ & _ & _ & _ & Hc & Ha' & _).
  simpl. rewrite Ha', Hc, length_app. simpl. split; [exact Ha | lia].
Qed.

Lemma extension_page_step h w e :
  is_page_event e = true ->
  activeObserver w = None ->
  activeObserver (Script.step h w e) = None /\
  connected (Script.step h w e) = connected w.
Proof.
  intros He Ha.
  assert (Hh : is_start_handle e = false) by (now destruct e).
  destruct (extension_step_connected h w e Hh Ha) as (Ha' & added & Hc & Hl).
  split; [exact Ha' |]. rewrite Hc.
  destruct e; try discriminate; (destruct added; [| discriminate]);
    apply app_nil_r.
Qed.

Lemma extension_browser_step h b e :
  running b = ExtensionScript ->
  activeObserver (loop b) = None /\ popstate_listener b = false /\
  budget b <= 1 ->
  running (step h b e) = ExtensionScript /\
  activeObserver (loop (step h b e)) = None /\
  popstate_listener (step h b e) = false /\
  budget (step h b e) <= 1.
Proof.
  intros Hr (Ha & Hp & Hb). unfold budget in *.
  destruct e as [| | | batch | ms | doc]; simpl.
  - destruct (loading b); [| auto].
    destruct (deferred b); simpl in *; repeat split; auto; lia.
  - destruct (pending_gets b) as [| n] eqn:En.
    { repeat split; auto. rewrite En. exact Hb. }
    match goal with
    | |- context [settle b ?x] =>
        destruct (settle_frame b x) as (S1 & S2 & S3 & S4 & S5 & S6);
        rewrite S1, S2, S3, S4, S5, S6
    end.
    unfold on_items, items_enableRealignment.
    cbn -[Extension.observeTable]. rewrite Hr.
    destruct (extension_observeTable_connected h (loop b) Ha) as [Ha' Hl].
    destruct (stored b) as [[|] |]; cbn -[Extension.observeTable];
      rewrite ?Ha', ?Hl;
      repeat split; auto; destruct (deferred b); simpl in *; lia.
  - rewrite Hp. auto.
  - destruct (extension_page_step h (loop b) (Script.Mutations batch)
                eq_refl Ha) as [Ha' Hl].
    simpl in Ha', Hl. rewrite Ha', Hl. repeat split; auto.
  - destruct (extension_page_step h (loop b) (Script.Elapse ms)
                eq_refl Ha) as [Ha' Hl].
    simpl in Ha', Hl. rewrite Ha', Hl. repeat split; auto.
  - repeat split; auto.
Qed.

Lemma handle_browser_step h b e :
  running b = HandleScript ->
  handle_matches (connected (loop b)) (activeObserver (loop b)) ->
  running (step h b e) = HandleScript /\
  handle_matches (connected (loop (step h b e)))
                 (activeObserver (loop (step h b e))).
Proof.
  intros Hr Hm. destruct e as [| | | batch | ms | doc]; cbn -[settle].
  - destruct (loading b); [destruct (deferred b) |]; simpl; auto.
  - destruct (pending_gets b) as [| n]; [auto |].
    match goal with
    | |- context [settle b ?x] =>
        destruct (settle_frame b x) as (S1 & _ & _ & _ & S5 & S6);
        rewrite S1, S5, S6
    end.
    unfold on_items, items_enableRealignment. simpl. rewrite Hr.
    destruct (stored b) as [[|] |]; simpl; auto;
      (split; [reflexivity | now apply handle_observeTable_matches]).
  - destruct (popstate_listener b); cbn -[settle]; [| auto].
    match goal with
    | |- context [settle b ?x] =>
        destruct (settle_frame b x) as (S1 & _ & _ & _ & S5 & S6);
        rewrite S1, S5, S6
    end.
    split; [exact Hr | now apply handle_observeTable_matches].
  - split; [exact Hr |].
    exact (handle_step_matches h (loop b) (Script.Mutations batch)
             eq_refl Hm).
  - split; [exact Hr |].
    exact (handle_step_matches h (loop b) (Script.Elapse ms) eq_refl Hm).
  - auto.
Qed.

(** X16. Loaded in a page, either script keeps at most one mutation
    observer connected, whatever the setting and whatever happens
    afterwards: [main] runs once, so extension/content.js starts its
    watcher at most once, and the other variant guards every start,
    also those that popstate events ask for. *)
Theorem at_most_one_subscription (h : host) (sc : script)
        (is_loading : bool) (setting : option bool) (doc : option node)
        (es : list event) :
  List.length
    (connected (loop (run h es (boot sc is_loading setting doc)))) <= 1.
Proof.
  destruct sc.
  - assert (H0 : running (boot ExtensionScript is_loading setting doc)
                 = ExtensionScript /\
                 activeObserver
                   (loop (boot ExtensionScript is_loading setting doc))
                 = None /\
                 popstate_listener
                   (boot ExtensionScript is_loading setting doc) = false /\
                 budget (boot ExtensionScript is_loading setting doc) <= 1).
    { unfold boot, load, budget. destruct is_loading; simpl; auto. }
    revert H0. generalize (boot ExtensionScript is_loading setting doc).
    unfold run. induction es as [| e es IH]; intros b (Hr & Hi); simpl.
    + destruct Hi as (_ & _ & Hb). unfold budget in Hb. lia.
    + apply IH. now apply extension_browser_step.
  - assert (H0 : running (boot HandleScript is_loading setting doc)
                 = HandleScript /\
                 handle_matches
                   (connected
                      (loop (boot HandleScript is_loading setting doc)))
                   (activeObserver
                      (loop (boot HandleScript is_loading setting doc)))).
    { unfold boot, load. destruct is_loading; simpl; auto. }
    revert H0. generalize (boot HandleScript is_loading setting doc).
    unfold run. induction es as [| e es IH]; intros b (Hr & Hm); simpl.
    + destruct (activeObserver (loop b)); simpl in Hm.
      * destruct Hm as [cb ->]. simpl. lia.
      * rewrite Hm. simpl. lia.
    + apply IH. now apply handle_browser_step.
Qed.

(** *** When the watcher starts *)

Lemma deferred_step h b e :
  is_dom_ready e = false ->
  idle (loop b) /\ pending_gets b = 0 /\ popstate_listener b = false ->
  idle (loop (step h b e)) /\ pending_gets (step h b e) = 0 /\
  popstate_listener (step h b e) = false.
Proof.
  intros He (Hi & Hg & Hp).
  pose proof (idle_page_event h b e Hi) as Hpage.
  destruct e as [| | | batch | ms | doc]; simpl in *;
    try discriminate; rewrite ?Hg, ?Hp; auto.
Qed.

(** X17. While the document is still loading, the script does nothing
    before DOMContentLoaded: no settings are asked for and nothing is
    started. Unless [enableRealignment] is stored as false (a missing
    value counts as true), the watcher has been started once the
    settings have answered, after DOMContentLoaded in a loading document
    and directly otherwise. *)
Theorem watcher_starts_when_enabled (h : host) (sc : script)
        (setting : option bool) (doc : option node) :
  setting <> Some false ->
  (forall es,
      forallb (fun e => negb (is_dom_ready e)) es = true ->
      idle (loop (run h es (boot sc true setting doc))) /\
      pending_gets (run h es (boot sc true setting doc)) = 0)
  /\ loop (run h [DOMContentLoaded; StorageAnswers]
               (boot sc true setting doc)) =
     observeTable_of sc h (initial doc)
  /\ loop (run h [StorageAnswers] (boot sc false setting doc)) =
     observeTable_of sc h (initial doc).
Proof.
  intros Hs. split; [| split].
  - intros es.
    assert (H0 : idle (loop (boot sc true setting doc)) /\
                 pending_gets (boot sc true setting doc) = 0 /\
                 popstate_listener (boot sc true setting doc) = false).
    { unfold boot, load, idle. simpl. repeat split. }
    revert H0. generalize (boot sc true setting doc).
    unfold run. induction es as [| e es IH]; intros b H Hes; simpl.
    + destruct H as (H1 & H2 & _). now split.
    + simpl in Hes. apply andb_prop in Hes. destruct Hes as [He Hes].
      apply negb_true_iff in He.
      apply IH; [| exact Hes]. now apply deferred_step.
  - destruct sc, setting as [[|] |]; try reflexivity; now elim Hs.
  - destruct sc, setting as [[|] |]; try reflexivity; now elim Hs.
Qed.

Lemma watcher_starts_when_enabled_witness :
  (None : option bool) <> Some false /\
  List.length
    (connected
       (loop (run faultless [DOMContentLoaded; StorageAnswers]
                  (boot ExtensionScript true None
                        (Some createTestTable))))) = 1.
Proof.
  assert (Hn : (None : option bool) <> Some false) by discriminate.
  split; [exact Hn |].
  rewrite (proj1 (proj2 (watcher_starts_when_enabled faultless
                           ExtensionScript None (Some createTestTable) Hn))).
  reflexivity.
Defined.



End BrowserProps.
